(** * FlexDAO demand-flexibility simulation (backend/simulate.py)

    A shallow embedding of [simulate()] and of the profile functions it uses.

    Numbers.  The program computes on IEEE doubles; here every float is an
    exact rational [Q], so the embedding describes the arithmetic the program
    rounds.  Comparisons, [min]/[max], [round] and [int] follow the Python and
    NumPy rules on those exact values; the one non-finite value the program can
    build from a well-typed input (the [nan] that [np.array(.., dtype=float)]
    makes of a [None] intensity) is kept apart as [None].

    Randomness.  [np.random.default_rng(SEED)] is an explicit generator
    interface ([Generator]); every draw threads the generator state, in the
    order the program draws. *)

From Stdlib Require Import QArith Qround Lqa ZArith List String Ascii OrdersEx.
From stdpp Require Import gmap strings list sorting pretty.

Local Open Scope Q_scope.

(* ------------------------------------------------------------------------- *)
(** ** Python values and operators on exact numbers                          *)
(* ------------------------------------------------------------------------- *)

(** Exceptions the modelled part of the program can raise. *)
Inductive PyError : Set :=
  | ValueError   (* strptime on a malformed timestamp; int(nan) *)
  | IndexError.  (* indexing an array with the float-typed empty array *)

(** The outcome of a call that may raise. *)
Inductive Outcome (A : Type) : Type :=
  | Ok (a : A)
  | Raise (e : PyError).
Arguments Ok {A} a.
Arguments Raise {A} e.

Definition obind {A B} (o : Outcome A) (k : A → Outcome B) : Outcome B :=
  match o with Ok a => k a | Raise e => Raise e end.

Fixpoint omapM {A B} (f : A → Outcome B) (l : list A) : Outcome (list B) :=
  match l with
  | [] => Ok []
  | x :: r => obind (f x) (λ y, obind (omapM f r) (λ ys, Ok (y :: ys)))
  end.

(** [a < b], [a <= b] as Python evaluates them on finite numbers. *)
Definition Qltb (a b : Q) : bool := (Qnum a * QDen b <? Qnum b * QDen a)%Z.
Definition Qleb (a b : Q) : bool := Qle_bool a b.

(** [max(a, b)] returns [b] when [b > a], else [a]; [min(a, b)] returns [b]
    when [b < a], else [a]. *)
Definition py_max (a b : Q) : Q := if Qltb a b then b else a.
Definition py_min (a b : Q) : Q := if Qltb b a then b else a.

(** [int(x)]: truncation toward zero. *)
Definition py_int (x : Q) : Z := Z.quot (Qnum x) (QDen x).

(** [round(x, nd)]: the multiple of [10^-nd] nearest to [x], ties to the even
    multiple. *)
Definition round_half_even (y : Q) : Z :=
  let f := Qfloor y in
  let r := y - inject_Z f in
  if Qltb r (1 # 2) then f
  else if Qltb (1 # 2) r then (f + 1)%Z
  else if Z.even f then f else (f + 1)%Z.

Definition py_round (x : Q) (nd : nat) : Q :=
  inject_Z (round_half_even (x * inject_Z (10 ^ Z.of_nat nd)))
  / inject_Z (10 ^ Z.of_nat nd).

(** [np.sum], [np.max], [np.min] of a one-dimensional array.  [np.max] and
    [np.min] raise on an empty array; they are only applied to arrays the
    program has made non-empty, and take the head as the start value. *)
Definition np_sum (l : list Q) : Q := fold_right Qplus 0 l.

Definition np_max (l : list Q) : Q :=
  match l with [] => 0 | x :: r => fold_left py_max r x end.

Definition np_min (l : list Q) : Q :=
  match l with [] => 0 | x :: r => fold_left py_min r x end.

(** [a[t]] for an index the program keeps in range. *)
Definition at_ (l : list Q) (t : nat) : Q := nth t l 0.

(** Insertion sort, for [np.median]. *)
Fixpoint Qinsert (x : Q) (l : list Q) : list Q :=
  match l with
  | [] => [x]
  | y :: r => if Qleb x y then x :: l else y :: Qinsert x r
  end.

Definition Qsort (l : list Q) : list Q := fold_right Qinsert [] l.

(** [np.median]: the middle element of the sorted array, or the mean of the
    two middle elements when the length is even. *)
Definition np_median (l : list Q) : Q :=
  let s := Qsort l in
  let n := length s in
  if Nat.even n
  then (at_ s (n / 2 - 1) + at_ s (n / 2)) / 2
  else at_ s (n / 2).

(* ------------------------------------------------------------------------- *)
(** ** Constants                                                             *)
(* ------------------------------------------------------------------------- *)

Definition N_HOUSEHOLDS : nat := 25.
Definition HIGH_THRESHOLD : Q := 150.
Definition SEED : Z := 42.

(* ------------------------------------------------------------------------- *)
(** ** Demand profile shapes, by half-hour-of-day index 0..47                *)
(* ------------------------------------------------------------------------- *)

(** [hours = np.arange(48) / 2.0] at index [i]. *)
Definition hours (i : nat) : Q := inject_Z (Z.of_nat i) / 2.

(** [_duck_curve_base()] at index [i]: the nested [np.where]. *)
Definition DUCK_CURVE (i : nat) : Q :=
  let h := hours i in
  if Qltb h 6 then 0.3
  else if Qltb h 8 then 0.3 + 0.7 * (h - 6) / 2
  else if Qltb h 12 then 0.85 - 0.15 * (h - 8) / 4
  else if Qltb h 16 then 0.7
  else if Qltb h 18 then 0.7 + 0.6 * (h - 16) / 2
  else if Qltb h 21 then 1.3 - 0.1 * (h - 18) / 3
  else if Qltb h 23 then 1.0 - 0.5 * (h - 21) / 2
  else 0.35.

(** [_flexible_fraction_profile()] at index [i]. *)
Definition FLEX_PROFILE (i : nat) : Q :=
  let h := hours i in
  if Qltb h 6 then 0.7
  else if Qltb h 9 then 0.4
  else if Qltb h 16 then 0.5
  else if Qltb h 20 then 0.15
  else 0.6.

(* ------------------------------------------------------------------------- *)
(** ** Input records                                                         *)
(* ------------------------------------------------------------------------- *)

(** A key of the JSON object [intensity]: absent, [null], or a number. *)
Inductive JField : Type :=
  | Absent
  | JNull
  | JNum (q : Q).

Record Intensity : Type := { forecast : JField; actual : JField }.

Record CarbonSlot : Type := {
  from_ : string;
  to_ : string;
  intensity : Intensity;
}.

(** [d.get(k)] and [d.get(k, dflt)]: [None] stands for Python's [None]. *)
Definition dict_get (f : JField) : option Q :=
  match f with JNum q => Some q | _ => None end.

Definition dict_get_default (f : JField) (dflt : Q) : option Q :=
  match f with Absent => Some dflt | JNull => None | JNum q => Some q end.

(** Truth value of a number-or-None: [None] and zero are false. *)
Definition py_truthy (v : option Q) : bool :=
  match v with None => false | Some q => negb (Qeq_bool q 0) end.

(** [a or b]. *)
Definition py_or (a b : option Q) : option Q := if py_truthy a then a else b.

(** Line 124: [slot["intensity"].get("actual") or
    slot["intensity"].get("forecast", 0)]. *)
Definition slot_intensity (s : CarbonSlot) : option Q :=
  py_or (dict_get (actual (intensity s)))
        (dict_get_default (forecast (intensity s)) 0).

(* ------------------------------------------------------------------------- *)
(** ** Timestamps and calendar days                                          *)
(* ------------------------------------------------------------------------- *)

(** The fields [datetime.strptime] returns that the program reads. *)
Record DateTime : Set := {
  dt_year : nat; dt_month : nat; dt_day : nat; dt_hour : nat; dt_minute : nat;
}.

Definition digit (c : ascii) : option nat :=
  let n := nat_of_ascii c in
  if (48 <=? n)%nat && (n <=? 57)%nat then Some (n - 48)%nat else None.

Definition num2 (a b : ascii) : option nat :=
  x ← digit a; y ← digit b; Some (10 * x + y)%nat.

Definition num4 (a b c d : ascii) : option nat :=
  x ← num2 a b; y ← num2 c d; Some (100 * x + y)%nat.

Definition is_leap (y : nat) : bool :=
  ((y mod 4 =? 0)%nat && negb (y mod 100 =? 0)%nat) || (y mod 400 =? 0)%nat.

Definition days_in_month (y m : nat) : nat :=
  match m with
  | 2 => if is_leap y then 29 else 28
  | 4 | 6 | 9 | 11 => 30
  | _ => 31
  end%nat.

Definition valid_datetime (d : DateTime) : bool :=
  (1 <=? dt_year d)%nat
  && (1 <=? dt_month d)%nat && (dt_month d <=? 12)%nat
  && (1 <=? dt_day d)%nat && (dt_day d <=? days_in_month (dt_year d) (dt_month d))%nat
  && (dt_hour d <=? 23)%nat && (dt_minute d <=? 59)%nat.

(** Line 121: [datetime.strptime(ts.replace("Z", "+00:00"),
    "%Y-%m-%dT%H:%M%z")], on the fixed-width form [YYYY-MM-DDTHH:MMZ] that
    fetch_carbon.py's [iso_fmt] writes.  Any other string is a [ValueError]
    here (strptime itself also accepts some unpadded fields and other
    offsets, which the carbon file never holds). *)
Definition strptime (ts : string) : Outcome DateTime :=
  match list_ascii_of_string ts with
  | [y1; y2; y3; y4; s1; m1; m2; s2; d1; d2; s3; h1; h2; s4; n1; n2; z] =>
      if Ascii.eqb s1 "-" && Ascii.eqb s2 "-" && Ascii.eqb s3 "T"
         && Ascii.eqb s4 ":" && Ascii.eqb z "Z"
      then
        match num4 y1 y2 y3 y4, num2 m1 m2, num2 d1 d2, num2 h1 h2, num2 n1 n2 with
        | Some y, Some m, Some d, Some h, Some n =>
            let dt := {| dt_year := y; dt_month := m; dt_day := d;
                         dt_hour := h; dt_minute := n |} in
            if valid_datetime dt then Ok dt else Raise ValueError
        | _, _, _, _, _ => Raise ValueError
        end
      else Raise ValueError
  | _ => Raise ValueError
  end.

(** Line 122: [dt.hour * 2 + (1 if dt.minute >= 30 else 0)]. *)
Definition hod_idx (dt : DateTime) : nat :=
  (dt_hour dt * 2 + (if (30 <=? dt_minute dt)%nat then 1 else 0))%nat.

(** Line 134: [ts[:10]]. *)
Definition day_id (ts : string) : string := String.substring 0 10 ts.

(** String order of Python's [sorted]: lexicographic by code point. *)
Definition str_leb (a b : string) : bool :=
  match String_as_OT.compare a b with Gt => false | _ => true end.

Fixpoint str_insert (x : string) (l : list string) : list string :=
  match l with
  | [] => [x]
  | y :: r => if str_leb x y then x :: l else y :: str_insert x r
  end.

Definition py_sorted (l : list string) : list string := fold_right str_insert [] l.

(** [l.index(d)]: the first position of [d]. *)
Fixpoint py_index (d : string) (l : list string) : option nat :=
  match l with
  | [] => None
  | x :: r => if String.eqb x d then Some 0%nat else S <$> py_index d r
  end.

(** Line 135: [sorted(set(day_ids))].  A Python set is iterated in an order
    that depends on the process's string hashing; [iter] is that order. *)
Definition unique_days_with (iter : gset string → list string)
    (day_ids : list string) : list string :=
  py_sorted (iter (list_to_set day_ids)).

(** [iter] enumerates exactly the elements of the set, each once. *)
Definition SetOrder (iter : gset string → list string) : Prop :=
  ∀ X, iter X ≡ₚ elements X.

(** Line 136: [unique_days.index(d) for d in day_ids]; every [d] occurs in
    [unique_days] (lemma [py_index_unique_days]), so [index] never raises. *)
Definition day_of_slot_of (unique_days day_ids : list string) : list nat :=
  map (λ d, default 0%nat (py_index d unique_days)) day_ids.

(* ------------------------------------------------------------------------- *)
(** ** The pseudorandom source                                               *)
(* ------------------------------------------------------------------------- *)

(** [np.random.Generator], as far as the program uses it.  Each draw returns
    the value and the next generator state.  [gen_choice k] is the position
    [rng.choice] picks in a list of [k] items. *)
Class Generator (G : Type) : Type := {
  default_rng : Z → G;
  gen_normal : Q → Q → G → Q * G;
  gen_uniform : Q → Q → G → Q * G;
  gen_random : G → Q * G;
  gen_choice : nat → G → nat * G;
}.

(** A computation that draws from the generator. *)
Definition Rand (G A : Type) : Type := G → A * G.

Definition rret {G A} (a : A) : Rand G A := λ g, (a, g).

Definition rbind {G A B} (m : Rand G A) (k : A → Rand G B) : Rand G B :=
  λ g, let '(a, g') := m g in k a g'.

Notation "x <~ m ;; k" := (rbind m (λ x, k))
  (at level 200, m at level 99, right associativity).

(** [rng.normal(mu, sigma, size=n)]: [n] successive draws. *)
Fixpoint gen_normal_vec {G} `{Generator G} (mu sigma : Q) (n : nat) : Rand G (list Q) :=
  match n with
  | O => rret []
  | S n' => x <~ gen_normal mu sigma ;; xs <~ gen_normal_vec mu sigma n' ;; rret (x :: xs)
  end.

(** [for x in xs: ...] over a draw-consuming body, collecting the results. *)
Fixpoint rmapM {G A B} (f : A → Rand G B) (l : list A) : Rand G (list B) :=
  match l with
  | [] => rret []
  | x :: r => y <~ f x ;; ys <~ rmapM f r ;; rret (y :: ys)
  end.

(* ------------------------------------------------------------------------- *)
(** ** Households                                                            *)
(* ------------------------------------------------------------------------- *)

Record Household : Type := {
  hh_id : string;  (* "id" *)
  peak_demand_kw : Q;
  max_shift_fraction : Q;
  max_shift_hours : Q;
  p_respond : Q;
  flex_assets : string;
}.

Definition FLEX_ASSETS : list string :=
  ["EV + heat pump"; "EV + dishwasher + battery"; "Heat pump + laundry";
   "EV + battery"; "Heat pump + dishwasher"]%string.

(** [f"HH-{i+1:03d}"]. *)
Definition zfill3 (s : string) : string :=
  (string_of_list_ascii (repeat "0"%char (3 - String.length s)) ++ s)%string.

Definition household_id (i : nat) : string :=
  ("HH-" ++ zfill3 (pretty (i + 1)%nat))%string.

(** Lines 141-159: one household, five draws in this order. *)
Definition gen_household {G} `{Generator G} (i : nat) : Rand G Household :=
  pk <~ gen_normal 1.8 0.4 ;;
  let peak_demand := py_max 0.8 (py_round pk 2) in
  msf <~ gen_uniform 0.20 0.40 ;;
  msh <~ gen_uniform 2.0 4.0 ;;
  pr <~ gen_uniform 0.5 0.95 ;;
  c <~ gen_choice (length FLEX_ASSETS) ;;
  rret {| hh_id := household_id i;
          peak_demand_kw := peak_demand;
          max_shift_fraction := py_round msf 2;
          max_shift_hours := py_round msh 1;
          p_respond := py_round pr 2;
          flex_assets := nth c FLEX_ASSETS ""%string |}.

(** Lines 139-159: [for i in range(N_HOUSEHOLDS)]. *)
Definition gen_households {G} `{Generator G} : Rand G (list Household) :=
  rmapM gen_household (seq 0 N_HOUSEHOLDS).

(* ------------------------------------------------------------------------- *)
(** ** Slot index (lines 113-136)                                            *)
(* ------------------------------------------------------------------------- *)

(** The aligned arrays built from the carbon file.  [intensities] holds the
    finite values; a [None] (NaN) entry is ruled out before the arrays are
    used, see [simulate_with]. *)
Record SlotIndex : Type := {
  timestamps : list string;
  slot_hod : list nat;
  intensities : list Q;
  unique_days : list string;
  day_of_slot : list nat;
}.

Definition n_slots (ix : SlotIndex) : nat := length (timestamps ix).
Definition n_days (ix : SlotIndex) : nat := length (unique_days ix).

(** [np.where(day_of_slot == day)[0]]. *)
Definition day_slots_of (ix : SlotIndex) (day : nat) : list nat :=
  List.filter (λ t, (nth t (day_of_slot ix) 0 =? day)%nat) (seq 0 (n_slots ix)).

(* ------------------------------------------------------------------------- *)
(** ** Pass 1: curtailment (lines 186-219)                                   *)
(* ------------------------------------------------------------------------- *)

Record Pass1State (G : Type) : Type := {
  p1_rng : G;
  responded_today : gmap nat bool;
  shifted_energy_today : gmap nat Q;
  p1_shifted : list Q;
  p1_shift_amount : list Q;
}.
Arguments p1_rng {G} _.
Arguments responded_today {G} _.
Arguments shifted_energy_today {G} _.
Arguments p1_shifted {G} _.
Arguments p1_shift_amount {G} _.

(** Line 180.  The sum is over the kW values of all slots of the week. *)
Definition max_daily_shift_energy_of (hh : Household) (baseline : list Q)
    (ix : SlotIndex) : Q :=
  max_shift_fraction hh * np_sum baseline / inject_Z (Z.of_nat (n_days ix)).

(** Lines 194-195: the response of the day is drawn once, at the first
    high-carbon slot of that day. *)
Definition draw_response {G} `{Generator G} (hh : Household) (day : nat)
    (responded : gmap nat bool) : Rand G (gmap nat bool) :=
  match responded !! day with
  | Some _ => rret responded
  | None => u <~ gen_random ;; rret (<[day := Qltb u (p_respond hh)]> responded)
  end.

(** One iteration of [for t in range(n_slots)].  The two assignments to
    [shifted[t]] (lines 215-216) are one write of the final value. *)
Definition pass1_step {G} `{Generator G} (ix : SlotIndex) (hh : Household)
    (baseline flex_available : list Q) (max_daily_shift_energy : Q)
    (st : Pass1State G) (t : nat) : Pass1State G :=
  let day := nth t (day_of_slot ix) 0%nat in
  let intensity := at_ (intensities ix) t in
  if Qltb intensity HIGH_THRESHOLD then st else
  let '(responded, g) := draw_response hh day (responded_today st) (p1_rng st) in
  if negb (default false (responded !! day)) then
    {| p1_rng := g; responded_today := responded;
       shifted_energy_today := shifted_energy_today st;
       p1_shifted := p1_shifted st; p1_shift_amount := p1_shift_amount st |}
  else
  let energy :=
    match shifted_energy_today st !! day with
    | Some _ => shifted_energy_today st
    | None => <[day := 0]> (shifted_energy_today st)
    end in
  let skip :=
    {| p1_rng := g; responded_today := responded;
       shifted_energy_today := energy;
       p1_shifted := p1_shifted st; p1_shift_amount := p1_shift_amount st |} in
  let so_far := default 0 (energy !! day) in
  let hours_so_far := so_far / py_max (peak_demand_kw hh) 0.1 in
  if Qleb (max_shift_hours hh) hours_so_far then skip else
  if Qleb max_daily_shift_energy so_far then skip else
  let remaining_energy := max_daily_shift_energy - so_far in
  let curtail := py_min (at_ flex_available t) (remaining_energy / 0.5) in
  let new_shifted := py_max (at_ (p1_shifted st) t - curtail) 0.05 in
  let actual_curtail := at_ baseline t - new_shifted in
  {| p1_rng := g; responded_today := responded;
     shifted_energy_today := <[day := so_far + actual_curtail * 0.5]> energy;
     p1_shifted := <[t := new_shifted]> (p1_shifted st);
     p1_shift_amount := <[t := actual_curtail]> (p1_shift_amount st) |}.

(** Lines 165, 179, 182, 183: the state before the first slot. *)
Definition pass1_init {G} (g : G) (n : nat) (baseline : list Q) : Pass1State G :=
  {| p1_rng := g; responded_today := ∅; shifted_energy_today := ∅;
     p1_shifted := baseline;
     p1_shift_amount := repeat 0 n |}.

Definition pass1 {G} `{Generator G} (ix : SlotIndex) (hh : Household)
    (baseline flex_available : list Q) (max_daily_shift_energy : Q) (g : G)
    : Pass1State G :=
  fold_left (pass1_step ix hh baseline flex_available max_daily_shift_energy)
            (seq 0 (n_slots ix)) (pass1_init g (n_slots ix) baseline).

(* ------------------------------------------------------------------------- *)
(** ** Pass 2: reallocation (lines 222-251)                                  *)
(* ------------------------------------------------------------------------- *)

(** Line 239: [(h < 6) or (10 <= h < 14)] with [h = slot_hod[t] / 2.0]. *)
Definition preferred (ix : SlotIndex) (t : nat) : bool :=
  let h := inject_Z (Z.of_nat (nth t (slot_hod ix) 0%nat)) / 2 in
  Qltb h 6 || (Qleb 10 h && Qltb h 14).

(** Line 233: below the median intensity of the day. *)
Definition low_carbon (ix : SlotIndex) (day_slots : list nat) (t : nat) : bool :=
  Qltb (at_ (intensities ix) t)
       (np_median (map (at_ (intensities ix)) day_slots)).

(** Lines 242-246: the preferred low-carbon slots, else all low-carbon slots,
    else the first six slots of the day. *)
Definition target_slots_of (ix : SlotIndex) (day : nat) : list nat :=
  let day_slots := day_slots_of ix day in
  let pref_low := List.filter (λ t, preferred ix t && low_carbon ix day_slots t) day_slots in
  if (length pref_low =? 0)%nat then
    let low := List.filter (low_carbon ix day_slots) day_slots in
    if (length low =? 0)%nat then firstn 6 day_slots else low
  else pref_low.

(** Line 225. *)
Definition curtailed_kwh_of (ix : SlotIndex) (shift_amount : list Q) (day : nat) : Q :=
  np_sum (map (at_ shift_amount) (day_slots_of ix day)) * 0.5.

(** Line 249. *)
Definition add_per_slot_of (curtailed_kwh : Q) (target_slots : list nat) : Q :=
  curtailed_kwh / (inject_Z (Z.of_nat (length target_slots)) * 0.5).

(** Lines 250-251: [for t in target_slots: shifted[t] += add_per_slot]. *)
Definition add_to_slots (add_per_slot : Q) (target_slots : list nat)
    (shifted : list Q) : list Q :=
  fold_left (λ sh t, <[t := at_ sh t + add_per_slot]> sh) target_slots shifted.

(** One iteration of [for day in range(len(unique_days))]. *)
Definition pass2_day (ix : SlotIndex) (shift_amount : list Q)
    (shifted : list Q) (day : nat) : list Q :=
  let curtailed_kwh := curtailed_kwh_of ix shift_amount day in
  if Qleb curtailed_kwh 0 then shifted else
  let target_slots := target_slots_of ix day in
  add_to_slots (add_per_slot_of curtailed_kwh target_slots) target_slots shifted.

Definition pass2 (ix : SlotIndex) (shift_amount shifted : list Q) : list Q :=
  fold_left (pass2_day ix shift_amount) (seq 0 (n_days ix)) shifted.

(* ------------------------------------------------------------------------- *)
(** ** Per-household time series (lines 167-253)                             *)
(* ------------------------------------------------------------------------- *)

Record Series : Type := {
  baseline : list Q;
  shifted : list Q;
  shift_amount : list Q;
}.

(** Lines 170-172: [np.clip(DUCK_CURVE[slot_hod] * pk * noise, 0.05, None)]
    with [noise = 1.0 + rng.normal(0, 0.05, size=n_slots)]. *)
Definition baseline_of (ix : SlotIndex) (hh : Household) (draws : list Q) : list Q :=
  zip_with (λ hod d, py_max (DUCK_CURVE hod * peak_demand_kw hh * (1.0 + d)) 0.05)
           (slot_hod ix) draws.

(** Line 176. *)
Definition flex_available_of (ix : SlotIndex) (baseline : list Q) : list Q :=
  zip_with (λ b hod, b * FLEX_PROFILE hod) baseline (slot_hod ix).

(** The body of [for hi, hh in enumerate(households)]. *)
Definition household_series {G} `{Generator G} (ix : SlotIndex) (hh : Household)
    : Rand G Series :=
  draws <~ gen_normal_vec 0 0.05 (n_slots ix) ;;
  let baseline := baseline_of ix hh draws in
  let flex_available := flex_available_of ix baseline in
  let max_daily_shift_energy := max_daily_shift_energy_of hh baseline ix in
  λ g,
    let st := pass1 ix hh baseline flex_available max_daily_shift_energy g in
    ({| baseline := baseline;
        shifted := pass2 ix (p1_shift_amount st) (p1_shifted st);
        shift_amount := p1_shift_amount st |}, p1_rng st).

(** Lines 167-253: all households, in order, threading the generator. *)
Definition all_series {G} `{Generator G} (ix : SlotIndex)
    (households : list Household) : Rand G (list Series) :=
  rmapM (household_series ix) households.

(* ------------------------------------------------------------------------- *)
(** ** Community aggregates and rewards (lines 256-282)                      *)
(* ------------------------------------------------------------------------- *)

(** [np.sum(rows, axis=0)] for rows of length [n]. *)
Definition sum_axis0 (n : nat) (rows : list (list Q)) : list Q :=
  map (λ t, np_sum (map (λ row, at_ row t) rows)) (seq 0 n).

(** [a[hi, t]]. *)
Definition at2 (rows : list (list Q)) (hi t : nat) : Q := at_ (nth hi rows []) t.

Record Rewards : Type := {
  hh_rewards : list Q;
  hh_total_shifted_kwh : list Q;
  hh_carbon_avoided : list Q;
}.

(** Lines 276-282: [for hi in range(N_HOUSEHOLDS)] at slot [t]. *)
Definition reward_household (shift_amount_all : list (list Q)) (t : nat) (delta : Q)
    (r : Rewards) (hi : nat) : Rewards :=
  let shifted_kw := at2 shift_amount_all hi t in
  if Qltb 0 shifted_kw then
    let shifted_kwh := shifted_kw * 0.5 in
    {| hh_total_shifted_kwh :=
         <[hi := at_ (hh_total_shifted_kwh r) hi + shifted_kwh]> (hh_total_shifted_kwh r);
       hh_carbon_avoided :=
         <[hi := at_ (hh_carbon_avoided r) hi + shifted_kwh * delta]> (hh_carbon_avoided r);
       hh_rewards :=
         <[hi := at_ (hh_rewards r) hi + shifted_kwh * delta / 1000]> (hh_rewards r) |}
  else r.

(** Lines 272-282: [for t in day_slots]. *)
Definition reward_slot (ix : SlotIndex) (shift_amount_all : list (list Q))
    (day_low : Q) (r : Rewards) (t : nat) : Rewards :=
  if Qltb (at_ (intensities ix) t) HIGH_THRESHOLD then r else
  let delta := at_ (intensities ix) t - day_low in
  fold_left (reward_household shift_amount_all t delta) (seq 0 N_HOUSEHOLDS) r.

(** Lines 267-282: [for day in range(len(unique_days))]. *)
Definition reward_day (ix : SlotIndex) (shift_amount_all : list (list Q))
    (r : Rewards) (day : nat) : Rewards :=
  let day_slots := day_slots_of ix day in
  let day_low :=
    if (0 <? length day_slots)%nat
    then np_min (map (at_ (intensities ix)) day_slots) else 0 in
  fold_left (reward_slot ix shift_amount_all day_low) day_slots r.

Definition compute_rewards (ix : SlotIndex) (shift_amount_all : list (list Q)) : Rewards :=
  fold_left (reward_day ix shift_amount_all) (seq 0 (n_days ix))
    {| hh_rewards := repeat 0 N_HOUSEHOLDS;
       hh_total_shifted_kwh := repeat 0 N_HOUSEHOLDS;
       hh_carbon_avoided := repeat 0 N_HOUSEHOLDS |}.

(* ------------------------------------------------------------------------- *)
(** ** Slot events (lines 285-315)                                           *)
(* ------------------------------------------------------------------------- *)

Record Participant : Type := {
  part_id : string;   (* "id" *)
  shifted_kw : Q;
}.

Record SlotEvent : Type := {
  ev_from : string;   (* "from" *)
  ev_to : string;     (* "to" *)
  intensity_actual : Z;
  flex_requested : bool;
  participants : list Participant;
  aggregate_shifted_kw : Q;
}.

(** The record [households[hi]] of an index the program keeps in range. *)
Definition household_at (households : list Household) (hi : nat) : Household :=
  nth hi households
      {| hh_id := ""; peak_demand_kw := 0; max_shift_fraction := 0;
         max_shift_hours := 0; p_respond := 0; flex_assets := "" |}.

(** Lines 303-309: household [hi] at slot [t], on the participant list and
    the running aggregate. *)
Definition participant_step (households : list Household)
    (shift_amount_all : list (list Q)) (t : nat)
    (acc : list Participant * Q) (hi : nat) : list Participant * Q :=
  let sk := at2 shift_amount_all hi t in
  if Qltb 0.001 sk then
    (acc.1 ++ [{| part_id := hh_id (household_at households hi);
                  shifted_kw := py_round sk 3 |}],
     acc.2 + sk)
  else acc.

(** Lines 302-309: [for hi in range(N_HOUSEHOLDS)]. *)
Definition slot_participants (households : list Household)
    (shift_amount_all : list (list Q)) (t : nat) : list Participant * Q :=
  fold_left (participant_step households shift_amount_all t)
            (seq 0 N_HOUSEHOLDS) ([], 0.0).

(** Lines 289-315: the record of slot [t]. *)
Definition slot_event (carbon : list CarbonSlot) (ix : SlotIndex)
    (households : list Household) (shift_amount_all : list (list Q))
    (t : nat) : SlotEvent :=
  let actual := py_int (at_ (intensities ix) t) in
  let is_high := (150 <=? actual)%Z in
  let c := nth t carbon {| from_ := ""; to_ := "";
                           intensity := {| forecast := Absent; actual := Absent |} |} in
  if is_high then
    let '(ps, agg) := slot_participants households shift_amount_all t in
    {| ev_from := from_ c; ev_to := to_ c; intensity_actual := actual;
       flex_requested := is_high; participants := ps;
       aggregate_shifted_kw := py_round agg 3 |}
  else
    {| ev_from := from_ c; ev_to := to_ c; intensity_actual := actual;
       flex_requested := is_high; participants := [];
       aggregate_shifted_kw := 0.0 |}.

Definition flex_events_of (carbon : list CarbonSlot) (ix : SlotIndex)
    (households : list Household) (shift_amount_all : list (list Q)) : list SlotEvent :=
  map (slot_event carbon ix households shift_amount_all) (seq 0 (n_slots ix)).

(** Line 313, accumulated over the slots. *)
Definition total_shifted_kwh_global_of (events : list SlotEvent) : Q :=
  fold_left (λ acc e, if flex_requested e then acc + aggregate_shifted_kw e * 0.5 else acc)
            events 0.0.

(* ------------------------------------------------------------------------- *)
(** ** Summary and returned value (lines 317-361)                            *)
(* ------------------------------------------------------------------------- *)

(** Line 320. *)
Definition peak_reduction_pct_of (peak_baseline peak_shifted : Q) : Q :=
  if Qltb 0 peak_baseline
  then py_round ((1 - peak_shifted / peak_baseline) * 100) 1
  else 0.

Record Summary : Type := {
  n_households : nat;
  total_slots : nat;
  high_carbon_slots : nat;
  total_shifted_kwh : Q;
  avg_participants_per_event : Q;
  peak_demand_reduction_pct : Q;
  total_carbon_avoided_gCO2 : Q;
  total_tokens_issued : Q;
  peak_baseline_kw : Q;
  peak_shifted_kw : Q;
}.

(** An entry of ["households"] in the returned value: the parameters and
    the rounded totals. *)
Record HouseholdOut : Type := {
  out_params : Household;
  out_total_shifted_kwh : Q;
  carbon_avoided_gCO2 : Q;
  tokens_earned : Q;
}.

Record FlexOutput : Type := {
  summary : Summary;
  households : list HouseholdOut;
  events : list SlotEvent;
}.

(** Lines 326-328: [np.mean] of the participant counts, 0 without events. *)
Definition avg_participants_of (high_slots : list SlotEvent) : Q :=
  match high_slots with
  | [] => 0
  | _ => np_sum (map (λ e, inject_Z (Z.of_nat (length (participants e)))) high_slots)
         / inject_Z (Z.of_nat (length high_slots))
  end.

Definition summary_of (ix : SlotIndex) (series : list Series) (r : Rewards)
    (flex_events : list SlotEvent) : Summary :=
  let agg_baseline := sum_axis0 (n_slots ix) (map baseline series) in
  let agg_shifted := sum_axis0 (n_slots ix) (map shifted series) in
  let peak_baseline := np_max agg_baseline in
  let peak_shifted := np_max agg_shifted in
  let high_slots := List.filter flex_requested flex_events in
  {| n_households := N_HOUSEHOLDS;
     total_slots := n_slots ix;
     high_carbon_slots := length high_slots;
     total_shifted_kwh := py_round (total_shifted_kwh_global_of flex_events) 2;
     avg_participants_per_event := py_round (avg_participants_of high_slots) 1;
     peak_demand_reduction_pct := peak_reduction_pct_of peak_baseline peak_shifted;
     total_carbon_avoided_gCO2 := py_round (np_sum (hh_carbon_avoided r)) 0;
     total_tokens_issued := py_round (np_sum (hh_rewards r)) 1;
     peak_baseline_kw := py_round peak_baseline 1;
     peak_shifted_kw := py_round peak_shifted 1 |}.

Definition households_out (hhs : list Household) (r : Rewards) : list HouseholdOut :=
  imap (λ i hh,
          {| out_params := hh;
             out_total_shifted_kwh := py_round (at_ (hh_total_shifted_kwh r) i) 2;
             carbon_avoided_gCO2 := py_round (at_ (hh_carbon_avoided r) i) 0;
             tokens_earned := py_round (at_ (hh_rewards r) i) 1 |}) hhs.

(* ------------------------------------------------------------------------- *)
(** ** simulate()                                                            *)
(* ------------------------------------------------------------------------- *)

(** Lines 117-125 for one slot: the half-hour-of-day index and the intensity
    the engine uses. *)
Definition parse_slot (s : CarbonSlot) : Outcome (nat * option Q) :=
  obind (strptime (from_ s)) (λ dt, Ok (hod_idx dt, slot_intensity s)).

(** [np.array(intensities, dtype=float)] has a nan wherever the list has
    [None]; this is [Some] of the array when it has none. *)
Fixpoint all_finite (l : list (option Q)) : option (list Q) :=
  match l with
  | [] => Some []
  | x :: r => v ← x; vs ← all_finite r; Some (v :: vs)
  end.

(** Lines 111-136, with the two ways the run raises later on no matter what
    the generator draws.  On an empty file [slot_hod] is the float-typed empty
    array and [DUCK_CURVE[slot_hod]] (line 171) raises [IndexError].  With a
    nan intensity [int(intensities[t])] (line 289) raises [ValueError]; the
    program has produced no output by then, so nan takes no part in the
    arithmetic modelled below. *)
Definition build_index (iter : gset string → list string)
    (carbon : list CarbonSlot) : Outcome SlotIndex :=
  obind (omapM parse_slot carbon) (λ rows,
    let day_ids := map (λ s, day_id (from_ s)) carbon in
    let days := unique_days_with iter day_ids in
    match carbon with
    | [] => Raise IndexError
    | _ :: _ =>
        match all_finite (map snd rows) with
        | None => Raise ValueError
        | Some ints =>
            Ok {| timestamps := map from_ carbon;
                  slot_hod := map fst rows;
                  intensities := ints;
                  unique_days := days;
                  day_of_slot := day_of_slot_of days day_ids |}
        end
    end).

(** What a run computes: the household records, their time series, the
    reward arrays and the returned [flex_output]. *)
Record Run : Type := {
  run_index : SlotIndex;
  run_households : list Household;
  run_series : list Series;
  run_rewards : Rewards;
  flex_output : FlexOutput;
}.

Definition run_simulation {G} `{Generator G} (carbon : list CarbonSlot)
    (ix : SlotIndex) : Run :=
  let '(hhs, g1) := gen_households (default_rng SEED) in
  let '(series, _) := all_series ix hhs g1 in
  let shift_amount_all := map shift_amount series in
  let r := compute_rewards ix shift_amount_all in
  let flex_events := flex_events_of carbon ix hhs shift_amount_all in
  {| run_index := ix;
     run_households := hhs;
     run_series := series;
     run_rewards := r;
     flex_output :=
       {| summary := summary_of ix series r flex_events;
          households := households_out hhs r;
          events := flex_events |} |}.

(** [simulate()] on the parsed content [carbon] of carbon_week.json, with the
    set iteration order [iter]. *)
Definition simulate_with {G} `{Generator G} (iter : gset string → list string)
    (carbon : list CarbonSlot) : Outcome Run :=
  obind (build_index iter carbon) (λ ix, Ok (run_simulation carbon ix)).

Definition simulate {G} `{Generator G} (carbon : list CarbonSlot) : Outcome Run :=
  simulate_with elements carbon.

(* ------------------------------------------------------------------------- *)
(** ** A scripted generator                                                  *)
(* ------------------------------------------------------------------------- *)

(** A generator that replays a fixed tape of draws (and 0 once the tape is
    used up), for evaluating the simulation on concrete runs. *)
Definition tape_pop (g : list Q) : Q * list Q :=
  match g with [] => (0, []) | x :: r => (x, r) end.

Definition TapeGen (tape : list Q) : Generator (list Q) :=
  {| default_rng := λ _, tape;
     gen_normal := λ _ _, tape_pop;
     gen_uniform := λ _ _, tape_pop;
     gen_random := tape_pop;
     gen_choice := λ _ g, let '(x, r) := tape_pop g in (Z.to_nat (Qfloor x), r) |}.

(** A slot with both intensity keys set to numbers. *)
Definition mk_slot (ts : string) (fc ac : Q) : CarbonSlot :=
  {| from_ := ts; to_ := ts;
     intensity := {| forecast := JNum fc; actual := JNum ac |} |}.

(* ------------------------------------------------------------------------- *)
(** ** Vocabulary of the properties                                         *)
(* ------------------------------------------------------------------------- *)

(** [np.sum(a[slots])]. *)
Definition sum_at (l : list Q) (slots : list nat) : Q := np_sum (map (at_ l) slots).

(** What holds of slot [t] whatever part of the loop has run. *)
Definition SlotInv (ix : SlotIndex) (bl fa sh sa : list Q) (t : nat) : Prop :=
  at_ sh t == at_ bl t - at_ sa t
  ∧ 0 <= at_ sa t
  ∧ at_ sa t <= at_ fa t
  ∧ ((t < n_slots ix)%nat → 0.05 <= at_ sh t)
  ∧ (Qltb (at_ (intensities ix) t) HIGH_THRESHOLD = true → at_ sa t = 0).

(** The loop invariant before slot [k]. *)
Definition Pass1Inv {G} (ix : SlotIndex) (bl fa : list Q) (k : nat)
    (st : Pass1State G) : Prop :=
  length (p1_shifted st) = n_slots ix
  ∧ length (p1_shift_amount st) = n_slots ix
  ∧ (∀ t, (k ≤ t)%nat → at_ (p1_shifted st) t = at_ bl t)
  ∧ (∀ t, SlotInv ix bl fa (p1_shifted st) (p1_shift_amount st) t).

(** What Pass 2 adds to the slots of day [d], in kW: nothing when the day
    has no curtailed energy, else all of it. *)
Definition day_gain (ix : SlotIndex) (sa : list Q) (d : nat) : Q :=
  if Qleb (curtailed_kwh_of ix sa d) 0 then 0 else sum_at sa (day_slots_of ix d).

(** The facts about one household's series that the properties below rest
    on. *)
Record SeriesOK (ix : SlotIndex) (s : Series) : Prop := {
  ok_len_baseline : length (baseline s) = n_slots ix;
  ok_len_shifted : length (shifted s) = n_slots ix;
  ok_len_shift_amount : length (shift_amount s) = n_slots ix;
  ok_baseline_floor : ∀ t, (t < n_slots ix)%nat → 0.05 <= at_ (baseline s) t;
  ok_shifted_floor : ∀ t, (t < n_slots ix)%nat → 0.05 <= at_ (shifted s) t;
  ok_curtail_nonneg : ∀ t, 0 <= at_ (shift_amount s) t;
  ok_curtail_flex : ∀ t,
    at_ (shift_amount s) t
    <= at_ (baseline s) t * FLEX_PROFILE (nth t (slot_hod ix) 0%nat);
  ok_curtail_high : ∀ t,
    Qltb (at_ (intensities ix) t) HIGH_THRESHOLD = true → at_ (shift_amount s) t = 0;
  ok_conserved : ∀ d, (d < n_days ix)%nat →
    sum_at (shifted s) (day_slots_of ix d) == sum_at (baseline s) (day_slots_of ix d);
}.

(** The index of a run that did not raise: the file is not empty, every
    array has one entry per slot, and the intensities are the values line 124
    picks. *)
Record IndexOf (carbon : list CarbonSlot) (ix : SlotIndex) : Prop := {
  ix_nonempty : carbon ≠ [];
  ix_n_slots : n_slots ix = length carbon;
  ix_len_hod : length (slot_hod ix) = n_slots ix;
  ix_len_intensities : length (intensities ix) = n_slots ix;
  ix_intensities : map slot_intensity carbon = map Some (intensities ix);
  ix_hod : Forall2 (λ s h, ∃ dt, strptime (from_ s) = Ok dt ∧ h = hod_idx dt)
                   carbon (slot_hod ix);
}.

Definition str_le (a b : string) : Prop := str_leb a b = true.

(** [sum(a[t] * 0.5)] over the slots of a day, in kWh. *)
Definition day_energy (ix : SlotIndex) (l : list Q) (day : nat) : Q :=
  np_sum (map (λ t, at_ l t * 0.5) (day_slots_of ix day)).

Definition AllLow (ix : SlotIndex) : Prop :=
  ∀ t, (t < n_slots ix)%nat → Qltb (at_ (intensities ix) t) HIGH_THRESHOLD = true.

(** The household's baseline energy over the week, in kWh: each slot lasts
    half an hour. *)
Definition total_week_baseline_kwh (baseline : list Q) : Q :=
  np_sum (map (λ b, b * 0.5) baseline).

(* ------------------------------------------------------------------------- *)
(** ** Concrete runs                                                        *)
(* ------------------------------------------------------------------------- *)

(** One day of four half-hour slots with intensities 100, 200, 200, 50. *)
Definition demo_carbon : list CarbonSlot :=
  [mk_slot "2026-01-31T00:00Z" 100 100; mk_slot "2026-01-31T00:30Z" 200 200;
   mk_slot "2026-01-31T01:00Z" 200 200; mk_slot "2026-01-31T01:30Z" 50 50].

(** Draws: every household gets peak 1.0 kW, shift fraction 0.3, 4 hours,
    response probability 1.0 and the first asset label; then, per household,
    four noise draws of 0 and a response draw of 0. *)
Definition demo_tape : list Q :=
  concat (repeat [1.0; 0.3; 4; 1.0; 0] 25) ++ concat (repeat [0; 0; 0; 0; 0] 25).

Definition demo_index : SlotIndex :=
  {| timestamps := map from_ demo_carbon;
     slot_hod := [0; 1; 2; 3]%nat;
     intensities := [100; 200; 200; 50];
     unique_days := ["2026-01-31"%string];
     day_of_slot := [0; 0; 0; 0]%nat |}.

Definition demo_run : Run :=
  @run_simulation (list Q) (TapeGen demo_tape) demo_carbon demo_index.

Definition empty_series : Series :=
  {| baseline := []; shifted := []; shift_amount := [] |}.

Definition demo_series : Series := nth 0 (run_series demo_run) empty_series.

(** One day of two slots, both below the threshold. *)
Definition calm_carbon : list CarbonSlot :=
  [mk_slot "2026-01-31T00:00Z" 100 100; mk_slot "2026-01-31T00:30Z" 120 120].

Definition calm_index : SlotIndex :=
  {| timestamps := map from_ calm_carbon;
     slot_hod := [0; 1]%nat;
     intensities := [100; 120];
     unique_days := ["2026-01-31"%string];
     day_of_slot := [0; 0]%nat |}.

Definition calm_run : Run :=
  @run_simulation (list Q) (TapeGen demo_tape) calm_carbon calm_index.

Definition demo_event : SlotEvent :=
  slot_event demo_carbon demo_index (run_households demo_run)
             (map shift_amount (run_series demo_run)) 1.








(** A slot measured at 0 gCO2/kWh with a forecast of 200. *)
Definition zero_actual_carbon : list CarbonSlot :=
  [mk_slot "2026-01-31T00:00Z" 200 0].

Definition zero_actual_index : SlotIndex :=
  {| timestamps := map from_ zero_actual_carbon;
     slot_hod := [0%nat];
     intensities := [200];
     unique_days := ["2026-01-31"%string];
     day_of_slot := [0%nat] |}.

Definition zero_actual_run : Run :=
  @run_simulation (list Q) (TapeGen demo_tape) zero_actual_carbon zero_actual_index.

(* ------------------------------------------------------------------------- *)
(** ** fetch_carbon.py: timestamps of the request window                     *)
(* ------------------------------------------------------------------------- *)

(** A [datetime] with the fields below the minute ([tzinfo] is UTC
    throughout). *)
Record Timestamp : Set := {
  ts_dt : DateTime;
  ts_second : nat;
  ts_microsecond : nat;
}.

(** [round_down_half_hour(dt)], fetch_carbon.py lines 27-30. *)
Definition round_down_half_hour (t : Timestamp) : Timestamp :=
  let minute := if (dt_minute (ts_dt t) <? 30)%nat then 0%nat else 30%nat in
  {| ts_dt := {| dt_year := dt_year (ts_dt t); dt_month := dt_month (ts_dt t);
                 dt_day := dt_day (ts_dt t); dt_hour := dt_hour (ts_dt t);
                 dt_minute := minute |};
     ts_second := 0;
     ts_microsecond := 0 |}.

(** Whole seconds since midnight. *)
Definition seconds_of_day (t : Timestamp) : nat :=
  ((dt_hour (ts_dt t) * 60 + dt_minute (ts_dt t)) * 60 + ts_second t)%nat.

Definition digit_char (n : nat) : ascii := ascii_of_nat (48 + n).

(** [%m], [%d], [%H], [%M]: two digits, zero-padded. *)
Definition fmt2 (n : nat) : list ascii :=
  [digit_char (n / 10); digit_char (n mod 10)].

(** [%Y] for a year of four digits (for a year below 1000 the platform's
    strftime writes fewer digits, which this does not model). *)
Definition fmt4 (n : nat) : list ascii := fmt2 (n / 100) ++ fmt2 (n mod 100).

(** [dt.strftime("%Y-%m-%dT%H:%MZ")], fetch_carbon.py lines 39-40. *)
Definition strftime_iso (dt : DateTime) : string :=
  string_of_list_ascii
    (fmt4 (dt_year dt) ++ ["-"%char] ++ fmt2 (dt_month dt) ++ ["-"%char]
     ++ fmt2 (dt_day dt) ++ ["T"%char] ++ fmt2 (dt_hour dt) ++ [":"%char]
     ++ fmt2 (dt_minute dt) ++ ["Z"%char]).

(** Further facts about one household's series: what Pass 2 does slot by
    slot. *)
Record SeriesRealloc (ix : SlotIndex) (s : Series) : Prop := {
  re_not_lowered : ∀ t,
    at_ (baseline s) t - at_ (shift_amount s) t <= at_ (shifted s) t;
  re_frame : ∀ t,
    (∀ d, (d < n_days ix)%nat → t ∉ target_slots_of ix d) →
    at_ (shifted s) t == at_ (baseline s) t - at_ (shift_amount s) t;
  re_even : ∀ d t,
    (d < n_days ix)%nat → t ∈ target_slots_of ix d →
    0 < curtailed_kwh_of ix (shift_amount s) d →
    at_ (shifted s) t
    == at_ (baseline s) t - at_ (shift_amount s) t
       + add_per_slot_of (curtailed_kwh_of ix (shift_amount s) d)
                         (target_slots_of ix d);
}.

Definition demo_household : Household := household_at (run_households demo_run) 0.

(** What the reward loop keeps true of its three arrays: one entry per
    household, carbon avoided (gCO2) is 1000 times the tokens, and nothing is
    negative. *)
Definition RewardsInv (r : Rewards) : Prop :=
  length (hh_rewards r) = N_HOUSEHOLDS
  ∧ length (hh_total_shifted_kwh r) = N_HOUSEHOLDS
  ∧ length (hh_carbon_avoided r) = N_HOUSEHOLDS
  ∧ ∀ hi, at_ (hh_carbon_avoided r) hi == 1000 * at_ (hh_rewards r) hi
          ∧ 0 <= at_ (hh_rewards r) hi
          ∧ 0 <= at_ (hh_total_shifted_kwh r) hi.

Definition demo_household_out : HouseholdOut :=
  {| out_params := demo_household;
     out_total_shifted_kwh := py_round (at_ (hh_total_shifted_kwh (run_rewards demo_run)) 0) 2;
     carbon_avoided_gCO2 := py_round (at_ (hh_carbon_avoided (run_rewards demo_run)) 0) 0;
     tokens_earned := py_round (at_ (hh_rewards (run_rewards demo_run)) 0) 1 |}.

(** What slot [t] adds to household [k]'s [hh_total_shifted_kwh] (lines
    273-280): nothing at a slot below the threshold or without a positive
    curtailment, else the curtailed energy. *)
Definition slot_shifted_kwh (ix : SlotIndex) (saa : list (list Q)) (k t : nat) : Q :=
  if Qltb (at_ (intensities ix) t) HIGH_THRESHOLD then 0
  else if Qltb 0 (at2 saa k t) then at2 saa k t * 0.5 else 0.

(** Lines 383-386, written to households.json: the share of a household's
    weekly baseline energy that was shifted, in percent. *)
Definition pct_demand_shifted_of (total_shifted_kwh_hi : Q) (baseline_hi : list Q) : Q :=
  py_round (if Qltb 0 (np_sum baseline_hi)
            then total_shifted_kwh_hi / (np_sum baseline_hi * 0.5) * 100
            else 0) 1.

(* ------------------------------------------------------------------------- *)
(** ** aggregates.csv (lines 397-411)                                        *)
(* ------------------------------------------------------------------------- *)

(** A data row of aggregates.csv, by column. *)
Record AggregateRow : Type := {
  csv_timestamp : string;
  csv_intensity_gCO2 : Z;
  csv_baseline_kw : Q;
  csv_shifted_kw : Q;
  csv_curtailed_kw : Q;
  csv_is_high_carbon : Z;
}.

(** Lines 256-258. *)
Definition agg_baseline_of (ix : SlotIndex) (series : list Series) : list Q :=
  sum_axis0 (n_slots ix) (map baseline series).
Definition agg_shifted_of (ix : SlotIndex) (series : list Series) : list Q :=
  sum_axis0 (n_slots ix) (map shifted series).
Definition agg_shift_amount_of (ix : SlotIndex) (series : list Series) : list Q :=
  sum_axis0 (n_slots ix) (map shift_amount series).

(** Lines 404-411: the row of slot [t]. *)
Definition aggregate_row (ix : SlotIndex) (series : list Series) (t : nat) : AggregateRow :=
  {| csv_timestamp := nth t (timestamps ix) ""%string;
     csv_intensity_gCO2 := py_int (at_ (intensities ix) t);
     csv_baseline_kw := py_round (at_ (agg_baseline_of ix series) t) 2;
     csv_shifted_kw := py_round (at_ (agg_shifted_of ix series) t) 2;
     csv_curtailed_kw := py_round (at_ (agg_shift_amount_of ix series) t) 2;
     csv_is_high_carbon :=
       if Qleb HIGH_THRESHOLD (at_ (intensities ix) t) then 1%Z else 0%Z |}.

(** Lines 403-411: [for t in range(n_slots)], written from the arrays of the
    run. *)
Definition aggregates_csv (r : Run) : list AggregateRow :=
  map (aggregate_row (run_index r) (run_series r)) (seq 0 (n_slots (run_index r))).

Definition demo_row : AggregateRow :=
  aggregate_row (run_index demo_run) (run_series demo_run) 1.

(* ------------------------------------------------------------------------- *)
(** ** fetch_carbon.py: fetch_carbon_week (lines 33-84)                      *)
(* ------------------------------------------------------------------------- *)

(** A JSON object, the [dict] with string keys that [json] gives, is a
    [gmap string V] over any type [V] of JSON values. *)

(** What lines 46-51 come to.  [ApiRaised]: [requests.get],
    [raise_for_status] or [resp.json] raised.  [ApiData data]: the array
    [payload.get("data", [])], empty when the payload has no ["data"] key;
    its items are JSON objects. *)
Inductive ApiResult (V : Type) : Type :=
  | ApiRaised
  | ApiData (data : list (gmap string V)).
Arguments ApiRaised {V}.
Arguments ApiData {V} data.

(** [OUT_FILE] and [FALLBACK_FILE]: absent, or holding a JSON array of
    objects. *)
Record Files (V : Type) : Type := {
  out_file : option (list (gmap string V));
  fallback_file : option (list (gmap string V));
}.
Arguments out_file {V} _.
Arguments fallback_file {V} _.

(** How a call ends: it returns the data, it leaves through [sys.exit], or an
    exception raised outside the [try] block escapes. *)
Inductive FetchResult (V : Type) : Type :=
  | Returned (records : list (gmap string V))
  | SysExit (code : Z)
  | KeyError (key : string).
Arguments Returned {V} records.
Arguments SysExit {V} code.
Arguments KeyError {V} key.

(** Lines 71-75: the record built from one entry; the three subscripts are
    evaluated in this order and the first missing key raises. *)
Definition normalise_entry {V} (entry : gmap string V) : string + gmap string V :=
  match entry !! "from"%string with
  | None => inl "from"%string
  | Some f =>
      match entry !! "to"%string with
      | None => inl "to"%string
      | Some t =>
          match entry !! "intensity"%string with
          | None => inl "intensity"%string
          | Some i =>
              inr (<["from"%string := f]>
                     (<["to"%string := t]> (<["intensity"%string := i]> ∅)))
          end
      end
  end.

(** Lines 69-76: [for entry in data: records.append(...)]. *)
Fixpoint normalise {V} (data : list (gmap string V)) : string + list (gmap string V) :=
  match data with
  | [] => inr []
  | entry :: rest =>
      match normalise_entry entry with
      | inl k => inl k
      | inr rec =>
          match normalise rest with
          | inl k => inl k
          | inr recs => inr (rec :: recs)
          end
      end
  end.

(** Lines 52-64: the [except] branch. *)
Definition fetch_fallback {V} (fs : Files V) : FetchResult V * Files V :=
  match fallback_file fs with
  | Some content =>
      (Returned content, {| out_file := Some content; fallback_file := Some content |})
  | None => (SysExit 1, fs)
  end.

(** [fetch_carbon_week()] on the outcome of the request and the two files:
    how the call ends and what the files hold afterwards. *)
Definition fetch_carbon_week {V} (api : ApiResult V) (fs : Files V)
    : FetchResult V * Files V :=
  match api with
  | ApiRaised => fetch_fallback fs
  | ApiData [] => fetch_fallback fs   (* line 50: [if not data: raise ValueError] *)
  | ApiData data =>
      match normalise data with
      | inl k => (KeyError k, fs)
      | inr records =>
          (Returned records,
           {| out_file := Some records; fallback_file := Some records |})
      end
  end.

(** An API entry with a key the program drops, and a payload of one entry. *)
Definition demo_entry : gmap string string :=
  <["from"%string := "2026-01-31T14:30Z"%string]>
    (<["to"%string := "2026-01-31T15:00Z"%string]>
       (<["intensity"%string := "{forecast: 180, actual: 175}"%string]>
          (<["extra"%string := "dropped"%string]> ∅))).

Definition demo_record : gmap string string :=
  <["from"%string := "2026-01-31T14:30Z"%string]>
    (<["to"%string := "2026-01-31T15:00Z"%string]>
       (<["intensity"%string := "{forecast: 180, actual: 175}"%string]> ∅)).

Definition no_files : Files string := {| out_file := None; fallback_file := None |}.

Definition fetched_files : Files string :=
  {| out_file := Some [demo_record]; fallback_file := Some [demo_record] |}.

(* ========================================================================= *)
(** * Properties                                                             *)
(* ========================================================================= *)

(* ------------------------------------------------------------------------- *)
(** ** Comparisons, [min], [max], array reads                                *)
(* ------------------------------------------------------------------------- *)

Lemma Qltb_lt (a b : Q) : Qltb a b = true ↔ a < b.
Proof. unfold Qltb, Qlt. apply Z.ltb_lt. Qed.

Lemma Qltb_ge (a b : Q) : Qltb a b = false ↔ b <= a.
Proof. unfold Qltb, Qle. rewrite Z.ltb_ge. reflexivity. Qed.

Lemma Qleb_le (a b : Q) : Qleb a b = true ↔ a <= b.
Proof. apply Qle_bool_iff. Qed.

Lemma Qleb_gt (a b : Q) : Qleb a b = false ↔ b < a.
Proof.
  split; intros H.
  - apply Qnot_le_lt. intros Hle. apply Qleb_le in Hle. congruence.
  - destruct (Qleb a b) eqn:E; [|done]. apply Qleb_le in E. lra.
Qed.

(** Case split on every comparison of the goal, leaving the order facts as
    hypotheses. *)
Ltac cmp_cases :=
  repeat match goal with
  | |- context [Qltb ?a ?b] =>
      let E := fresh "E" in
      destruct (Qltb a b) eqn:E;
      [apply Qltb_lt in E | apply Qltb_ge in E]
  | |- context [Qleb ?a ?b] =>
      let E := fresh "E" in
      destruct (Qleb a b) eqn:E;
      [apply Qleb_le in E | apply Qleb_gt in E]
  end.

Lemma py_max_ge_l (a b : Q) : a <= py_max a b.
Proof. unfold py_max. cmp_cases; lra. Qed.

Lemma py_max_ge_r (a b : Q) : b <= py_max a b.
Proof. unfold py_max. cmp_cases; lra. Qed.

Lemma py_max_lub (a b c : Q) : a <= c → b <= c → py_max a b <= c.
Proof. unfold py_max. cmp_cases; lra. Qed.

Lemma py_min_le_l (a b : Q) : py_min a b <= a.
Proof. unfold py_min. cmp_cases; lra. Qed.

Lemma py_min_glb (a b c : Q) : c <= a → c <= b → c <= py_min a b.
Proof. unfold py_min. cmp_cases; lra. Qed.

Lemma at_insert_eq (l : list Q) (t : nat) (v : Q) :
  (t < length l)%nat → at_ (<[t := v]> l) t = v.
Proof. intros H. unfold at_. by rewrite nth_lookup, list_lookup_insert_eq. Qed.

Lemma at_insert_ne (l : list Q) (t u : nat) (v : Q) :
  t ≠ u → at_ (<[t := v]> l) u = at_ l u.
Proof. intros H. unfold at_. by rewrite !nth_lookup, list_lookup_insert_ne. Qed.

Lemma at_repeat_zero (n t : nat) : at_ (repeat 0 n) t = 0.
Proof.
  unfold at_. revert t. induction n as [|n IH]; intros [|t]; simpl; auto.
Qed.

Lemma at_ge (l : list Q) (t : nat) : (length l ≤ t)%nat → at_ l t = 0.
Proof. intros H. unfold at_. by apply nth_overflow. Qed.

(* ------------------------------------------------------------------------- *)
(** ** Sums over a set of slots                                              *)
(* ------------------------------------------------------------------------- *)

Lemma sum_at_insert_notin (l : list Q) (S : list nat) (t : nat) (v : Q) :
  t ∉ S → sum_at (<[t := v]> l) S = sum_at l S.
Proof.
  unfold sum_at. induction S as [|u S IH]; intros Hn; [done|].
  apply not_elem_of_cons in Hn as [Hne Hn]. simpl.
  rewrite at_insert_ne by done. by rewrite IH.
Qed.

Lemma sum_at_insert_in (l : list Q) (S : list nat) (t : nat) (v : Q) :
  NoDup S → t ∈ S → (t < length l)%nat →
  sum_at (<[t := v]> l) S == sum_at l S + (v - at_ l t).
Proof.
  unfold sum_at. induction S as [|u S IH]; intros Hnd Hin Hlt.
  - by apply elem_of_nil in Hin.
  - apply NoDup_cons in Hnd as [Hu Hnd]. simpl.
    destruct (decide (t = u)) as [->|Hne].
    + rewrite at_insert_eq by done.
      fold (sum_at (<[u := v]> l) S). fold (sum_at l S).
      rewrite sum_at_insert_notin by done. lra.
    + apply elem_of_cons in Hin as [?|Hin]; [done|].
      rewrite at_insert_ne by done. specialize (IH Hnd Hin Hlt). lra.
Qed.

Lemma sum_at_nonneg (l : list Q) (S : list nat) :
  (∀ t, 0 <= at_ l t) → 0 <= sum_at l S.
Proof.
  intros H. unfold sum_at. induction S as [|u S IH]; simpl; [lra|].
  specialize (H u). lra.
Qed.

Lemma sum_at_minus (l a b : list Q) (S : list nat) :
  (∀ t, t ∈ S → at_ l t == at_ a t - at_ b t) →
  sum_at l S == sum_at a S - sum_at b S.
Proof.
  unfold sum_at. induction S as [|u S IH]; intros H; simpl; [lra|].
  pose proof (H u (list_elem_of_here _ _)) as Hu.
  assert (np_sum (map (at_ l) S) == np_sum (map (at_ a) S) - np_sum (map (at_ b) S)) as IH'.
  { apply IH. intros t Ht. apply H. by apply list_elem_of_further. }
  lra.
Qed.

(* ------------------------------------------------------------------------- *)
(** ** Pass 1                                                                *)
(* ------------------------------------------------------------------------- *)

(** A slot either leaves both arrays alone, or it is a high-carbon slot and
    writes the floored difference with a curtailment capped by a positive
    remaining budget [r] (in kW). *)
Lemma pass1_step_cases {G} `{Generator G} ix hh bl fa md (st : Pass1State G) t :
  let st' := pass1_step ix hh bl fa md st t in
  (p1_shifted st' = p1_shifted st ∧ p1_shift_amount st' = p1_shift_amount st)
  ∨ (∃ r, 0 < r
        ∧ Qltb (at_ (intensities ix) t) HIGH_THRESHOLD = false
        ∧ p1_shifted st'
          = <[t := py_max (at_ (p1_shifted st) t - py_min (at_ fa t) r) 0.05]> (p1_shifted st)
        ∧ p1_shift_amount st'
          = <[t := at_ bl t - py_max (at_ (p1_shifted st) t - py_min (at_ fa t) r) 0.05]>
              (p1_shift_amount st)).
Proof.
  unfold pass1_step.
  destruct (Qltb (at_ (intensities ix) t) HIGH_THRESHOLD) eqn:Ehigh; [by left|].
  destruct (draw_response _ _ _ _) as [responded g].
  destruct (negb _); [by left|].
  destruct (Qleb (max_shift_hours hh) _); [by left|].
  destruct (Qleb md _) eqn:Ebudget; [by left|].
  apply Qleb_gt in Ebudget. right.
  eexists. split; [|split; [reflexivity|split; reflexivity]].
  simpl. apply Qlt_shift_div_l; lra.
Qed.

Section Pass1.
Context {G : Type} `{Generator G}.
Variables (ix : SlotIndex) (hh : Household) (bl fa : list Q) (md : Q).
Hypothesis bl_length : length bl = n_slots ix.
Hypothesis bl_floor : ∀ t, (t < n_slots ix)%nat → 0.05 <= at_ bl t.
Hypothesis fa_nonneg : ∀ t, 0 <= at_ fa t.

Lemma pass1_init_inv (g : G) : Pass1Inv ix bl fa 0 (pass1_init g (n_slots ix) bl).
Proof.
  unfold Pass1Inv, SlotInv, pass1_init; simpl.
  rewrite repeat_length. repeat split; auto.
  all: rewrite ?at_repeat_zero; auto; lra.
Qed.

Lemma pass1_step_inv (k : nat) (st : Pass1State G) :
  (k < n_slots ix)%nat → Pass1Inv ix bl fa k st →
  Pass1Inv ix bl fa (S k) (pass1_step ix hh bl fa md st k).
Proof.
  intros Hk (Hl1 & Hl2 & Hfresh & Hslots).
  destruct (pass1_step_cases ix hh bl fa md st k) as [[E1 E2]|(r & Hr & Ehigh & E1 & E2)];
    unfold Pass1Inv; rewrite E1, E2.
  - refine (conj Hl1 (conj Hl2 (conj _ Hslots))).
    intros t Ht. apply Hfresh. lia.
  - rewrite !length_insert. refine (conj Hl1 (conj Hl2 (conj _ _))).
    + intros t Ht. rewrite at_insert_ne by lia. apply Hfresh. lia.
    + intros t. unfold SlotInv. destruct (decide (t = k)) as [->|Hne].
      * rewrite !at_insert_eq by lia. rewrite (Hfresh k) by lia.
        pose proof (bl_floor k Hk). pose proof (fa_nonneg k).
        repeat split; try congruence; intros;
          unfold py_min; cmp_cases; unfold py_max; cmp_cases; lra.
      * rewrite !at_insert_ne by done. apply Hslots.
Qed.

Lemma pass1_prefix_inv (g : G) (k : nat) :
  (k ≤ n_slots ix)%nat →
  Pass1Inv ix bl fa k (fold_left (pass1_step ix hh bl fa md) (seq 0 k)
                                 (pass1_init g (n_slots ix) bl)).
Proof.
  induction k as [|k IH]; intros Hk.
  - apply pass1_init_inv.
  - rewrite seq_S, fold_left_app. simpl. apply pass1_step_inv; [lia|]. apply IH. lia.
Qed.

Lemma pass1_inv (g : G) : Pass1Inv ix bl fa (n_slots ix) (pass1 ix hh bl fa md g).
Proof. apply pass1_prefix_inv. lia. Qed.

End Pass1.

(* ------------------------------------------------------------------------- *)
(** ** Day slots and target slots                                            *)
(* ------------------------------------------------------------------------- *)

Lemma elem_of_day_slots ix day t :
  t ∈ day_slots_of ix day
  ↔ (t < n_slots ix)%nat ∧ nth t (day_of_slot ix) 0%nat = day.
Proof.
  unfold day_slots_of. rewrite list_elem_of_In, filter_In, <- list_elem_of_In.
  rewrite elem_of_seq, Nat.eqb_eq. intuition lia.
Qed.

Lemma day_slots_NoDup ix day : NoDup (day_slots_of ix day).
Proof.
  unfold day_slots_of. apply NoDup_ListNoDup, List.NoDup_filter, NoDup_ListNoDup, NoDup_seq.
Qed.

Lemma day_slots_disjoint ix d d' t :
  d ≠ d' → t ∈ day_slots_of ix d' → t ∉ day_slots_of ix d.
Proof. rewrite !elem_of_day_slots. intros Hne [_ H1] [_ H2]. congruence. Qed.

Lemma elem_of_bfilter {A} (f : A → bool) (l : list A) (x : A) :
  x ∈ List.filter f l → x ∈ l.
Proof. rewrite !list_elem_of_In, filter_In. tauto. Qed.

Lemma target_slots_subset ix day t :
  t ∈ target_slots_of ix day → t ∈ day_slots_of ix day.
Proof.
  unfold target_slots_of.
  destruct (length (List.filter (λ t, preferred ix t && _) _) =? 0)%nat.
  - destruct (length (List.filter _ _) =? 0)%nat.
    + intros Ht. apply elem_of_take in Ht as (i & Hi & _).
      by apply list_elem_of_lookup_2 in Hi.
    + apply elem_of_bfilter.
  - apply elem_of_bfilter.
Qed.

(** A day that has a slot has a target slot: the last fallback is never
    empty. *)
Lemma target_slots_nonempty ix day :
  day_slots_of ix day ≠ [] → target_slots_of ix day ≠ [].
Proof.
  intros Hne. unfold target_slots_of.
  destruct (length (List.filter (λ t, preferred ix t && _) _) =? 0)%nat eqn:E1.
  - destruct (length (List.filter (low_carbon ix _) _) =? 0)%nat eqn:E2.
    + destruct (day_slots_of ix day); [done|]. simpl. discriminate.
    + intros E. rewrite E in E2. discriminate.
  - intros E. rewrite E in E1. discriminate.
Qed.

(* ------------------------------------------------------------------------- *)
(** ** Pass 2                                                                *)
(* ------------------------------------------------------------------------- *)

Lemma add_to_slots_length a T l : length (add_to_slots a T l) = length l.
Proof.
  unfold add_to_slots. revert l. induction T as [|t T IH]; intros l; simpl; [done|].
  by rewrite IH, length_insert.
Qed.

Lemma add_to_slots_ge a T l u : 0 <= a → at_ l u <= at_ (add_to_slots a T l) u.
Proof.
  intros Ha. unfold add_to_slots. revert l.
  induction T as [|t T IH]; intros l; simpl; [lra|].
  eapply Qle_trans; [|apply IH].
  destruct (decide (t = u)) as [->|Hne].
  - destruct (decide (u < length l)%nat).
    + rewrite at_insert_eq by done. lra.
    + rewrite list_insert_ge by lia. lra.
  - rewrite at_insert_ne by done. lra.
Qed.

Lemma add_to_slots_sum_disjoint a T l S :
  (∀ t, t ∈ T → t ∉ S) → sum_at (add_to_slots a T l) S = sum_at l S.
Proof.
  unfold add_to_slots. revert l. induction T as [|t T IH]; intros l HT; simpl; [done|].
  rewrite IH.
  - apply sum_at_insert_notin, HT, list_elem_of_here.
  - intros u Hu. apply HT. by apply list_elem_of_further.
Qed.

Lemma add_to_slots_sum_subset a T l S :
  NoDup S → (∀ t, t ∈ T → t ∈ S) → (∀ t, t ∈ S → (t < length l)%nat) →
  sum_at (add_to_slots a T l) S
  == sum_at l S + a * inject_Z (Z.of_nat (length T)).
Proof.
  intros HS. unfold add_to_slots. revert l.
  induction T as [|t T IH]; intros l HT Hlen.
  { cbn [fold_left length]. change (inject_Z (Z.of_nat 0)) with 0. lra. }
  cbn [fold_left length].
  rewrite IH.
  - rewrite sum_at_insert_in; [|done|apply HT, list_elem_of_here|apply Hlen, HT, list_elem_of_here].
    rewrite Nat2Z.inj_succ, <- Z.add_1_r, inject_Z_plus.
    change (inject_Z 1) with 1. ring.
  - intros u Hu. apply HT. by apply list_elem_of_further.
  - intros u Hu. rewrite length_insert. by apply Hlen.
Qed.

Lemma add_per_slot_nonneg c T : 0 <= c → 0 <= add_per_slot_of c T.
Proof.
  intros Hc. unfold add_per_slot_of, Qdiv.
  apply Qmult_le_0_compat; [done|]. apply Qinv_le_0_compat.
  apply Qmult_le_0_compat; [|lra].
  change 0 with (inject_Z 0). rewrite <- Zle_Qle. lia.
Qed.

(** The energy handed back is the energy taken: [len(target_slots)] additions
    of [add_per_slot] kW make [curtailed_kwh / 0.5] kW in total. *)
Lemma add_per_slot_total c T :
  T ≠ [] → add_per_slot_of c T * inject_Z (Z.of_nat (length T)) == c / 0.5.
Proof.
  intros HT. unfold add_per_slot_of.
  assert (¬ inject_Z (Z.of_nat (length T)) == 0) as Hnz.
  { change 0 with (inject_Z 0). rewrite inject_Z_injective.
    destruct T; [done|]. simpl. lia. }
  field. exact Hnz.
Qed.

Lemma pass2_day_length ix sa sh day : length (pass2_day ix sa sh day) = length sh.
Proof.
  unfold pass2_day. destruct (Qleb _ 0); [done|]. apply add_to_slots_length.
Qed.

Lemma pass2_day_ge ix sa sh day u : at_ sh u <= at_ (pass2_day ix sa sh day) u.
Proof.
  unfold pass2_day. destruct (Qleb _ 0) eqn:E; [lra|]. apply Qleb_gt in E.
  apply add_to_slots_ge, add_per_slot_nonneg. lra.
Qed.

Lemma pass2_length ix sa sh : length (pass2 ix sa sh) = length sh.
Proof.
  unfold pass2. generalize (seq 0 (n_days ix)). intros ds. revert sh.
  induction ds as [|d ds IH]; intros sh; simpl; [done|].
  by rewrite IH, pass2_day_length.
Qed.

Lemma pass2_ge ix sa sh u : at_ sh u <= at_ (pass2 ix sa sh) u.
Proof.
  unfold pass2. generalize (seq 0 (n_days ix)). intros ds. revert sh.
  induction ds as [|d ds IH]; intros sh; simpl; [lra|].
  eapply Qle_trans; [apply (pass2_day_ge ix sa sh d)|apply IH].
Qed.

Lemma pass2_day_sum_same ix sa sh d :
  length sh = n_slots ix →
  sum_at (pass2_day ix sa sh d) (day_slots_of ix d)
  == sum_at sh (day_slots_of ix d) + day_gain ix sa d.
Proof.
  intros Hlen. unfold pass2_day, day_gain.
  destruct (Qleb (curtailed_kwh_of ix sa d) 0) eqn:E; [lra|]. apply Qleb_gt in E.
  assert (day_slots_of ix d ≠ []) as Hne.
  { intros Hnil. unfold curtailed_kwh_of in E. rewrite Hnil in E. simpl in E. lra. }
  rewrite add_to_slots_sum_subset.
  - rewrite (add_per_slot_total _ _ (target_slots_nonempty ix d Hne)).
    unfold curtailed_kwh_of, sum_at. field.
  - apply day_slots_NoDup.
  - apply target_slots_subset.
  - intros t Ht. apply elem_of_day_slots in Ht. lia.
Qed.

Lemma pass2_day_sum_other ix sa sh d d' :
  d ≠ d' →
  sum_at (pass2_day ix sa sh d') (day_slots_of ix d) = sum_at sh (day_slots_of ix d).
Proof.
  intros Hne. unfold pass2_day. destruct (Qleb _ 0); [done|].
  apply add_to_slots_sum_disjoint. intros t Ht.
  apply (day_slots_disjoint ix d d' t Hne), target_slots_subset, Ht.
Qed.

Lemma pass2_prefix_sum ix sa sh d k :
  length sh = n_slots ix →
  sum_at (fold_left (pass2_day ix sa) (seq 0 k) sh) (day_slots_of ix d)
  == sum_at sh (day_slots_of ix d) + (if (d <? k)%nat then day_gain ix sa d else 0).
Proof.
  intros Hlen. induction k as [|k IH]; [simpl; lra|].
  rewrite seq_S, fold_left_app. cbn [fold_left Nat.add].
  assert (length (fold_left (pass2_day ix sa) (seq 0 k) sh) = n_slots ix) as Hlen'.
  { clear IH. generalize (seq 0 k). intros ds. revert sh Hlen.
    induction ds as [|x ds IHd]; intros sh Hlen; simpl; [done|].
    apply IHd. by rewrite pass2_day_length. }
  destruct (decide (d = k)) as [->|Hne].
  - rewrite pass2_day_sum_same by done.
    replace (k <? k)%nat with false in IH by (symmetry; apply Nat.ltb_ge; lia).
    replace (k <? S k)%nat with true by (symmetry; apply Nat.ltb_lt; lia). lra.
  - rewrite pass2_day_sum_other by done.
    destruct (d <? k)%nat eqn:E.
    + replace (d <? S k)%nat with true; [done|].
      symmetry. apply Nat.ltb_lt. apply Nat.ltb_lt in E. lia.
    + replace (d <? S k)%nat with false; [done|].
      symmetry. apply Nat.ltb_ge. apply Nat.ltb_ge in E. lia.
Qed.

Lemma pass2_sum ix sa sh d :
  length sh = n_slots ix → (d < n_days ix)%nat →
  sum_at (pass2 ix sa sh) (day_slots_of ix d)
  == sum_at sh (day_slots_of ix d) + day_gain ix sa d.
Proof.
  intros Hlen Hd. unfold pass2. rewrite pass2_prefix_sum by done.
  replace (d <? n_days ix)%nat with true; [lra|]. symmetry. by apply Nat.ltb_lt.
Qed.

(* ------------------------------------------------------------------------- *)
(** ** The series of one household                                           *)
(* ------------------------------------------------------------------------- *)

Lemma gen_normal_vec_length {G} `{Generator G} mu sigma n (g : G) :
  length (gen_normal_vec mu sigma n g).1 = n.
Proof.
  revert g. induction n as [|n IH]; intros g; [done|].
  simpl. unfold rbind.
  destruct (gen_normal mu sigma g) as [x g1].
  specialize (IH g1). destruct (gen_normal_vec mu sigma n g1) as [xs g2].
  simpl in *. by rewrite IH.
Qed.

Lemma FLEX_PROFILE_nonneg i : 0 <= FLEX_PROFILE i.
Proof. unfold FLEX_PROFILE. cmp_cases; lra. Qed.

Lemma at_zip_with {A B} (f : A → B → Q) (l : list A) (k : list B) t a b :
  l !! t = Some a → k !! t = Some b → at_ (zip_with f l k) t = f a b.
Proof.
  intros Ha Hb. unfold at_. rewrite nth_lookup, lookup_zip_with, Ha. simpl.
  by rewrite Hb.
Qed.

Lemma baseline_of_length ix hh draws :
  length (slot_hod ix) = n_slots ix → length draws = n_slots ix →
  length (baseline_of ix hh draws) = n_slots ix.
Proof. intros H1 H2. unfold baseline_of. rewrite length_zip_with. lia. Qed.

Lemma baseline_of_floor ix hh draws t :
  length (slot_hod ix) = n_slots ix → length draws = n_slots ix →
  (t < n_slots ix)%nat → 0.05 <= at_ (baseline_of ix hh draws) t.
Proof.
  intros H1 H2 Ht. unfold baseline_of.
  destruct (lookup_lt_is_Some_2 (slot_hod ix) t) as [hod Hh]; [lia|].
  destruct (lookup_lt_is_Some_2 draws t) as [d Hd]; [lia|].
  rewrite (at_zip_with _ _ _ _ _ _ Hh Hd). apply py_max_ge_r.
Qed.

(** Line 176 read at slot [t]: the flexible share of the baseline. *)
Lemma flex_available_at ix bl t :
  length (slot_hod ix) = length bl →
  at_ (flex_available_of ix bl) t
  == at_ bl t * FLEX_PROFILE (nth t (slot_hod ix) 0%nat).
Proof.
  intros Hlen. unfold flex_available_of.
  destruct (decide (t < length bl)%nat) as [Hlt|Hge].
  - destruct (lookup_lt_is_Some_2 bl t Hlt) as [b Hb].
    destruct (lookup_lt_is_Some_2 (slot_hod ix) t) as [hod Hh]; [lia|].
    rewrite (at_zip_with _ _ _ _ _ _ Hb Hh).
    unfold at_. rewrite !nth_lookup, Hb, Hh. simpl. lra.
  - rewrite !at_ge; [lra|lia|rewrite length_zip_with; lia].
Qed.

Lemma household_series_ok {G} `{Generator G} ix hh (g : G) :
  length (slot_hod ix) = n_slots ix →
  SeriesOK ix (household_series ix hh g).1.
Proof.
  intros Hhod. unfold household_series, rbind.
  pose proof (gen_normal_vec_length 0 0.05 (n_slots ix) g) as Hdraws.
  destruct (gen_normal_vec 0 0.05 (n_slots ix) g) as [draws g1]. simpl in Hdraws.
  set (bl := baseline_of ix hh draws).
  set (fa := flex_available_of ix bl).
  set (md := max_daily_shift_energy_of hh bl ix).
  assert (length bl = n_slots ix) as Hbl by by apply baseline_of_length.
  assert (∀ t, (t < n_slots ix)%nat → 0.05 <= at_ bl t) as Hfloor
    by (intros t Ht; by apply baseline_of_floor).
  assert (∀ t, 0 <= at_ fa t) as Hfa.
  { intros t. unfold fa. rewrite flex_available_at by lia.
    apply Qmult_le_0_compat; [|apply FLEX_PROFILE_nonneg].
    destruct (decide (t < n_slots ix)%nat) as [Hlt|Hge].
    - specialize (Hfloor t Hlt). lra.
    - rewrite at_ge by lia. lra. }
  destruct (pass1_inv ix hh bl fa md Hbl Hfloor Hfa g1) as (Hl1 & Hl2 & _ & Hslots).
  set (st := pass1 ix hh bl fa md g1) in *. simpl.
  split; simpl; auto.
  - by rewrite pass2_length.
  - intros t Ht. eapply Qle_trans; [|apply pass2_ge]. by apply Hslots.
  - intros t. apply Hslots.
  - intros t. destruct (Hslots t) as (_ & _ & Hle & _).
    eapply Qle_trans; [exact Hle|]. unfold fa. rewrite flex_available_at by lia. lra.
  - intros t. apply Hslots.
  - intros d Hd. rewrite pass2_sum by done.
    assert (sum_at (p1_shifted st) (day_slots_of ix d)
            == sum_at bl (day_slots_of ix d)
               - sum_at (p1_shift_amount st) (day_slots_of ix d)) as E.
    { apply sum_at_minus. intros t _. apply Hslots. }
    unfold day_gain, curtailed_kwh_of.
    fold (sum_at (p1_shift_amount st) (day_slots_of ix d)).
    pose proof (sum_at_nonneg (p1_shift_amount st) (day_slots_of ix d)
                  (λ t, proj1 (proj2 (Hslots t)))) as Hnn.
    destruct (Qleb _ 0) eqn:Ec; [apply Qleb_le in Ec|]; lra.
Qed.

Lemma rmapM_Forall {G A B} (f : A → Rand G B) (P : B → Prop) (l : list A) (g : G) :
  (∀ x g, P (f x g).1) → Forall P (rmapM f l g).1.
Proof.
  intros Hf. revert g. induction l as [|x l IH]; intros g; simpl; [constructor|].
  unfold rbind. specialize (Hf x g). destruct (f x g) as [y g1].
  specialize (IH g1). destruct (rmapM f l g1) as [ys g2]. simpl in *.
  by constructor.
Qed.

Lemma rmapM_length {G A B} (f : A → Rand G B) (l : list A) (g : G) :
  length (rmapM f l g).1 = length l.
Proof.
  revert g. induction l as [|x l IH]; intros g; simpl; [done|].
  unfold rbind. destruct (f x g) as [y g1].
  specialize (IH g1). destruct (rmapM f l g1) as [ys g2]. simpl in *. by rewrite IH.
Qed.

(* ------------------------------------------------------------------------- *)
(** ** The slot index of a run                                               *)
(* ------------------------------------------------------------------------- *)

Lemma omapM_Forall2 {A B} (f : A → Outcome B) (l : list A) (rows : list B) :
  omapM f l = Ok rows → Forall2 (λ x y, f x = Ok y) l rows.
Proof.
  revert rows. induction l as [|x l IH]; intros rows; simpl.
  - intros [= <-]. constructor.
  - destruct (f x) as [y|] eqn:Ex; [|done]. simpl.
    destruct (omapM f l) as [ys|]; [|done]. simpl.
    intros [= <-]. constructor; auto.
Qed.

Lemma all_finite_Some (l : list (option Q)) (vs : list Q) :
  all_finite l = Some vs → l = map Some vs.
Proof.
  revert vs. induction l as [|x l IH]; intros vs; simpl.
  - by intros [= <-].
  - destruct x as [v|]; [|done]. simpl.
    destruct (all_finite l) as [ws|]; [|done]. simpl.
    intros [= <-]. simpl. by rewrite (IH ws).
Qed.

Lemma build_index_Ok iter carbon ix :
  build_index iter carbon = Ok ix → IndexOf carbon ix.
Proof.
  unfold build_index. destruct (omapM parse_slot carbon) as [rows|] eqn:Erows; [|done].
  simpl. destruct carbon as [|c carbon]; [done|].
  destruct (all_finite (map snd rows)) as [ints|] eqn:Eints; [|done].
  intros [= <-].
  apply omapM_Forall2 in Erows. apply all_finite_Some in Eints.
  assert (length rows = length (c :: carbon)) as Hrows
    by (symmetry; by eapply Forall2_length).
  assert (length ints = length rows) as Hints.
  { rewrite <- (length_map Some ints), <- Eints. by rewrite length_map. }
  split; unfold n_slots; simpl; rewrite ?length_map; try done.
  - simpl in Hrows. lia.
  - rewrite <- Eints.
    change (slot_intensity c :: map slot_intensity carbon)
      with (map slot_intensity (c :: carbon)).
    clear -Erows. induction Erows as [|s row l rows' Hrow _ IH]; [done|].
    simpl. rewrite IH. f_equal.
    unfold parse_slot in Hrow. destruct (strptime (from_ s)); [|done].
    simpl in Hrow. by injection Hrow as <-.
  - clear -Erows. induction Erows as [|s row l rows' Hrow _ IH]; [constructor|].
    simpl. constructor; [|exact IH].
    unfold parse_slot in Hrow. destruct (strptime (from_ s)) as [dt|]; [|done].
    simpl in Hrow. injection Hrow as <-. by exists dt.
Qed.

(* ------------------------------------------------------------------------- *)
(** ** [sorted(set(..))] does not depend on the iteration order of the set   *)
(* ------------------------------------------------------------------------- *)

Lemma str_le_spec a b : str_le a b ↔ String_as_OT.lt a b ∨ a = b.
Proof.
  unfold str_le, str_leb.
  destruct (String_as_OT.compare_spec a b) as [E|E|E]; split; auto; try done.
  intros [Hlt| ->].
  - destruct (StrictOrder_Irreflexive a).
    by apply (StrictOrder_Transitive a b a).
  - by destruct (StrictOrder_Irreflexive b).
Qed.

#[local] Instance str_le_trans : Transitive str_le.
Proof.
  intros a b c. rewrite !str_le_spec. intros [H1| ->] [H2| ->]; auto.
  left. by apply (StrictOrder_Transitive a b c).
Qed.

#[local] Instance str_le_antisym : AntiSymm eq str_le.
Proof.
  intros a b. rewrite !str_le_spec. intros [H1| ->] [H2|E]; auto.
  destruct (StrictOrder_Irreflexive a). by apply (StrictOrder_Transitive a b a).
Qed.

Lemma str_le_total a b : str_le a b ∨ str_le b a.
Proof.
  rewrite !str_le_spec.
  destruct (String_as_OT.compare_spec a b) as [E|E|E]; auto.
Qed.

Lemma str_insert_perm x l : str_insert x l ≡ₚ x :: l.
Proof.
  induction l as [|y l IH]; simpl; [done|].
  destruct (str_leb x y); [done|]. rewrite IH. apply Permutation_swap.
Qed.

Lemma py_sorted_perm l : py_sorted l ≡ₚ l.
Proof.
  induction l as [|x l IH]; simpl; [done|].
  rewrite str_insert_perm. by constructor.
Qed.

Lemma str_insert_sorted x l : Sorted str_le l → Sorted str_le (str_insert x l).
Proof.
  induction 1 as [|y l Hs IH Hhd]; simpl.
  - repeat constructor.
  - destruct (str_leb x y) eqn:E.
    + constructor; [by constructor|]. by constructor.
    + assert (str_le y x) as Hyx.
      { destruct (str_le_total x y) as [H'|H']; [|done]. unfold str_le in H'. congruence. }
      constructor; [exact IH|].
      destruct Hhd as [|z l' Hz]; simpl.
      * by constructor.
      * destruct (str_leb x z); by constructor.
Qed.

Lemma py_sorted_sorted l : Sorted str_le (py_sorted l).
Proof.
  induction l as [|x l IH]; simpl; [constructor|]. by apply str_insert_sorted.
Qed.

Lemma py_sorted_permutation_invariant l1 l2 :
  l1 ≡ₚ l2 → py_sorted l1 = py_sorted l2.
Proof.
  intros Hp. apply (Sorted_unique str_le); try apply py_sorted_sorted.
  by rewrite !py_sorted_perm.
Qed.

Lemma unique_days_order_irrelevant iter1 iter2 day_ids :
  SetOrder iter1 → SetOrder iter2 →
  unique_days_with iter1 day_ids = unique_days_with iter2 day_ids.
Proof.
  intros H1 H2. unfold unique_days_with.
  apply py_sorted_permutation_invariant.
  etrans; [apply H1|]. symmetry. apply H2.
Qed.

(* ------------------------------------------------------------------------- *)
(** ** Runs                                                                  *)
(* ------------------------------------------------------------------------- *)

Lemma simulate_with_Ok {G} `{Generator G} iter carbon (r : Run) :
  simulate_with iter carbon = Ok r →
  ∃ ix, build_index iter carbon = Ok ix ∧ r = run_simulation carbon ix.
Proof.
  unfold simulate_with. destruct (build_index iter carbon) as [ix|]; [|done].
  simpl. intros [= <-]. by exists ix.
Qed.

Lemma run_simulation_index {G} `{Generator G} carbon ix :
  run_index (run_simulation carbon ix) = ix.
Proof.
  unfold run_simulation. destruct (gen_households _) as [hhs g1].
  by destruct (all_series ix hhs g1).
Qed.

Lemma run_simulation_series {G} `{Generator G} carbon ix :
  length (slot_hod ix) = n_slots ix →
  Forall (SeriesOK ix) (run_series (run_simulation carbon ix)).
Proof.
  intros Hhod. unfold run_simulation. destruct (gen_households _) as [hhs g1].
  pose proof (rmapM_Forall (household_series ix) (SeriesOK ix) hhs g1
                (λ hh g, household_series_ok ix hh g Hhod)) as Hall.
  unfold all_series. by destruct (rmapM (household_series ix) hhs g1).
Qed.

Lemma run_simulation_sizes {G} `{Generator G} carbon ix :
  length (run_households (run_simulation carbon ix)) = N_HOUSEHOLDS
  ∧ length (run_series (run_simulation carbon ix)) = N_HOUSEHOLDS.
Proof.
  unfold run_simulation.
  pose proof (rmapM_length gen_household (seq 0 N_HOUSEHOLDS) (default_rng SEED)) as H1.
  unfold gen_households. destruct (rmapM gen_household _ _) as [hhs g1].
  pose proof (rmapM_length (household_series ix) hhs g1) as H2.
  unfold all_series. destruct (rmapM (household_series ix) hhs g1) as [series g2].
  rewrite length_seq in H1. simpl in *. split; congruence.
Qed.

Lemma simulate_of_index {G} `{Generator G} carbon ix :
  build_index elements carbon = Ok ix →
  simulate carbon = Ok (run_simulation carbon ix).
Proof. intros Hix. unfold simulate, simulate_with. by rewrite Hix. Qed.

Lemma lookup_nth {A} (l : list A) (i : nat) (d : A) :
  (i < length l)%nat → l !! i = Some (nth i l d).
Proof.
  intros Hi. destruct (lookup_lt_is_Some_2 l i Hi) as [x Hx].
  by rewrite nth_lookup, Hx.
Qed.

Lemma run_series_lookup {G} `{Generator G} carbon ix hi :
  (hi < N_HOUSEHOLDS)%nat →
  run_series (run_simulation carbon ix) !! hi
  = Some (nth hi (run_series (run_simulation carbon ix)) empty_series).
Proof.
  intros Hhi. apply lookup_nth.
  by rewrite (proj2 (run_simulation_sizes carbon ix)).
Qed.

Lemma run_events {G} `{Generator G} carbon ix :
  events (flex_output (run_simulation carbon ix))
  = flex_events_of carbon ix (run_households (run_simulation carbon ix))
      (map shift_amount (run_series (run_simulation carbon ix))).
Proof.
  unfold run_simulation. destruct (gen_households _) as [hhs g1].
  by destruct (all_series ix hhs g1) as [series g2].
Qed.

Lemma slot_event_flex_requested carbon ix hhs saa t :
  flex_requested (slot_event carbon ix hhs saa t)
  = (150 <=? py_int (at_ (intensities ix) t))%Z.
Proof.
  unfold slot_event. destruct (150 <=? _)%Z; [|done].
  by destruct (slot_participants hhs saa t).
Qed.

Lemma slot_event_intensity_actual carbon ix hhs saa t :
  intensity_actual (slot_event carbon ix hhs saa t) = py_int (at_ (intensities ix) t).
Proof.
  unfold slot_event. destruct (150 <=? _)%Z; [|done].
  by destruct (slot_participants hhs saa t).
Qed.

Lemma run_events_lookup {G} `{Generator G} carbon ix t :
  (t < n_slots ix)%nat →
  events (flex_output (run_simulation carbon ix)) !! t
  = Some (slot_event carbon ix (run_households (run_simulation carbon ix))
            (map shift_amount (run_series (run_simulation carbon ix))) t).
Proof.
  intros Ht. unfold run_simulation. destruct (gen_households _) as [hhs g1].
  destruct (all_series ix hhs g1) as [series g2]. simpl.
  unfold flex_events_of. rewrite list_lookup_fmap, lookup_seq_lt by done. done.
Qed.

(** Every series of a run that returned has the per-household facts. *)
Lemma simulate_series_ok {G} `{Generator G} carbon (r : Run) hi s :
  simulate carbon = Ok r → run_series r !! hi = Some s →
  IndexOf carbon (run_index r) ∧ SeriesOK (run_index r) s.
Proof.
  intros Hrun Hs. apply simulate_with_Ok in Hrun as (ix & Hix & ->).
  apply build_index_Ok in Hix. rewrite run_simulation_index. split; [done|].
  pose proof (run_simulation_series carbon ix (ix_len_hod _ _ Hix)) as Hall.
  rewrite Forall_lookup in Hall. by eapply Hall.
Qed.

(* ------------------------------------------------------------------------- *)
(** ** A concrete run                                                        *)
(* ------------------------------------------------------------------------- *)

Lemma demo_index_ok : build_index elements demo_carbon = Ok demo_index.
Proof. vm_compute. reflexivity. Qed.

Lemma demo_run_ok : @simulate (list Q) (TapeGen demo_tape) demo_carbon = Ok demo_run.
Proof. apply simulate_of_index, demo_index_ok. Qed.

Lemma demo_series_lookup : run_series demo_run !! 0%nat = Some demo_series.
Proof. apply run_series_lookup. unfold N_HOUSEHOLDS. lia. Qed.

Example demo_series_values :
  Forall2 Qeq (baseline demo_series) [0.3; 0.3; 0.3; 0.3]
  ∧ Forall2 Qeq (shift_amount demo_series) [0; 0.21; 0.21; 0]
  ∧ Forall2 Qeq (shifted demo_series) [0.51; 0.09; 0.09; 0.51].
Proof. vm_compute. repeat split; repeat constructor. Qed.

(* ------------------------------------------------------------------------- *)
(** ** Energy conservation                                                   *)
(* ------------------------------------------------------------------------- *)

Lemma day_energy_sum_at ix l day :
  day_energy ix l day == sum_at l (day_slots_of ix day) * 0.5.
Proof.
  unfold day_energy, sum_at. induction (day_slots_of ix day) as [|t S IH]; simpl; lra.
Qed.

(** C1.  For every household and every day of the input, the energy of the
    shifted series over the slots of that day equals the energy of the
    baseline series over the same slots: Pass 2 hands back to the day's
    target slots exactly the energy Pass 1 took from the day.  (Exact
    arithmetic; every day of the input has a target slot, see
    [target_slots_nonempty].) *)
Theorem energy_conservation {G} `{Generator G} carbon (r : Run) hi s day :
  simulate carbon = Ok r →
  run_series r !! hi = Some s →
  (day < n_days (run_index r))%nat →
  day_energy (run_index r) (shifted s) day == day_energy (run_index r) (baseline s) day.
Proof.
  intros Hrun Hs Hday. destruct (simulate_series_ok carbon r hi s Hrun Hs) as [_ Hok].
  rewrite !day_energy_sum_at. rewrite (ok_conserved _ _ Hok day Hday). reflexivity.
Qed.

Lemma energy_conservation_witness :
  @simulate (list Q) (TapeGen demo_tape) demo_carbon = Ok demo_run
  ∧ run_series demo_run !! 0%nat = Some demo_series
  ∧ (0 < n_days (run_index demo_run))%nat
  ∧ day_energy (run_index demo_run) (shifted demo_series) 0
    == day_energy (run_index demo_run) (baseline demo_series) 0.
Proof.
  assert (0 < n_days (run_index demo_run))%nat as Hd.
  { unfold demo_run. rewrite run_simulation_index. vm_compute. lia. }
  split; [exact demo_run_ok|]. split; [exact demo_series_lookup|]. split; [exact Hd|].
  exact (energy_conservation demo_carbon demo_run 0%nat demo_series 0%nat
           demo_run_ok demo_series_lookup Hd).
Defined.

(* ------------------------------------------------------------------------- *)
(** ** Curtailment only at high-carbon slots, and within the flexible share  *)
(* ------------------------------------------------------------------------- *)

(** C5.  A positive recorded curtailment at slot [t] implies that the
    intensity of slot [t] is at least 150. *)
Theorem curtailment_only_high_carbon {G} `{Generator G} carbon (r : Run) hi s t :
  simulate carbon = Ok r →
  run_series r !! hi = Some s →
  0 < at_ (shift_amount s) t →
  HIGH_THRESHOLD <= at_ (intensities (run_index r)) t.
Proof.
  intros Hrun Hs Hpos. destruct (simulate_series_ok carbon r hi s Hrun Hs) as [_ Hok].
  destruct (Qltb (at_ (intensities (run_index r)) t) HIGH_THRESHOLD) eqn:E.
  - rewrite (ok_curtail_high _ _ Hok t E) in Hpos. lra.
  - by apply Qltb_ge in E.
Qed.

Lemma curtailment_only_high_carbon_witness :
  @simulate (list Q) (TapeGen demo_tape) demo_carbon = Ok demo_run
  ∧ run_series demo_run !! 0%nat = Some demo_series
  ∧ 0 < at_ (shift_amount demo_series) 1
  ∧ HIGH_THRESHOLD <= at_ (intensities (run_index demo_run)) 1.
Proof.
  assert (0 < at_ (shift_amount demo_series) 1) as Hpos by (vm_compute; reflexivity).
  split; [exact demo_run_ok|]. split; [exact demo_series_lookup|]. split; [exact Hpos|].
  exact (curtailment_only_high_carbon demo_carbon demo_run 0%nat demo_series 1%nat
           demo_run_ok demo_series_lookup Hpos).
Defined.

(** The other reading of C5: below the threshold the recorded curtailment
    stays at its initial 0. *)
Lemma low_carbon_slot_not_curtailed {G} `{Generator G} carbon (r : Run) hi s t :
  simulate carbon = Ok r →
  run_series r !! hi = Some s →
  at_ (intensities (run_index r)) t < HIGH_THRESHOLD →
  at_ (shift_amount s) t = 0.
Proof.
  intros Hrun Hs Hlow. destruct (simulate_series_ok carbon r hi s Hrun Hs) as [_ Hok].
  apply (ok_curtail_high _ _ Hok). by apply Qltb_lt.
Qed.



(* ------------------------------------------------------------------------- *)
(** ** The 0.05 kW floor                                                     *)
(* ------------------------------------------------------------------------- *)

(** C6.  For every household and every slot the final shifted demand is at
    least 0.05 kW. *)
Theorem shifted_at_least_floor {G} `{Generator G} carbon (r : Run) hi s t :
  simulate carbon = Ok r →
  run_series r !! hi = Some s →
  (t < n_slots (run_index r))%nat →
  0.05 <= at_ (shifted s) t.
Proof.
  intros Hrun Hs Ht. destruct (simulate_series_ok carbon r hi s Hrun Hs) as [_ Hok].
  by apply (ok_shifted_floor _ _ Hok).
Qed.

Lemma shifted_at_least_floor_witness :
  @simulate (list Q) (TapeGen demo_tape) demo_carbon = Ok demo_run
  ∧ run_series demo_run !! 0%nat = Some demo_series
  ∧ (1 < n_slots (run_index demo_run))%nat
  ∧ 0.05 <= at_ (shifted demo_series) 1.
Proof.
  assert (1 < n_slots (run_index demo_run))%nat as Ht.
  { unfold demo_run. rewrite run_simulation_index. vm_compute. lia. }
  split; [exact demo_run_ok|]. split; [exact demo_series_lookup|]. split; [exact Ht|].
  exact (shifted_at_least_floor demo_carbon demo_run 0%nat demo_series 1%nat
           demo_run_ok demo_series_lookup Ht).
Defined.

(* ------------------------------------------------------------------------- *)
(** ** Determinism                                                           *)
(* ------------------------------------------------------------------------- *)

Lemma build_index_order_irrelevant iter1 iter2 carbon :
  SetOrder iter1 → SetOrder iter2 →
  build_index iter1 carbon = build_index iter2 carbon.
Proof.
  intros H1 H2. unfold build_index.
  by rewrite (unique_days_order_irrelevant iter1 iter2 _ H1 H2).
Qed.

(** C7.  Two runs on the same carbon file, both drawing from
    [default_rng(SEED)], return the same outcome, whatever order each run
    iterates its set of day strings in: the household records and the
    baseline, shifted and shift_amount series (and all that is derived from
    them) are equal. *)
Theorem simulate_deterministic {G} `{Generator G} iter1 iter2 carbon :
  SetOrder iter1 → SetOrder iter2 →
  simulate_with iter1 carbon = simulate_with iter2 carbon.
Proof.
  intros H1 H2. unfold simulate_with.
  by rewrite (build_index_order_irrelevant iter1 iter2 carbon H1 H2).
Qed.

Lemma simulate_deterministic_witness :
  SetOrder elements ∧ SetOrder (λ X, reverse (elements X))
  ∧ @simulate_with (list Q) (TapeGen demo_tape) elements demo_carbon
    = @simulate_with (list Q) (TapeGen demo_tape) (λ X, reverse (elements X)) demo_carbon.
Proof.
  assert (SetOrder elements) as H1 by (intros X; reflexivity).
  assert (SetOrder (λ X, reverse (elements X))) as H2
    by (intros X; apply reverse_Permutation).
  split; [exact H1|]. split; [exact H2|].
  exact (simulate_deterministic elements (λ X, reverse (elements X)) demo_carbon H1 H2).
Defined.

(** The household records depend on the seed alone, not on the carbon
    file. *)
Lemma households_independent_of_input {G} `{Generator G} carbon1 carbon2 ix1 ix2 :
  run_households (run_simulation carbon1 ix1)
  = run_households (run_simulation carbon2 ix2).
Proof.
  unfold run_simulation. destruct (gen_households _) as [hhs g1].
  by destruct (all_series ix1 hhs g1), (all_series ix2 hhs g1).
Qed.

(* ------------------------------------------------------------------------- *)
(** ** A week without high-carbon slots                                      *)
(* ------------------------------------------------------------------------- *)

Lemma low_intensities carbon ints :
  map slot_intensity carbon = map Some ints →
  Forall (λ c, ∃ q, slot_intensity c = Some q ∧ q < HIGH_THRESHOLD) carbon →
  ∀ t, (t < length ints)%nat → at_ ints t < HIGH_THRESHOLD.
Proof.
  intros Hmap Hall. revert ints Hmap.
  induction Hall as [|c l (q & Hq & Hlt) _ IH]; intros ints Hmap t Ht.
  - destruct ints; simpl in *; [lia|done].
  - destruct ints as [|v ints]; [done|]. simpl in Hmap.
    injection Hmap as Hv Hrest. destruct t as [|t]; simpl.
    + unfold at_. simpl. congruence.
    + apply (IH ints Hrest t). simpl in Ht. lia.
Qed.

Lemma pass1_all_low {G} `{Generator G} ix hh bl fa md (g : G) :
  AllLow ix → pass1 ix hh bl fa md g = pass1_init g (n_slots ix) bl.
Proof.
  intros Hlow. unfold pass1.
  assert (∀ t, t ∈ seq 0 (n_slots ix) → (t < n_slots ix)%nat) as Hseq
    by (intros t Ht; apply elem_of_seq in Ht; lia).
  revert Hseq. generalize (seq 0 (n_slots ix)) (pass1_init g (n_slots ix) bl).
  intros ts. induction ts as [|t ts IH]; intros st Hts; simpl; [done|].
  replace (pass1_step ix hh bl fa md st t) with st.
  - apply IH. intros u Hu. apply Hts. by apply list_elem_of_further.
  - unfold pass1_step. rewrite Hlow; [done|]. apply Hts, list_elem_of_here.
Qed.

Lemma sum_at_zeros n S : sum_at (repeat 0 n) S == 0.
Proof.
  unfold sum_at. induction S as [|t S IH]; simpl; [lra|].
  rewrite at_repeat_zero. lra.
Qed.

Lemma pass2_nothing_curtailed ix n sh : pass2 ix (repeat 0 n) sh = sh.
Proof.
  unfold pass2. generalize (seq 0 (n_days ix)). intros ds.
  induction ds as [|d ds IH]; simpl; [done|].
  replace (pass2_day ix (repeat 0 n) sh d) with sh; [done|].
  unfold pass2_day. replace (Qleb (curtailed_kwh_of ix (repeat 0 n) d) 0) with true; [done|].
  symmetry. apply Qleb_le. unfold curtailed_kwh_of.
  pose proof (sum_at_zeros n (day_slots_of ix d)) as Hz. unfold sum_at in Hz. lra.
Qed.

Lemma household_series_all_low {G} `{Generator G} ix hh (g : G) :
  AllLow ix →
  shifted (household_series ix hh g).1 = baseline (household_series ix hh g).1
  ∧ shift_amount (household_series ix hh g).1 = repeat 0 (n_slots ix).
Proof.
  intros Hlow. unfold household_series, rbind.
  destruct (gen_normal_vec 0 0.05 (n_slots ix) g) as [draws g1].
  rewrite pass1_all_low by done. simpl. by rewrite pass2_nothing_curtailed.
Qed.

Lemma reward_slots_all_low ix saa day_low ts r :
  AllLow ix → (∀ t, t ∈ ts → (t < n_slots ix)%nat) →
  fold_left (reward_slot ix saa day_low) ts r = r.
Proof.
  intros Hlow. induction ts as [|t ts IH]; intros Hts; [done|].
  cbn [fold_left]. unfold reward_slot at 2.
  rewrite Hlow by apply Hts, list_elem_of_here.
  apply IH. intros u Hu. apply Hts. by apply list_elem_of_further.
Qed.

Lemma compute_rewards_all_low ix saa :
  AllLow ix →
  compute_rewards ix saa
  = {| hh_rewards := repeat 0 N_HOUSEHOLDS;
       hh_total_shifted_kwh := repeat 0 N_HOUSEHOLDS;
       hh_carbon_avoided := repeat 0 N_HOUSEHOLDS |}.
Proof.
  intros Hlow. unfold compute_rewards.
  generalize (seq 0 (n_days ix)). intros ds.
  induction ds as [|d ds IH]; [done|].
  cbn [fold_left]. unfold reward_day at 2.
  rewrite reward_slots_all_low; [exact IH|done|].
  intros t Ht. apply elem_of_day_slots in Ht. lia.
Qed.

Lemma round_half_even_zero y : y == 0 → round_half_even y = 0%Z.
Proof.
  intros Hy. unfold round_half_even.
  rewrite (Qfloor_comp y 0 Hy). change (Qfloor 0) with 0%Z.
  replace (Qltb (y - inject_Z 0) (1 # 2)) with true; [done|].
  symmetry. apply Qltb_lt. change (inject_Z 0) with 0. lra.
Qed.

Lemma py_round_zero x nd : x == 0 → py_round x nd == 0.
Proof.
  intros Hx. unfold py_round. rewrite round_half_even_zero.
  - unfold Qdiv. change (inject_Z 0) with 0. ring.
  - rewrite Hx. ring.
Qed.

Lemma peak_reduction_same p : peak_reduction_pct_of p p == 0.
Proof.
  unfold peak_reduction_pct_of. destruct (Qltb 0 p) eqn:E; [|reflexivity].
  apply Qltb_lt in E. apply py_round_zero.
  assert (p / p == 1) as -> by (field; lra). ring.
Qed.

(** C9.  If every slot's intensity is below 150, the recorded curtailment is
    zero for every household and slot, every household's [tokens_earned] is
    0, and the summary's [peak_demand_reduction_pct] is 0. *)
Theorem zero_high_carbon_week {G} `{Generator G} carbon (r : Run) :
  simulate carbon = Ok r →
  Forall (λ c, ∃ q, slot_intensity c = Some q ∧ q < HIGH_THRESHOLD) carbon →
  (∀ hi s t, run_series r !! hi = Some s → at_ (shift_amount s) t = 0)
  ∧ (∀ h, h ∈ households (flex_output r) → tokens_earned h == 0)
  ∧ peak_demand_reduction_pct (summary (flex_output r)) == 0.
Proof.
  intros Hrun Hall. apply simulate_with_Ok in Hrun as (ix & Hix & ->).
  apply build_index_Ok in Hix.
  assert (AllLow ix) as Hlow.
  { intros t Ht. apply Qltb_lt.
    apply (low_intensities carbon _ (ix_intensities _ _ Hix) Hall).
    by rewrite (ix_len_intensities _ _ Hix). }
  unfold run_simulation. destruct (gen_households _) as [hhs g1].
  pose proof (rmapM_Forall (household_series ix)
                (λ s, shifted s = baseline s ∧ shift_amount s = repeat 0 (n_slots ix))
                hhs g1 (λ hh g, household_series_all_low ix hh g Hlow)) as Hser.
  unfold all_series. destruct (rmapM (household_series ix) hhs g1) as [series g2].
  simpl in Hser. cbn [run_series flex_output households summary].
  rewrite compute_rewards_all_low by done.
  split; [|split].
  - intros hi s t Hs. rewrite Forall_lookup in Hser.
    destruct (Hser hi s Hs) as [_ ->]. apply at_repeat_zero.
  - intros h Hh. apply elem_of_lookup_imap_1 in Hh as (i & hh & -> & _).
    apply py_round_zero. cbn [hh_rewards]. by rewrite at_repeat_zero.
  - unfold summary_of. cbn [peak_demand_reduction_pct].
    replace (map shifted series) with (map baseline series).
    + apply peak_reduction_same.
    + apply map_ext_Forall. eapply Forall_impl; [exact Hser|].
      simpl. by intros s [-> _].
Qed.

Lemma calm_index_ok : build_index elements calm_carbon = Ok calm_index.
Proof. vm_compute. reflexivity. Qed.

Lemma calm_run_ok : @simulate (list Q) (TapeGen demo_tape) calm_carbon = Ok calm_run.
Proof. apply simulate_of_index, calm_index_ok. Qed.

Lemma zero_high_carbon_week_witness :
  @simulate (list Q) (TapeGen demo_tape) calm_carbon = Ok calm_run
  ∧ Forall (λ c, ∃ q, slot_intensity c = Some q ∧ q < HIGH_THRESHOLD) calm_carbon
  ∧ (∀ hi s t, run_series calm_run !! hi = Some s → at_ (shift_amount s) t = 0)
  ∧ (∀ h, h ∈ households (flex_output calm_run) → tokens_earned h == 0)
  ∧ peak_demand_reduction_pct (summary (flex_output calm_run)) == 0.
Proof.
  assert (Forall (λ c, ∃ q, slot_intensity c = Some q ∧ q < HIGH_THRESHOLD) calm_carbon)
    as Hall.
  { repeat constructor.
    - exists 100. split; [reflexivity|]. vm_compute. reflexivity.
    - exists 120. split; [reflexivity|]. vm_compute. reflexivity. }
  split; [exact calm_run_ok|]. split; [exact Hall|].
  exact (zero_high_carbon_week calm_carbon calm_run calm_run_ok Hall).
Defined.

(* ------------------------------------------------------------------------- *)
(** ** The participation threshold                                           *)
(* ------------------------------------------------------------------------- *)

Lemma round_half_even_ge_floor y : (Qfloor y ≤ round_half_even y)%Z.
Proof.
  unfold round_half_even.
  destruct (Qltb _ (1 # 2)); [lia|]. destruct (Qltb (1 # 2) _); [lia|].
  destruct (Z.even _); lia.
Qed.








Lemma slot_event_participants carbon ix hhs saa t :
  (150 <=? py_int (at_ (intensities ix) t))%Z = true →
  participants (slot_event carbon ix hhs saa t) = (slot_participants hhs saa t).1.
Proof.
  intros Hhigh. unfold slot_event. rewrite Hhigh.
  by destruct (slot_participants hhs saa t).
Qed.




(* ------------------------------------------------------------------------- *)
(** ** The intensity the engine uses                                         *)
(* ------------------------------------------------------------------------- *)

(** What line 124 yields, by cases on the two keys. *)
Lemma slot_intensity_cases (s : CarbonSlot) :
  slot_intensity s
  = match actual (intensity s) with
    | JNum a =>
        if Qeq_bool a 0 then dict_get_default (forecast (intensity s)) 0 else Some a
    | _ => dict_get_default (forecast (intensity s)) 0
    end.
Proof.
  unfold slot_intensity, py_or, py_truthy.
  destruct (actual (intensity s)) as [| |a]; simpl; try done.
  by destruct (Qeq_bool a 0).
Qed.

(** C4 at [actual = 0]: the claim has the engine use the actual value 0;
    the program's [or] treats 0 as absent and uses the forecast.  In the run
    on a slot with [actual = 0] and [forecast = 200] the engine's intensity
    is 200 and the slot is flagged high-carbon. *)
Theorem actual_zero_replaced_by_forecast :
  (∀ ts fc, slot_intensity (mk_slot ts fc 0) = Some fc)
  ∧ @simulate (list Q) (TapeGen demo_tape) zero_actual_carbon = Ok zero_actual_run
  ∧ intensities (run_index zero_actual_run) = [200]
  ∧ (flex_requested <$> events (flex_output zero_actual_run)) = [true]
  ∧ (intensity_actual <$> events (flex_output zero_actual_run)) = [200%Z].
Proof.
  split; [intros ts fc; reflexivity|].
  split; [apply simulate_of_index; vm_compute; reflexivity|].
  unfold zero_actual_run. rewrite run_simulation_index, run_events.
  split; [reflexivity|].
  unfold flex_events_of. change (seq 0 (n_slots zero_actual_index)) with [0%nat].
  cbn [map fmap list_fmap].
  rewrite slot_event_flex_requested, slot_event_intensity_actual.
  split; vm_compute; reflexivity.
Qed.

(* ------------------------------------------------------------------------- *)
(** ** The per-day shift-energy budget                                       *)
(* ------------------------------------------------------------------------- *)

Lemma total_week_baseline_kwh_sum bl : total_week_baseline_kwh bl == np_sum bl * 0.5.
Proof. unfold total_week_baseline_kwh. induction bl as [|b bl IH]; simpl; lra. Qed.

(** Line 180 sums kW values, not kWh: the budget is twice the fraction of
    the weekly energy per day. *)
Lemma budget_counts_kw hh bl ix :
  max_daily_shift_energy_of hh bl ix
  == 2 * (max_shift_fraction hh * total_week_baseline_kwh bl
          / inject_Z (Z.of_nat (n_days ix))).
Proof.
  unfold max_daily_shift_energy_of. rewrite total_week_baseline_kwh_sum.
  unfold Qdiv. ring.
Qed.

(** C2 on the four-slot day: household HH-001 has shift fraction 0.3 and a
    baseline of four slots of 0.3 kW, 0.6 kWh in all.  The claimed budget is
    0.3 * 0.6 / 1 = 0.18 kWh; line 180 computes 0.3 * 1.2 / 1 = 0.36, and the
    run curtails 0.21 kWh that day. *)
Theorem daily_budget_sums_kw_not_kwh :
  let hh := household_at (run_households demo_run) 0 in
  @simulate (list Q) (TapeGen demo_tape) demo_carbon = Ok demo_run
  ∧ max_shift_fraction hh == 0.3
  ∧ total_week_baseline_kwh (baseline demo_series) == 0.6
  ∧ max_daily_shift_energy_of hh (baseline demo_series) (run_index demo_run) == 0.36
  ∧ max_shift_fraction hh * total_week_baseline_kwh (baseline demo_series)
    / inject_Z (Z.of_nat (n_days (run_index demo_run))) == 0.18
  ∧ curtailed_kwh_of (run_index demo_run) (shift_amount demo_series) 0 == 0.21.
Proof.
  split; [exact demo_run_ok|]. repeat split; vm_compute; reflexivity.
Qed.

(* ------------------------------------------------------------------------- *)
(** ** Degenerate cases and zero denominators                                *)
(* ------------------------------------------------------------------------- *)




Lemma unique_days_nonempty iter day_ids :
  SetOrder iter → day_ids ≠ [] → unique_days_with iter day_ids ≠ [].
Proof.
  intros Hiter Hne. destruct day_ids as [|d ids]; [done|].
  assert (d ∈ unique_days_with iter (d :: ids)) as Hd.
  { unfold unique_days_with. rewrite py_sorted_perm, (Hiter _).
    apply elem_of_elements, elem_of_list_to_set, list_elem_of_here. }
  intros E. rewrite E in Hd. by apply elem_of_nil in Hd.
Qed.

Lemma build_index_days iter carbon ix :
  build_index iter carbon = Ok ix →
  unique_days ix = unique_days_with iter (map (λ s, day_id (from_ s)) carbon)
  ∧ day_of_slot ix
    = day_of_slot_of (unique_days ix) (map (λ s, day_id (from_ s)) carbon).
Proof.
  unfold build_index. destruct (omapM parse_slot carbon) as [rows|]; [|done].
  simpl. destruct carbon as [|c carbon]; [done|].
  destruct (all_finite (map snd rows)) as [ints|]; [|done].
  by intros [= <-].
Qed.





(** The same for every generator. *)
Lemma simulate_empty_raises {G} `{Generator G} : simulate [] = Raise IndexError.
Proof. reflexivity. Qed.

(* ------------------------------------------------------------------------- *)
(** ** Every day of the file has slots, hence target slots                   *)
(* ------------------------------------------------------------------------- *)

Lemma py_index_lookup (l : list string) (d : nat) (s : string) :
  NoDup l → l !! d = Some s → py_index s l = Some d.
Proof.
  intros Hnd. revert d. induction Hnd as [|x l Hx Hnd IH]; intros d Hd; [done|].
  destruct d as [|d]; simpl in *.
  - injection Hd as ->. by rewrite String.eqb_refl.
  - destruct (String.eqb x s) eqn:E.
    + apply String.eqb_eq in E as ->. destruct Hx. by eapply list_elem_of_lookup_2.
    + by rewrite (IH d Hd).
Qed.

Lemma unique_days_NoDup iter day_ids :
  SetOrder iter → NoDup (unique_days_with iter day_ids).
Proof.
  intros Hiter. unfold unique_days_with.
  rewrite py_sorted_perm, (Hiter _). apply NoDup_elements.
Qed.

Lemma elem_of_unique_days iter day_ids s :
  SetOrder iter → s ∈ unique_days_with iter day_ids ↔ s ∈ day_ids.
Proof.
  intros Hiter. unfold unique_days_with.
  rewrite py_sorted_perm, (Hiter _), elem_of_elements. apply elem_of_list_to_set.
Qed.

Lemma every_day_has_slot iter carbon ix d :
  SetOrder iter → build_index iter carbon = Ok ix →
  (d < n_days ix)%nat → day_slots_of ix d ≠ [].
Proof.
  intros Hiter Hix Hd.
  destruct (build_index_days _ _ _ Hix) as [Hdays Hdos].
  pose proof (build_index_Ok _ _ _ Hix) as Hwf.
  set (ids := map (λ s, day_id (from_ s)) carbon) in *.
  destruct (lookup_lt_is_Some_2 (unique_days ix) d Hd) as [s Hs].
  assert (s ∈ ids) as Hin.
  { apply (elem_of_unique_days iter ids s Hiter). rewrite <- Hdays.
    by eapply list_elem_of_lookup_2. }
  apply list_elem_of_lookup_1 in Hin as [t Ht].
  assert (t ∈ day_slots_of ix d) as Hmem.
  { apply elem_of_day_slots. split.
    - rewrite (ix_n_slots _ _ Hwf). apply lookup_lt_Some in Ht.
      unfold ids in Ht. by rewrite length_map in Ht.
    - rewrite Hdos. unfold day_of_slot_of.
      rewrite nth_lookup, list_lookup_fmap, Ht. simpl.
      rewrite (py_index_lookup (unique_days ix) d s); [done| |done].
      rewrite Hdays. by apply unique_days_NoDup. }
  intros E. rewrite E in Hmem. by apply elem_of_nil in Hmem.
Qed.

(** In a run that returned, every day has at least one reallocation target
    slot. *)
Lemma every_day_has_target {G} `{Generator G} carbon (r : Run) d :
  simulate carbon = Ok r → (d < n_days (run_index r))%nat →
  target_slots_of (run_index r) d ≠ [].
Proof.
  intros Hrun Hd. apply simulate_with_Ok in Hrun as (ix & Hix & ->).
  rewrite run_simulation_index in *. apply target_slots_nonempty.
  apply (every_day_has_slot elements carbon ix d); [|done..].
  intros X. reflexivity.
Qed.

(* ------------------------------------------------------------------------- *)
(** ** The profile curves                                                    *)
(* ------------------------------------------------------------------------- *)

(** X1.  At every half-hour index the demand multiplier lies between the
    overnight base 0.3 and the evening peak 1.3. *)
Theorem DUCK_CURVE_bounds (i : nat) : 0.3 <= DUCK_CURVE i ∧ DUCK_CURVE i <= 1.3.
Proof.
  assert (/ 2 == 1 # 2) as E2 by reflexivity.
  assert (/ 3 == 1 # 3) as E3 by reflexivity.
  assert (/ 4 == 1 # 4) as E4 by reflexivity.
  unfold DUCK_CURVE. generalize (hours i). intros h.
  cmp_cases; unfold Qdiv; rewrite ?E2, ?E3, ?E4; split; lra.
Qed.

(** X2.  At every half-hour index the flexible fraction lies between 0.15
    and 0.7: some demand is always flexible and never all of it. *)
Theorem FLEX_PROFILE_bounds (i : nat) : 0.15 <= FLEX_PROFILE i ∧ FLEX_PROFILE i <= 0.7.
Proof. unfold FLEX_PROFILE. generalize (hours i). intros h. cmp_cases; split; lra. Qed.

(* ------------------------------------------------------------------------- *)
(** ** Timestamps: parsing, formatting, rounding                             *)
(* ------------------------------------------------------------------------- *)

Lemma strptime_valid ts dt : strptime ts = Ok dt → valid_datetime dt = true.
Proof.
  unfold strptime. generalize (list_ascii_of_string ts). intros l.
  do 17 (destruct l as [|? l]; [discriminate|]). destruct l; [|discriminate].
  destruct (_ && _); [|discriminate].
  destruct (num4 _ _ _ _); [|discriminate].
  do 4 (destruct (num2 _ _); [|discriminate]).
  destruct (valid_datetime _) eqn:E; [|discriminate]. by intros [= <-].
Qed.

Lemma valid_datetime_bounds dt :
  valid_datetime dt = true →
  (1 ≤ dt_year dt ∧ 1 ≤ dt_month dt ≤ 12 ∧ 1 ≤ dt_day dt ≤ 31
   ∧ dt_hour dt ≤ 23 ∧ dt_minute dt ≤ 59)%nat.
Proof.
  unfold valid_datetime. rewrite !andb_true_iff, !Nat.leb_le.
  intros [[[[[[Hy Hm1] Hm2] Hd1] Hd2] Hh] Hn].
  assert (days_in_month (dt_year dt) (dt_month dt) ≤ 31)%nat.
  { unfold days_in_month. destruct (is_leap _); repeat case_match; lia. }
  lia.
Qed.

Lemma hod_idx_lt_48 dt : valid_datetime dt = true → (hod_idx dt < 48)%nat.
Proof.
  intros Hv. apply valid_datetime_bounds in Hv. unfold hod_idx.
  destruct (30 <=? dt_minute dt)%nat; lia.
Qed.

(** X3.  In a run that returned, every slot's half-hour-of-day index is one
    of 0..47, one per slot of the file: [DUCK_CURVE[slot_hod]] and
    [FLEX_PROFILE[slot_hod]] never index outside the 48-entry profiles. *)
Theorem slot_hod_in_range {G} `{Generator G} carbon (r : Run) :
  simulate carbon = Ok r →
  length (slot_hod (run_index r)) = length carbon
  ∧ Forall (λ h, (h < 48)%nat) (slot_hod (run_index r)).
Proof.
  intros Hrun. apply simulate_with_Ok in Hrun as (ix & Hix & ->).
  rewrite run_simulation_index. apply build_index_Ok in Hix.
  split; [by rewrite (ix_len_hod _ _ Hix), (ix_n_slots _ _ Hix)|].
  pose proof (ix_hod _ _ Hix) as Hhod. revert Hhod.
  generalize (slot_hod ix). clear. intros hods Hhod.
  induction Hhod as [|s h l hs (dt & Hdt & ->) _ IH]; constructor; [|exact IH].
  by apply hod_idx_lt_48, (strptime_valid (from_ s)).
Qed.

Lemma slot_hod_in_range_witness :
  @simulate (list Q) (TapeGen demo_tape) demo_carbon = Ok demo_run
  ∧ length (slot_hod (run_index demo_run)) = length demo_carbon
  ∧ Forall (λ h, (h < 48)%nat) (slot_hod (run_index demo_run)).
Proof.
  split; [exact demo_run_ok|].
  exact (slot_hod_in_range demo_carbon demo_run demo_run_ok).
Defined.

Lemma digit_digit_char n : (n < 10)%nat → digit (digit_char n) = Some n.
Proof.
  intros Hn. unfold digit, digit_char.
  rewrite nat_ascii_embedding by lia.
  replace (48 <=? 48 + n)%nat with true by (symmetry; apply Nat.leb_le; lia).
  replace (48 + n <=? 57)%nat with true by (symmetry; apply Nat.leb_le; lia).
  simpl. f_equal. lia.
Qed.

Lemma num2_digits n :
  (n < 100)%nat → num2 (digit_char (n / 10)) (digit_char (n mod 10)) = Some n.
Proof.
  intros Hn. unfold num2.
  assert (n / 10 < 10)%nat as Hq by (apply Nat.Div0.div_lt_upper_bound; lia).
  assert (n mod 10 < 10)%nat as Hm by (apply Nat.mod_upper_bound; lia).
  pose proof (Nat.div_mod_eq n 10) as E.
  rewrite !digit_digit_char by done.
  revert E. generalize (n / 10)%nat (n mod 10)%nat. intros q m E.
  cbn [mbind option_bind]. f_equal. lia.
Qed.

Lemma num4_digits n :
  (n < 100 * 100)%nat →
  num4 (digit_char (n / 100 / 10)) (digit_char ((n / 100) mod 10))
       (digit_char (n mod 100 / 10)) (digit_char ((n mod 100) mod 10)) = Some n.
Proof.
  intros Hn. unfold num4.
  assert (n / 100 < 100)%nat as Hq by (apply Nat.Div0.div_lt_upper_bound; lia).
  assert (n mod 100 < 100)%nat as Hm by (apply Nat.mod_upper_bound; lia).
  pose proof (Nat.div_mod_eq n 100) as E.
  rewrite !num2_digits by done.
  revert E. generalize (n / 100)%nat (n mod 100)%nat. intros q m E.
  cbn [mbind option_bind]. f_equal. lia.
Qed.

(** X4.  Round trip between the two programs: a timestamp that
    fetch_carbon.py writes with [strftime("%Y-%m-%dT%H:%MZ")] is read back by
    simulate.py's [strptime] as the same date and time (for a valid date
    with a four-digit year). *)
Theorem strptime_strftime_iso dt :
  valid_datetime dt = true →
  (1000 ≤ dt_year dt < 100 * 100)%nat →
  strptime (strftime_iso dt) = Ok dt.
Proof.
  intros Hv Hy. pose proof (valid_datetime_bounds dt Hv) as Hb.
  unfold strptime, strftime_iso. rewrite list_ascii_of_string_of_list_ascii.
  cbn [fmt4 fmt2 app Ascii.eqb Bool.eqb andb].
  rewrite num4_digits, !num2_digits by lia.
  destruct dt. simpl in *. by rewrite Hv.
Qed.

Lemma strptime_strftime_iso_witness :
  let dt := {| dt_year := 2026; dt_month := 1; dt_day := 31;
               dt_hour := 14; dt_minute := 30 |} in
  valid_datetime dt = true
  ∧ (1000 ≤ dt_year dt < 100 * 100)%nat
  ∧ strptime (strftime_iso dt) = Ok dt.
Proof.
  intros dt.
  assert (valid_datetime dt = true) as Hv by reflexivity.
  assert (1000 ≤ dt_year dt < 100 * 100)%nat as Hy by (simpl; lia).
  split; [exact Hv|]. split; [exact Hy|].
  exact (strptime_strftime_iso dt Hv Hy).
Defined.

(** X5.  [round_down_half_hour] lands on minute 0 or 30 with zero seconds
    and microseconds, keeps the date, the hour and the half-hour-of-day
    index, and rounding twice is rounding once. *)
Theorem round_down_half_hour_aligned (t : Timestamp) :
  let r := round_down_half_hour t in
  (dt_minute (ts_dt r) = 0%nat ∨ dt_minute (ts_dt r) = 30%nat)
  ∧ ts_second r = 0%nat ∧ ts_microsecond r = 0%nat
  ∧ dt_year (ts_dt r) = dt_year (ts_dt t)
  ∧ dt_month (ts_dt r) = dt_month (ts_dt t)
  ∧ dt_day (ts_dt r) = dt_day (ts_dt t)
  ∧ dt_hour (ts_dt r) = dt_hour (ts_dt t)
  ∧ hod_idx (ts_dt r) = hod_idx (ts_dt t)
  ∧ round_down_half_hour r = r.
Proof.
  unfold round_down_half_hour, hod_idx.
  cbn [ts_dt ts_second ts_microsecond dt_year dt_month dt_day dt_hour dt_minute].
  destruct (dt_minute (ts_dt t) <? 30)%nat eqn:E.
  - apply Nat.ltb_lt in E.
    replace (30 <=? dt_minute (ts_dt t))%nat with false
      by (symmetry; apply Nat.leb_gt; lia).
    repeat split; auto.
  - apply Nat.ltb_ge in E.
    replace (30 <=? dt_minute (ts_dt t))%nat with true
      by (symmetry; apply Nat.leb_le; lia).
    repeat split; auto.
Qed.

(** X6.  [round_down_half_hour] never moves a time forward and moves it back
    by less than half an hour. *)
Theorem round_down_half_hour_within (t : Timestamp) :
  (dt_minute (ts_dt t) ≤ 59)%nat → (ts_second t ≤ 59)%nat →
  (seconds_of_day (round_down_half_hour t) ≤ seconds_of_day t
   ∧ seconds_of_day t < seconds_of_day (round_down_half_hour t) + 1800)%nat.
Proof.
  intros Hm Hs. unfold seconds_of_day, round_down_half_hour. simpl.
  destruct (dt_minute (ts_dt t) <? 30)%nat eqn:E.
  - apply Nat.ltb_lt in E. lia.
  - apply Nat.ltb_ge in E. lia.
Qed.

Lemma round_down_half_hour_within_witness :
  let t := {| ts_dt := {| dt_year := 2026; dt_month := 2; dt_day := 7;
                          dt_hour := 14; dt_minute := 47 |};
              ts_second := 12; ts_microsecond := 345 |} in
  (dt_minute (ts_dt t) ≤ 59)%nat ∧ (ts_second t ≤ 59)%nat
  ∧ (seconds_of_day (round_down_half_hour t) ≤ seconds_of_day t
     ∧ seconds_of_day t < seconds_of_day (round_down_half_hour t) + 1800)%nat.
Proof.
  intros t.
  assert (dt_minute (ts_dt t) ≤ 59)%nat as Hm by (simpl; lia).
  assert (ts_second t ≤ 59)%nat as Hs by (simpl; lia).
  split; [exact Hm|]. split; [exact Hs|].
  exact (round_down_half_hour_within t Hm Hs).
Defined.

(* ------------------------------------------------------------------------- *)
(** ** Pass 2, slot by slot                                                  *)
(* ------------------------------------------------------------------------- *)

Lemma add_to_slots_frame a T l u : u ∉ T → at_ (add_to_slots a T l) u = at_ l u.
Proof.
  unfold add_to_slots. revert l. induction T as [|t T IH]; intros l Hu; [done|].
  apply not_elem_of_cons in Hu as [Hne Hu]. cbn [fold_left].
  rewrite IH by done. by apply at_insert_ne.
Qed.

Lemma add_to_slots_hit a T l u :
  NoDup T → u ∈ T → (u < length l)%nat →
  at_ (add_to_slots a T l) u = at_ l u + a.
Proof.
  unfold add_to_slots. revert l. induction T as [|t T IH]; intros l Hnd Hu Hlen.
  - by apply elem_of_nil in Hu.
  - apply NoDup_cons in Hnd as [Ht Hnd]. cbn [fold_left].
    destruct (decide (u = t)) as [->|Hne].
    + fold (add_to_slots a T (<[t:=at_ l t + a]> l)).
      rewrite add_to_slots_frame by done. by apply at_insert_eq.
    + apply elem_of_cons in Hu as [?|Hu]; [done|].
      rewrite IH; [|done|done|by rewrite length_insert].
      by rewrite at_insert_ne.
Qed.

Lemma bfilter_NoDup {A} (f : A → bool) (l : list A) : NoDup l → NoDup (List.filter f l).
Proof. intros Hl. by apply NoDup_ListNoDup, List.NoDup_filter, NoDup_ListNoDup. Qed.

Lemma target_slots_NoDup ix d : NoDup (target_slots_of ix d).
Proof.
  unfold target_slots_of.
  destruct (length (List.filter (λ t, preferred ix t && _) _) =? 0)%nat.
  - destruct (length (List.filter _ _) =? 0)%nat.
    + eapply sublist_NoDup; [apply day_slots_NoDup|apply sublist_take].
    + apply bfilter_NoDup, day_slots_NoDup.
  - apply bfilter_NoDup, day_slots_NoDup.
Qed.

Lemma pass2_day_frame ix sa sh d u :
  u ∉ target_slots_of ix d → at_ (pass2_day ix sa sh d) u = at_ sh u.
Proof.
  intros Hu. unfold pass2_day. destruct (Qleb _ 0); [done|].
  by apply add_to_slots_frame.
Qed.

Lemma pass2_prefix_frame ix sa sh ds u :
  (∀ d, d ∈ ds → u ∉ target_slots_of ix d) →
  at_ (fold_left (pass2_day ix sa) ds sh) u = at_ sh u.
Proof.
  revert sh. induction ds as [|d ds IH]; intros sh Hu; [done|].
  cbn [fold_left]. rewrite IH.
  - apply pass2_day_frame, Hu, list_elem_of_here.
  - intros d' Hd'. apply Hu. by apply list_elem_of_further.
Qed.

Lemma prefix_length_pass2 ix sa sh ds :
  length (fold_left (pass2_day ix sa) ds sh) = length sh.
Proof.
  revert sh. induction ds as [|d ds IH]; intros sh; [done|].
  cbn [fold_left]. by rewrite IH, pass2_day_length.
Qed.

(** A target slot of day [d] is touched by day [d] alone, and gets that
    day's [add_per_slot] once. *)
Lemma pass2_hit ix sa sh d u :
  length sh = n_slots ix → (d < n_days ix)%nat →
  u ∈ target_slots_of ix d → 0 < curtailed_kwh_of ix sa d →
  at_ (pass2 ix sa sh) u
  = at_ sh u + add_per_slot_of (curtailed_kwh_of ix sa d) (target_slots_of ix d).
Proof.
  intros Hlen Hd Hu Hpos. unfold pass2.
  assert (seq 0 (n_days ix) = seq 0 d ++ d :: seq (S d) (n_days ix - S d)) as ->.
  { replace (n_days ix) with (d + S (n_days ix - S d))%nat at 1 by lia.
    by rewrite seq_app. }
  assert (∀ d', d' ≠ d → u ∉ target_slots_of ix d') as Hother.
  { intros d' Hne Hin. apply target_slots_subset in Hin, Hu.
    by apply (day_slots_disjoint ix d' d u Hne Hu). }
  rewrite fold_left_app. cbn [fold_left].
  rewrite pass2_prefix_frame.
  2:{ intros d' Hd'. apply Hother. apply elem_of_seq in Hd'. lia. }
  unfold pass2_day at 1.
  replace (Qleb (curtailed_kwh_of ix sa d) 0) with false
    by (symmetry; by apply Qleb_gt).
  rewrite add_to_slots_hit.
  - rewrite pass2_prefix_frame; [done|].
    intros d' Hd'. apply Hother. apply elem_of_seq in Hd'. lia.
  - apply target_slots_NoDup.
  - done.
  - rewrite prefix_length_pass2, Hlen.
    apply target_slots_subset, elem_of_day_slots in Hu. lia.
Qed.

Lemma household_series_realloc {G} `{Generator G} ix hh (g : G) :
  length (slot_hod ix) = n_slots ix →
  SeriesRealloc ix (household_series ix hh g).1.
Proof.
  intros Hhod. unfold household_series, rbind.
  pose proof (gen_normal_vec_length 0 0.05 (n_slots ix) g) as Hdraws.
  destruct (gen_normal_vec 0 0.05 (n_slots ix) g) as [draws g1]. simpl in Hdraws.
  set (bl := baseline_of ix hh draws).
  set (fa := flex_available_of ix bl).
  set (md := max_daily_shift_energy_of hh bl ix).
  assert (length bl = n_slots ix) as Hbl by by apply baseline_of_length.
  assert (∀ t, (t < n_slots ix)%nat → 0.05 <= at_ bl t) as Hfloor
    by (intros t Ht; by apply baseline_of_floor).
  assert (∀ t, 0 <= at_ fa t) as Hfa.
  { intros t. unfold fa. rewrite flex_available_at by lia.
    apply Qmult_le_0_compat; [|apply FLEX_PROFILE_nonneg].
    destruct (decide (t < n_slots ix)%nat) as [Hlt|Hge].
    - specialize (Hfloor t Hlt). lra.
    - rewrite at_ge by lia. lra. }
  destruct (pass1_inv ix hh bl fa md Hbl Hfloor Hfa g1) as (Hl1 & Hl2 & _ & Hslots).
  set (st := pass1 ix hh bl fa md g1) in *. simpl.
  split; simpl.
  - intros t. destruct (Hslots t) as (E & _).
    pose proof (pass2_ge ix (p1_shift_amount st) (p1_shifted st) t). lra.
  - intros t Ht. destruct (Hslots t) as (E & _).
    unfold pass2. rewrite pass2_prefix_frame; [done|].
    intros d Hd. apply Ht. apply elem_of_seq in Hd. lia.
  - intros d t Hd Ht Hpos. destruct (Hslots t) as (E & _).
    rewrite (pass2_hit ix _ _ d t Hl1 Hd Ht Hpos). lra.
Qed.

Lemma simulate_series_realloc {G} `{Generator G} carbon (r : Run) hi s :
  simulate carbon = Ok r → run_series r !! hi = Some s →
  SeriesRealloc (run_index r) s.
Proof.
  intros Hrun Hs. apply simulate_with_Ok in Hrun as (ix & Hix & ->).
  apply build_index_Ok in Hix. rewrite run_simulation_index.
  assert (Forall (SeriesRealloc ix) (run_series (run_simulation carbon ix))) as Hall.
  { unfold run_simulation. destruct (gen_households _) as [hhs g1].
    pose proof (rmapM_Forall (household_series ix) (SeriesRealloc ix) hhs g1
                  (λ hh g, household_series_realloc ix hh g (ix_len_hod _ _ Hix))) as Hall.
    unfold all_series. by destruct (rmapM (household_series ix) hhs g1). }
  rewrite Forall_lookup in Hall. by eapply Hall.
Qed.



(** X8.  Reallocation changes target slots only: a slot that is a target
    slot of no day ends at its baseline minus its recorded curtailment. *)
Theorem reallocation_touches_targets_only {G} `{Generator G} carbon (r : Run) hi s t :
  simulate carbon = Ok r →
  run_series r !! hi = Some s →
  (∀ d, (d < n_days (run_index r))%nat → t ∉ target_slots_of (run_index r) d) →
  at_ (shifted s) t == at_ (baseline s) t - at_ (shift_amount s) t.
Proof.
  intros Hrun Hs Ht.
  apply (re_frame _ _ (simulate_series_realloc carbon r hi s Hrun Hs) t Ht).
Qed.

(** X9.  Reallocation is even: in a day with curtailed energy every target
    slot ends at baseline minus curtailment plus the same
    [curtailed_kwh / (len(target_slots) * 0.5)] kW. *)
Theorem reallocation_is_even {G} `{Generator G} carbon (r : Run) hi s d t :
  simulate carbon = Ok r →
  run_series r !! hi = Some s →
  (d < n_days (run_index r))%nat →
  t ∈ target_slots_of (run_index r) d →
  0 < curtailed_kwh_of (run_index r) (shift_amount s) d →
  at_ (shifted s) t
  == at_ (baseline s) t - at_ (shift_amount s) t
     + add_per_slot_of (curtailed_kwh_of (run_index r) (shift_amount s) d)
                       (target_slots_of (run_index r) d).
Proof.
  intros Hrun Hs Hd Ht Hpos.
  apply (re_even _ _ (simulate_series_realloc carbon r hi s Hrun Hs) d t Hd Ht Hpos).
Qed.

Lemma demo_run_index : run_index demo_run = demo_index.
Proof. apply run_simulation_index. Qed.

Lemma demo_targets : target_slots_of demo_index 0 = [0; 3]%nat.
Proof. vm_compute. reflexivity. Qed.

Lemma reallocation_touches_targets_only_witness :
  @simulate (list Q) (TapeGen demo_tape) demo_carbon = Ok demo_run
  ∧ run_series demo_run !! 0%nat = Some demo_series
  ∧ (∀ d, (d < n_days (run_index demo_run))%nat →
          1%nat ∉ target_slots_of (run_index demo_run) d)
  ∧ at_ (shifted demo_series) 1
    == at_ (baseline demo_series) 1 - at_ (shift_amount demo_series) 1.
Proof.
  assert (∀ d, (d < n_days (run_index demo_run))%nat →
               1%nat ∉ target_slots_of (run_index demo_run) d) as Ht.
  { rewrite demo_run_index. intros d Hd.
    assert (d = 0%nat) as -> by (vm_compute in Hd; lia).
    rewrite demo_targets. intros Hin.
    apply elem_of_cons in Hin as [?|Hin]; [done|].
    apply elem_of_cons in Hin as [?|Hin]; [done|]. by apply elem_of_nil in Hin. }
  split; [exact demo_run_ok|]. split; [exact demo_series_lookup|]. split; [exact Ht|].
  exact (reallocation_touches_targets_only demo_carbon demo_run 0%nat demo_series 1%nat
           demo_run_ok demo_series_lookup Ht).
Defined.

Lemma reallocation_is_even_witness :
  @simulate (list Q) (TapeGen demo_tape) demo_carbon = Ok demo_run
  ∧ run_series demo_run !! 0%nat = Some demo_series
  ∧ (0 < n_days (run_index demo_run))%nat
  ∧ 3%nat ∈ target_slots_of (run_index demo_run) 0
  ∧ 0 < curtailed_kwh_of (run_index demo_run) (shift_amount demo_series) 0
  ∧ at_ (shifted demo_series) 3
    == at_ (baseline demo_series) 3 - at_ (shift_amount demo_series) 3
       + add_per_slot_of
           (curtailed_kwh_of (run_index demo_run) (shift_amount demo_series) 0)
           (target_slots_of (run_index demo_run) 0).
Proof.
  assert (0 < n_days (run_index demo_run))%nat as Hd
    by (rewrite demo_run_index; vm_compute; lia).
  assert (3%nat ∈ target_slots_of (run_index demo_run) 0) as Ht.
  { rewrite demo_run_index, demo_targets.
    apply list_elem_of_further, list_elem_of_here. }
  assert (0 < curtailed_kwh_of (run_index demo_run) (shift_amount demo_series) 0) as Hpos.
  { rewrite demo_run_index. vm_compute. reflexivity. }
  split; [exact demo_run_ok|]. split; [exact demo_series_lookup|].
  split; [exact Hd|]. split; [exact Ht|]. split; [exact Hpos|].
  exact (reallocation_is_even demo_carbon demo_run 0%nat demo_series 0%nat 3%nat
           demo_run_ok demo_series_lookup Hd Ht Hpos).
Defined.

(* ------------------------------------------------------------------------- *)
(** ** Slot events                                                           *)
(* ------------------------------------------------------------------------- *)

(** [int(x) >= 150] on the truncated value is [x >= 150] on the value. *)
Lemma py_int_threshold (x : Q) : (150 <=? py_int x)%Z = true ↔ HIGH_THRESHOLD <= x.
Proof.
  unfold py_int, HIGH_THRESHOLD, Qle. destruct x as [n d]. simpl.
  rewrite Z.leb_le. split; intros Hle.
  - destruct (Z.lt_ge_cases n 0) as [Hneg|Hnn].
    + assert (0 ≤ (- n) ÷ Z.pos d)%Z as Hq by (apply Z.quot_pos; lia).
      rewrite Z.quot_opp_l in Hq by lia. lia.
    + rewrite Z.quot_div_nonneg in Hle by lia.
      pose proof (Z.mul_div_le n (Z.pos d) ltac:(lia)). nia.
  - rewrite Z.quot_div_nonneg by lia.
    apply Z.div_le_lower_bound; lia.
Qed.

(** X10.  The events list has one record per slot of the file, and the
    record of slot [t] is flagged [flex_requested] exactly when the slot's
    intensity is at least 150: truncating the intensity to an integer before
    the test (line 289) never disagrees with the test Pass 1 makes on the
    value itself (line 190). *)
Theorem flex_requested_iff_high_carbon {G} `{Generator G} carbon (r : Run) t e :
  simulate carbon = Ok r →
  events (flex_output r) !! t = Some e →
  length (events (flex_output r)) = length carbon
  ∧ (flex_requested e = true ↔ HIGH_THRESHOLD <= at_ (intensities (run_index r)) t)
  ∧ intensity_actual e = py_int (at_ (intensities (run_index r)) t).
Proof.
  intros Hrun He. apply simulate_with_Ok in Hrun as (ix & Hix & ->).
  apply build_index_Ok in Hix. rewrite run_simulation_index.
  rewrite run_events in *. unfold flex_events_of in *.
  apply list_lookup_fmap_Some in He as (u & -> & Hu).
  apply lookup_seq in Hu as [-> _].
  rewrite length_map, length_seq, slot_event_flex_requested, slot_event_intensity_actual.
  split; [apply (ix_n_slots _ _ Hix)|]. split; [apply py_int_threshold|done].
Qed.

Lemma flex_requested_iff_high_carbon_witness :
  @simulate (list Q) (TapeGen demo_tape) demo_carbon = Ok demo_run
  ∧ events (flex_output demo_run) !! 1%nat = Some demo_event
  ∧ length (events (flex_output demo_run)) = length demo_carbon
  ∧ (flex_requested demo_event = true
     ↔ HIGH_THRESHOLD <= at_ (intensities (run_index demo_run)) 1)
  ∧ intensity_actual demo_event = py_int (at_ (intensities (run_index demo_run)) 1).
Proof.
  assert (events (flex_output demo_run) !! 1%nat = Some demo_event) as He.
  { apply run_events_lookup. vm_compute. lia. }
  split; [exact demo_run_ok|]. split; [exact He|].
  exact (flex_requested_iff_high_carbon demo_carbon demo_run 1%nat demo_event
           demo_run_ok He).
Defined.

Lemma participant_steps_keep hhs saa t his acc p :
  p ∈ acc.1 → p ∈ (fold_left (participant_step hhs saa t) his acc).1.
Proof.
  revert acc. induction his as [|hi his IH]; intros acc Hp; [done|].
  cbn [fold_left]. apply IH. unfold participant_step.
  destruct (Qltb 0.001 _); [|done]. simpl. apply elem_of_app. by left.
Qed.

Lemma participant_steps_complete hhs saa t his acc hi :
  hi ∈ his → 0.001 < at2 saa hi t →
  {| part_id := hh_id (household_at hhs hi); shifted_kw := py_round (at2 saa hi t) 3 |}
  ∈ (fold_left (participant_step hhs saa t) his acc).1.
Proof.
  intros Hin Hsk. revert acc. induction his as [|h his IH]; intros acc.
  - by apply elem_of_nil in Hin.
  - cbn [fold_left]. apply elem_of_cons in Hin as [<-|Hin]; [|by apply IH].
    apply participant_steps_keep. unfold participant_step.
    replace (Qltb 0.001 (at2 saa hi t)) with true by (symmetry; by apply Qltb_lt).
    simpl. apply elem_of_app. right. apply list_elem_of_here.
Qed.

Lemma at2_map_shift_amount (series : list Series) hi s t :
  series !! hi = Some s → at2 (map shift_amount series) hi t = at_ (shift_amount s) t.
Proof.
  intros Hs. unfold at2. f_equal.
  rewrite nth_lookup, list_lookup_fmap, Hs. done.
Qed.

Lemma curtailment_high_carbon_aux ix s t :
  SeriesOK ix s → 0 < at_ (shift_amount s) t →
  HIGH_THRESHOLD <= at_ (intensities ix) t.
Proof.
  intros Hok Hpos.
  destruct (Qltb (at_ (intensities ix) t) HIGH_THRESHOLD) eqn:E.
  - rewrite (ok_curtail_high _ _ Hok t E) in Hpos. lra.
  - by apply Qltb_ge in E.
Qed.

(** X11.  Every household whose curtailment at a slot exceeds 0.001 kW is
    listed among the participants of that slot's event, under its own id and
    with that curtailment rounded to three decimals. *)
Theorem curtailing_household_is_listed {G} `{Generator G} carbon (r : Run) hi hh s t :
  simulate carbon = Ok r →
  run_households r !! hi = Some hh →
  run_series r !! hi = Some s →
  0.001 < at_ (shift_amount s) t →
  ∃ e, events (flex_output r) !! t = Some e
       ∧ {| part_id := hh_id hh; shifted_kw := py_round (at_ (shift_amount s) t) 3 |}
         ∈ participants e.
Proof.
  intros Hrun Hhh Hs Hsk.
  destruct (simulate_series_ok carbon r hi s Hrun Hs) as [_ Hok].
  assert (HIGH_THRESHOLD <= at_ (intensities (run_index r)) t) as Hhigh.
  { apply (curtailment_high_carbon_aux (run_index r) s t Hok). lra. }
  assert (t < n_slots (run_index r))%nat as Ht.
  { destruct (decide (t < n_slots (run_index r))%nat) as [|Hge]; [done|].
    rewrite at_ge in Hsk; [lra|]. rewrite (ok_len_shift_amount _ _ Hok). lia. }
  assert (hi < N_HOUSEHOLDS)%nat as Hhi.
  { apply lookup_lt_Some in Hs. apply simulate_with_Ok in Hrun as (ix & _ & ->).
    by rewrite (proj2 (run_simulation_sizes carbon ix)) in Hs. }
  apply simulate_with_Ok in Hrun as (ix & _ & ->).
  rewrite run_simulation_index in *.
  eexists. split; [by apply run_events_lookup|].
  rewrite slot_event_participants by by apply py_int_threshold.
  rewrite <- (at2_map_shift_amount _ hi s t Hs).
  replace hh with (household_at (run_households (run_simulation carbon ix)) hi).
  - apply participant_steps_complete; [apply elem_of_seq; lia|].
    by rewrite (at2_map_shift_amount _ hi s t Hs).
  - unfold household_at. by rewrite nth_lookup, Hhh.
Qed.

Lemma demo_household_lookup : run_households demo_run !! 0%nat = Some demo_household.
Proof.
  apply lookup_nth. unfold demo_run.
  rewrite (proj1 (run_simulation_sizes demo_carbon demo_index)).
  unfold N_HOUSEHOLDS. lia.
Qed.

Lemma curtailing_household_is_listed_witness :
  @simulate (list Q) (TapeGen demo_tape) demo_carbon = Ok demo_run
  ∧ run_households demo_run !! 0%nat = Some demo_household
  ∧ run_series demo_run !! 0%nat = Some demo_series
  ∧ 0.001 < at_ (shift_amount demo_series) 1
  ∧ ∃ e, events (flex_output demo_run) !! 1%nat = Some e
         ∧ {| part_id := hh_id demo_household;
              shifted_kw := py_round (at_ (shift_amount demo_series) 1) 3 |}
           ∈ participants e.
Proof.
  assert (0.001 < at_ (shift_amount demo_series) 1) as Hsk by (vm_compute; reflexivity).
  split; [exact demo_run_ok|]. split; [exact demo_household_lookup|].
  split; [exact demo_series_lookup|]. split; [exact Hsk|].
  exact (curtailing_household_is_listed demo_carbon demo_run 0%nat demo_household
           demo_series 1%nat demo_run_ok demo_household_lookup demo_series_lookup Hsk).
Defined.

(* ------------------------------------------------------------------------- *)
(** ** Rewards                                                               *)
(* ------------------------------------------------------------------------- *)

Lemma fold_py_min_le_init (l : list Q) (a : Q) : fold_left py_min l a <= a.
Proof.
  revert a. induction l as [|x l IH]; intros a; simpl; [lra|].
  eapply Qle_trans; [apply IH|apply py_min_le_l].
Qed.

Lemma py_min_le_r (a b : Q) : py_min a b <= b.
Proof. unfold py_min. cmp_cases; lra. Qed.

Lemma fold_py_min_le_elem (l : list Q) (a x : Q) : x ∈ l → fold_left py_min l a <= x.
Proof.
  revert a. induction l as [|y l IH]; intros a Hx; [by apply elem_of_nil in Hx|].
  simpl. apply elem_of_cons in Hx as [->|Hx]; [|by apply IH].
  eapply Qle_trans; [apply fold_py_min_le_init|apply py_min_le_r].
Qed.

(** [np.min] is at most every element. *)
Lemma np_min_le (l : list Q) (x : Q) : x ∈ l → np_min l <= x.
Proof.
  destruct l as [|a l]; intros Hx; [by apply elem_of_nil in Hx|]. simpl.
  apply elem_of_cons in Hx as [->|Hx].
  - apply fold_py_min_le_init.
  - by apply fold_py_min_le_elem.
Qed.

Lemma reward_household_inv saa t delta r hi :
  0 <= delta → RewardsInv r → RewardsInv (reward_household saa t delta r hi).
Proof.
  intros Hd (L1 & L2 & L3 & Hall). unfold reward_household.
  destruct (Qltb 0 (at2 saa hi t)) eqn:E; [|done]. apply Qltb_lt in E.
  unfold RewardsInv. simpl. rewrite !length_insert.
  split; [done|]. split; [done|]. split; [done|]. intros k.
  destruct (Hall k) as (Hc & Hr & Ht).
  assert (0 <= at2 saa hi t * 0.5 * delta) as Hprod.
  { apply Qmult_le_0_compat; [lra|done]. }
  destruct (decide (k = hi)) as [->|Hne].
  - destruct (decide (hi < N_HOUSEHOLDS)%nat) as [Hlt|Hge].
    + rewrite !at_insert_eq by lia.
      assert (at2 saa hi t * 0.5 * delta / 1000 * 1000 == at2 saa hi t * 0.5 * delta) as Ef
        by (field; lra).
      assert (0 <= at2 saa hi t * 0.5 * delta / 1000) as Hq.
      { apply Qle_shift_div_l; lra. }
      repeat split; lra.
    + rewrite !list_insert_ge by lia. done.
  - rewrite !at_insert_ne by done. done.
Qed.

Lemma reward_slot_inv ix saa day_low r t :
  day_low <= at_ (intensities ix) t → RewardsInv r →
  RewardsInv (reward_slot ix saa day_low r t).
Proof.
  intros Hlow Hr. unfold reward_slot. destruct (Qltb _ HIGH_THRESHOLD); [done|].
  generalize (seq 0 N_HOUSEHOLDS). intros his. revert r Hr.
  induction his as [|hi his IH]; intros r Hr; [done|].
  cbn [fold_left]. apply IH, reward_household_inv; [lra|done].
Qed.

Lemma reward_day_inv ix saa r d : RewardsInv r → RewardsInv (reward_day ix saa r d).
Proof.
  intros Hr. unfold reward_day.
  set (day_low := if (0 <? _)%nat then _ else _).
  assert (∀ t, t ∈ day_slots_of ix d → day_low <= at_ (intensities ix) t) as Hlow.
  { intros t Ht. unfold day_low.
    destruct (0 <? length (day_slots_of ix d))%nat eqn:E.
    - apply np_min_le. apply list_elem_of_In, in_map, list_elem_of_In, Ht.
    - apply Nat.ltb_ge in E. destruct (day_slots_of ix d); [|simpl in E; lia].
      by apply elem_of_nil in Ht. }
  revert Hlow. generalize (day_slots_of ix d) day_low. intros ts low Hlow. revert r Hr.
  induction ts as [|t ts IH]; intros r Hr; [done|].
  cbn [fold_left]. apply IH.
  - intros u Hu. apply Hlow. by apply list_elem_of_further.
  - apply reward_slot_inv; [apply Hlow, list_elem_of_here|done].
Qed.

Lemma compute_rewards_inv ix saa : RewardsInv (compute_rewards ix saa).
Proof.
  unfold compute_rewards.
  assert (RewardsInv {| hh_rewards := repeat 0 N_HOUSEHOLDS;
                        hh_total_shifted_kwh := repeat 0 N_HOUSEHOLDS;
                        hh_carbon_avoided := repeat 0 N_HOUSEHOLDS |}) as Hinit.
  { unfold RewardsInv. cbn [hh_rewards hh_total_shifted_kwh hh_carbon_avoided].
    rewrite !repeat_length. repeat split; rewrite ?at_repeat_zero; lra. }
  revert Hinit. generalize (seq 0 (n_days ix)).
  intros ds. generalize {| hh_rewards := repeat 0 N_HOUSEHOLDS;
                           hh_total_shifted_kwh := repeat 0 N_HOUSEHOLDS;
                           hh_carbon_avoided := repeat 0 N_HOUSEHOLDS |}.
  induction ds as [|d ds IH]; intros r Hr; [done|].
  cbn [fold_left]. by apply IH, reward_day_inv.
Qed.

Lemma run_rewards_eq {G} `{Generator G} carbon ix :
  run_rewards (run_simulation carbon ix)
  = compute_rewards ix (map shift_amount (run_series (run_simulation carbon ix))).
Proof.
  unfold run_simulation. destruct (gen_households _) as [hhs g1].
  by destruct (all_series ix hhs g1).
Qed.



Lemma round_half_even_nonneg y : 0 <= y → (0 ≤ round_half_even y)%Z.
Proof.
  intros Hy. etrans; [|apply round_half_even_ge_floor].
  change 0%Z with (Qfloor 0). by apply Qfloor_resp_le.
Qed.

Lemma py_round_nonneg x nd : 0 <= x → 0 <= py_round x nd.
Proof.
  intros Hx. unfold py_round.
  assert (0 < inject_Z (10 ^ Z.of_nat nd)) as Hpow.
  { change 0 with (inject_Z 0). rewrite <- Zlt_Qlt. apply Z.pow_pos_nonneg; lia. }
  apply Qle_shift_div_l; [done|]. rewrite Qmult_0_l.
  change 0 with (inject_Z 0). rewrite <- Zle_Qle. apply round_half_even_nonneg.
  apply Qmult_le_0_compat; lra.
Qed.

Lemma run_households_out {G} `{Generator G} carbon ix :
  households (flex_output (run_simulation carbon ix))
  = households_out (run_households (run_simulation carbon ix))
                   (run_rewards (run_simulation carbon ix)).
Proof.
  unfold run_simulation. destruct (gen_households _) as [hhs g1].
  by destruct (all_series ix hhs g1).
Qed.

(** X13.  No household is reported with negative tokens, negative carbon
    avoided or negative shifted energy: a high-carbon slot's intensity is
    never below its day's minimum, and only positive curtailments count. *)
Theorem reported_totals_nonnegative {G} `{Generator G} carbon (r : Run) i h :
  simulate carbon = Ok r →
  households (flex_output r) !! i = Some h →
  0 <= tokens_earned h ∧ 0 <= carbon_avoided_gCO2 h ∧ 0 <= out_total_shifted_kwh h.
Proof.
  intros Hrun Hh. apply simulate_with_Ok in Hrun as (ix & _ & ->).
  rewrite run_households_out, run_rewards_eq in Hh.
  apply list_elem_of_lookup_2, elem_of_lookup_imap_1 in Hh as (k & hh & -> & _).
  destruct (compute_rewards_inv ix
              (map shift_amount (run_series (run_simulation carbon ix))))
    as (_ & _ & _ & Hall).
  destruct (Hall k) as (Hc & Hr & Ht).
  cbn [tokens_earned carbon_avoided_gCO2 out_total_shifted_kwh].
  repeat split; apply py_round_nonneg; lra.
Qed.

Lemma demo_household_out_lookup :
  households (flex_output demo_run) !! 0%nat = Some demo_household_out.
Proof.
  unfold demo_run. rewrite run_households_out. unfold households_out.
  rewrite list_lookup_imap. fold demo_run. by rewrite demo_household_lookup.
Qed.

Lemma reported_totals_nonnegative_witness :
  @simulate (list Q) (TapeGen demo_tape) demo_carbon = Ok demo_run
  ∧ households (flex_output demo_run) !! 0%nat = Some demo_household_out
  ∧ 0 <= tokens_earned demo_household_out
  ∧ 0 <= carbon_avoided_gCO2 demo_household_out
  ∧ 0 <= out_total_shifted_kwh demo_household_out.
Proof.
  split; [exact demo_run_ok|]. split; [exact demo_household_out_lookup|].
  exact (reported_totals_nonnegative demo_carbon demo_run 0%nat demo_household_out
           demo_run_ok demo_household_out_lookup).
Defined.

Lemma np_sum_app (l k : list Q) : np_sum (l ++ k) == np_sum l + np_sum k.
Proof. induction l as [|x l IH]; simpl; lra. Qed.

Lemma sum_at_app (l : list Q) (S T : list nat) :
  sum_at l (S ++ T) == sum_at l S + sum_at l T.
Proof. unfold sum_at. rewrite map_app. apply np_sum_app. Qed.

Lemma sum_at_seq_all (l : list Q) : sum_at l (seq 0 (length l)) = np_sum l.
Proof.
  unfold sum_at. f_equal. apply list_eq. intros i.
  rewrite list_lookup_fmap. destruct (decide (i < length l)%nat) as [Hlt|Hge].
  - rewrite lookup_seq_lt by done. simpl. unfold at_.
    destruct (lookup_lt_is_Some_2 l i Hlt) as [x Hx]. by rewrite nth_lookup, Hx.
  - rewrite lookup_seq_ge by lia. simpl. symmetry. apply lookup_ge_None. lia.
Qed.

Lemma np_sum_cons (x : Q) (l : list Q) : np_sum (x :: l) = x + np_sum l.
Proof. reflexivity. Qed.

(** The slots of the first [k] days, taken day by day, are the slots whose
    day index is below [k]. *)
Lemma sum_days_prefix ix (l : list Q) (k : nat) :
  np_sum (map (λ d, sum_at l (day_slots_of ix d)) (seq 0 k))
  == sum_at l (List.filter (λ t, (nth t (day_of_slot ix) 0 <? k)%nat)
                           (seq 0 (n_slots ix))).
Proof.
  induction k as [|k IH].
  - cbn [seq map np_sum fold_right]. unfold sum_at.
    induction (seq 0 (n_slots ix)) as [|t ts IHt]; [reflexivity|].
    cbn [List.filter]. replace (nth t (day_of_slot ix) 0%nat <? 0)%nat with false; [exact IHt|].
    symmetry. apply Nat.ltb_ge. lia.
  - rewrite seq_S, map_app, np_sum_app, IH.
    cbn [Nat.add map np_sum fold_right]. unfold day_slots_of.
    generalize (seq 0 (n_slots ix)). intros ts. unfold sum_at.
    induction ts as [|t ts IHt]; [cbn [List.filter map np_sum fold_right]; lra|].
    cbn [List.filter].
    destruct (Nat.ltb_spec (nth t (day_of_slot ix) 0%nat) k) as [H1|H1];
      destruct (Nat.eqb_spec (nth t (day_of_slot ix) 0%nat) k) as [H2|H2];
      destruct (Nat.ltb_spec (nth t (day_of_slot ix) 0%nat) (S k)) as [H3|H3];
      try lia; cbn [map]; rewrite ?np_sum_cons; lra.
Qed.

Lemma bfilter_all {A} (f : A → bool) (l : list A) :
  (∀ x, x ∈ l → f x = true) → List.filter f l = l.
Proof.
  induction l as [|x l IH]; intros Hf; [done|]. simpl.
  rewrite (Hf x) by apply list_elem_of_here. f_equal.
  apply IH. intros y Hy. apply Hf. by apply list_elem_of_further.
Qed.

(** When every slot belongs to one of the days, the days partition the
    slots. *)
Lemma sum_days_all ix (l : list Q) :
  length l = n_slots ix →
  (∀ t, (t < n_slots ix)%nat → (nth t (day_of_slot ix) 0 < n_days ix)%nat) →
  np_sum (map (λ d, sum_at l (day_slots_of ix d)) (seq 0 (n_days ix))) == np_sum l.
Proof.
  intros Hlen Hday. rewrite sum_days_prefix, bfilter_all.
  - by rewrite <- Hlen, sum_at_seq_all.
  - intros t Ht. apply elem_of_seq in Ht. apply Nat.ltb_lt, Hday. lia.
Qed.

Lemma py_index_lt (l : list string) (s : string) (i : nat) :
  py_index s l = Some i → (i < length l)%nat.
Proof.
  revert i. induction l as [|x l IH]; intros i; simpl; [done|].
  destruct (String.eqb x s).
  - intros [= <-]. lia.
  - destruct (py_index s l) as [j|]; simpl; [|done].
    intros [= <-]. specialize (IH j eq_refl). lia.
Qed.

(** In the index of a file every slot's day index is one of the days. *)
Lemma day_of_slot_in_range iter carbon ix t :
  build_index iter carbon = Ok ix →
  (nth t (day_of_slot ix) 0 < n_days ix ∨ n_days ix = 0)%nat.
Proof.
  intros Hix. destruct (build_index_days _ _ _ Hix) as [_ Hdos].
  destruct (n_days ix) as [|k] eqn:Ek; [by right|left].
  rewrite Hdos. unfold day_of_slot_of. rewrite nth_lookup, list_lookup_fmap.
  destruct (_ !! t) as [d|]; simpl; [|lia].
  destruct (py_index d (unique_days ix)) as [i|] eqn:Ei; simpl; [|lia].
  apply py_index_lt in Ei. unfold n_days in Ek. lia.
Qed.

(* ------------------------------------------------------------------------- *)
(** ** The total shifted energy of a household                               *)
(* ------------------------------------------------------------------------- *)

Lemma np_sum_map_ext {A} (f g : A → Q) (l : list A) :
  (∀ x, x ∈ l → f x == g x) → np_sum (map f l) == np_sum (map g l).
Proof.
  induction l as [|x l IH]; intros Hfg; [reflexivity|].
  cbn [map]. rewrite !np_sum_cons.
  pose proof (Hfg x (list_elem_of_here _ _)) as Hx.
  assert (np_sum (map f l) == np_sum (map g l)) as Hl
    by (apply IH; intros y Hy; apply Hfg; by apply list_elem_of_further).
  lra.
Qed.

Lemma np_sum_map_scale {A} (f : A → Q) (c : Q) (l : list A) :
  np_sum (map (λ x, f x * c) l) == np_sum (map f l) * c.
Proof.
  induction l as [|x l IH]; [cbn; lra|].
  cbn [map]. rewrite !np_sum_cons, IH. ring.
Qed.

Lemma reward_household_total_length saa t delta r hi :
  length (hh_total_shifted_kwh (reward_household saa t delta r hi))
  = length (hh_total_shifted_kwh r).
Proof.
  unfold reward_household. destruct (Qltb 0 _); [|done].
  cbn [hh_total_shifted_kwh]. by rewrite length_insert.
Qed.

(** Household [hi]'s step changes entry [hi] of the totals and no other. *)
Lemma reward_household_total saa t delta r hi k :
  (hi < length (hh_total_shifted_kwh r))%nat →
  at_ (hh_total_shifted_kwh (reward_household saa t delta r hi)) k
  == at_ (hh_total_shifted_kwh r) k
     + (if (k =? hi)%nat
        then (if Qltb 0 (at2 saa k t) then at2 saa k t * 0.5 else 0) else 0).
Proof.
  intros Hlen. unfold reward_household.
  destruct (Nat.eqb_spec k hi) as [->|Hne].
  - destruct (Qltb 0 (at2 saa hi t)); [|lra].
    cbn [hh_total_shifted_kwh]. rewrite at_insert_eq by done. lra.
  - destruct (Qltb 0 (at2 saa hi t)); [|lra].
    cbn [hh_total_shifted_kwh]. rewrite at_insert_ne by done. lra.
Qed.

Lemma reward_households_total saa t delta his r k :
  (∀ hi, hi ∈ his → (hi < length (hh_total_shifted_kwh r))%nat) →
  at_ (hh_total_shifted_kwh (fold_left (reward_household saa t delta) his r)) k
  == at_ (hh_total_shifted_kwh r) k
     + np_sum (map (λ hi, if (k =? hi)%nat
                          then (if Qltb 0 (at2 saa k t) then at2 saa k t * 0.5 else 0)
                          else 0) his)
  ∧ length (hh_total_shifted_kwh (fold_left (reward_household saa t delta) his r))
    = length (hh_total_shifted_kwh r).
Proof.
  revert r. induction his as [|hi his IH]; intros r Hhis.
  - cbn [fold_left map]. split; [cbn; lra|done].
  - cbn [fold_left map]. rewrite np_sum_cons.
    destruct (IH (reward_household saa t delta r hi)) as [E L].
    { intros h Hh. rewrite reward_household_total_length.
      apply Hhis. by apply list_elem_of_further. }
    rewrite L, reward_household_total_length. split; [|done].
    rewrite E, reward_household_total by apply Hhis, list_elem_of_here. lra.
Qed.

Lemma np_sum_pick (k : nat) (c : Q) (a n : nat) :
  np_sum (map (λ hi, if (k =? hi)%nat then c else 0) (seq a n))
  == if ((a <=? k) && (k <? a + n))%nat then c else 0.
Proof.
  revert a. induction n as [|n IH]; intros a.
  - cbn [seq map]. change (np_sum []) with 0.
    destruct (Nat.leb_spec a k); destruct (Nat.ltb_spec k (a + 0));
      cbn [andb]; try lia; lra.
  - cbn [seq map]. rewrite np_sum_cons, IH.
    destruct (Nat.eqb_spec k a) as [Heq|Hne];
      destruct (Nat.leb_spec (S a) k); destruct (Nat.leb_spec a k);
      destruct (Nat.ltb_spec k (S a + n)); destruct (Nat.ltb_spec k (a + S n));
      cbn [andb]; try lia; lra.
Qed.

Lemma reward_slot_total ix saa day_low r t k :
  length (hh_total_shifted_kwh r) = N_HOUSEHOLDS → (k < N_HOUSEHOLDS)%nat →
  at_ (hh_total_shifted_kwh (reward_slot ix saa day_low r t)) k
  == at_ (hh_total_shifted_kwh r) k + slot_shifted_kwh ix saa k t
  ∧ length (hh_total_shifted_kwh (reward_slot ix saa day_low r t)) = N_HOUSEHOLDS.
Proof.
  intros Hlen Hk. unfold reward_slot, slot_shifted_kwh.
  destruct (Qltb (at_ (intensities ix) t) HIGH_THRESHOLD); [split; [lra|done]|].
  destruct (reward_households_total saa t (at_ (intensities ix) t - day_low)
              (seq 0 N_HOUSEHOLDS) r k) as [E L].
  { intros hi Hhi. apply elem_of_seq in Hhi. lia. }
  rewrite L. split; [|done]. rewrite E, np_sum_pick.
  replace ((0 <=? k) && (k <? 0 + N_HOUSEHOLDS))%nat with true; [lra|].
  symmetry. apply andb_true_iff. split; [apply Nat.leb_le; lia|apply Nat.ltb_lt; lia].
Qed.

Lemma reward_slots_total ix saa day_low ts r k :
  length (hh_total_shifted_kwh r) = N_HOUSEHOLDS → (k < N_HOUSEHOLDS)%nat →
  at_ (hh_total_shifted_kwh (fold_left (reward_slot ix saa day_low) ts r)) k
  == at_ (hh_total_shifted_kwh r) k + np_sum (map (slot_shifted_kwh ix saa k) ts)
  ∧ length (hh_total_shifted_kwh (fold_left (reward_slot ix saa day_low) ts r))
    = N_HOUSEHOLDS.
Proof.
  intros Hlen Hk. revert r Hlen. induction ts as [|t ts IH]; intros r Hlen.
  - cbn [fold_left map]. split; [cbn; lra|done].
  - cbn [fold_left map]. rewrite np_sum_cons.
    destruct (reward_slot_total ix saa day_low r t k Hlen Hk) as [E L].
    destruct (IH _ L) as [E' L']. split; [|done]. rewrite E', E. lra.
Qed.

Lemma reward_days_total ix saa ds r k :
  length (hh_total_shifted_kwh r) = N_HOUSEHOLDS → (k < N_HOUSEHOLDS)%nat →
  at_ (hh_total_shifted_kwh (fold_left (reward_day ix saa) ds r)) k
  == at_ (hh_total_shifted_kwh r) k
     + np_sum (map (λ d, np_sum (map (slot_shifted_kwh ix saa k) (day_slots_of ix d))) ds).
Proof.
  intros Hlen Hk. revert r Hlen. induction ds as [|d ds IH]; intros r Hlen.
  - cbn [fold_left map]. cbn. lra.
  - cbn [fold_left map]. rewrite np_sum_cons. unfold reward_day at 2.
    destruct (reward_slots_total ix saa
                (if (0 <? length (day_slots_of ix d))%nat
                 then np_min (map (at_ (intensities ix)) (day_slots_of ix d)) else 0)
                (day_slots_of ix d) r k Hlen Hk) as [E L].
    rewrite (IH _ L), E. lra.
Qed.

Lemma total_shifted_kwh_sum {G} `{Generator G} carbon (r : Run) hi s :
  simulate carbon = Ok r →
  run_series r !! hi = Some s →
  at_ (hh_total_shifted_kwh (run_rewards r)) hi == np_sum (shift_amount s) * 0.5.
Proof.
  intros Hrun Hs.
  destruct (simulate_series_ok carbon r hi s Hrun Hs) as [Hwf Hok].
  apply simulate_with_Ok in Hrun as (ix & Hix & ->).
  rewrite run_simulation_index in *. rewrite run_rewards_eq.
  assert (hi < N_HOUSEHOLDS)%nat as Hhi.
  { apply lookup_lt_Some in Hs.
    by rewrite (proj2 (run_simulation_sizes carbon ix)) in Hs. }
  set (saa := map shift_amount (run_series (run_simulation carbon ix))).
  unfold compute_rewards.
  rewrite reward_days_total; [|cbn [hh_total_shifted_kwh]; apply repeat_length|done].
  cbn [hh_total_shifted_kwh]. rewrite at_repeat_zero.
  assert (∀ t, slot_shifted_kwh ix saa hi t == at_ (shift_amount s) t * 0.5) as Hslot.
  { intros t. unfold slot_shifted_kwh, saa. rewrite (at2_map_shift_amount _ hi s t Hs).
    pose proof (ok_curtail_nonneg _ _ Hok t) as Hnn.
    destruct (Qltb (at_ (intensities ix) t) HIGH_THRESHOLD) eqn:E.
    - rewrite (ok_curtail_high _ _ Hok t E). lra.
    - destruct (Qltb 0 (at_ (shift_amount s) t)) eqn:E2; [lra|].
      apply Qltb_ge in E2. lra. }
  assert (np_sum (map (λ d, np_sum (map (slot_shifted_kwh ix saa hi) (day_slots_of ix d)))
                      (seq 0 (n_days ix)))
          == np_sum (map (λ d, sum_at (shift_amount s) (day_slots_of ix d))
                         (seq 0 (n_days ix))) * 0.5) as ->.
  { rewrite <- np_sum_map_scale. apply np_sum_map_ext. intros d _.
    unfold sum_at. rewrite <- np_sum_map_scale.
    apply np_sum_map_ext. intros t _. apply Hslot. }
  rewrite sum_days_all; [lra|apply (ok_len_shift_amount _ _ Hok)|].
  intros t Ht. destruct (day_of_slot_in_range elements carbon ix t Hix) as [|Hz]; [done|].
  exfalso. unfold n_days in Hz.
  destruct (build_index_days _ _ _ Hix) as [Hdays _].
  apply (unique_days_nonempty elements (map (λ c, day_id (from_ c)) carbon)).
  - intros X. reflexivity.
  - pose proof (ix_nonempty _ _ Hwf) as Hne. by destruct carbon.
  - rewrite <- Hdays. by apply length_zero_iff_nil.
Qed.

(** X14.  The total shifted energy accumulated for a household by the reward
    loop is the energy of its recorded curtailment series,
    [sum(shift_amount) * 0.5] kWh: the per-day, per-slot loop counts every
    curtailed slot exactly once. *)
Theorem total_shifted_matches_series {G} `{Generator G} carbon (r : Run) hi s :
  simulate carbon = Ok r →
  run_series r !! hi = Some s →
  at_ (hh_total_shifted_kwh (run_rewards r)) hi == np_sum (shift_amount s) * 0.5.
Proof. apply total_shifted_kwh_sum. Qed.

Lemma total_shifted_matches_series_witness :
  @simulate (list Q) (TapeGen demo_tape) demo_carbon = Ok demo_run
  ∧ run_series demo_run !! 0%nat = Some demo_series
  ∧ at_ (hh_total_shifted_kwh (run_rewards demo_run)) 0
    == np_sum (shift_amount demo_series) * 0.5.
Proof.
  split; [exact demo_run_ok|]. split; [exact demo_series_lookup|].
  exact (total_shifted_matches_series demo_carbon demo_run 0%nat demo_series
           demo_run_ok demo_series_lookup).
Defined.

(* ------------------------------------------------------------------------- *)
(** ** Percentages and peaks                                                 *)
(* ------------------------------------------------------------------------- *)

Lemma np_sum_pointwise_le (c : Q) (l k : list Q) :
  length l = length k →
  (∀ t, (t < length l)%nat → at_ l t <= c * at_ k t) →
  np_sum l <= c * np_sum k.
Proof.
  revert k. induction l as [|x l IH]; intros [|y k] Hlen Hall; try done.
  - cbn. lra.
  - rewrite !np_sum_cons.
    pose proof (Hall 0%nat ltac:(cbn; lia)) as H0. unfold at_ in H0. cbn [nth] in H0.
    assert (np_sum l <= c * np_sum k) as Hl.
    { apply IH; [cbn in Hlen; lia|]. intros t Ht.
      apply (Hall (S t)). cbn. lia. }
    lra.
Qed.

Lemma np_sum_floor_pos (c : Q) (l : list Q) :
  0 < c → l ≠ [] → (∀ t, (t < length l)%nat → c <= at_ l t) → 0 < np_sum l.
Proof.
  intros Hc Hne Hall.
  assert (∀ k : list Q, (∀ t, (t < length k)%nat → c <= at_ k t) → 0 <= np_sum k) as Hnn.
  { induction k as [|x k IH]; intros Hk; [cbn; lra|].
    rewrite np_sum_cons.
    pose proof (Hk 0%nat ltac:(cbn; lia)) as H0. unfold at_ in H0. cbn [nth] in H0.
    assert (0 <= np_sum k) by (apply IH; intros t Ht; apply (Hk (S t)); cbn; lia).
    lra. }
  destruct l as [|x l]; [done|]. rewrite np_sum_cons.
  pose proof (Hall 0%nat ltac:(cbn; lia)) as H0. unfold at_ in H0. cbn [nth] in H0.
  assert (0 <= np_sum l) by (apply Hnn; intros t Ht; apply (Hall (S t)); cbn; lia).
  lra.
Qed.

(** Rounding never crosses an integer from below. *)
Lemma round_half_even_le_int (y : Q) (n : Z) :
  y <= inject_Z n → (round_half_even y ≤ n)%Z.
Proof.
  intros Hy. unfold round_half_even.
  pose proof (Qfloor_le y) as Hf.
  destruct (Qltb (y - inject_Z (Qfloor y)) (1 # 2)) eqn:E1.
  - rewrite Zle_Qle. lra.
  - apply Qltb_ge in E1.
    assert (Qfloor y < n)%Z as Hlt by (rewrite Zlt_Qlt; lra).
    destruct (Qltb (1 # 2) _); [lia|]. destruct (Z.even _); lia.
Qed.

Lemma py_round_le_int (x : Q) (nd : nat) (n : Z) :
  x <= inject_Z n → py_round x nd <= inject_Z n.
Proof.
  intros Hx. unfold py_round.
  assert (0 < inject_Z (10 ^ Z.of_nat nd)) as Hpow.
  { change 0 with (inject_Z 0). rewrite <- Zlt_Qlt. apply Z.pow_pos_nonneg; lia. }
  apply Qle_shift_div_r; [done|].
  rewrite <- inject_Z_mult, <- Zle_Qle. apply round_half_even_le_int.
  rewrite inject_Z_mult. apply Qmult_le_compat_r; lra.
Qed.

Lemma series_baseline_pos {G} `{Generator G} carbon (r : Run) hi s :
  simulate carbon = Ok r → run_series r !! hi = Some s → 0 < np_sum (baseline s).
Proof.
  intros Hrun Hs.
  destruct (simulate_series_ok carbon r hi s Hrun Hs) as [Hwf Hok].
  assert (0 < n_slots (run_index r))%nat as Hn.
  { rewrite (ix_n_slots _ _ Hwf). pose proof (ix_nonempty _ _ Hwf) as Hne.
    destruct carbon; [done|cbn; lia]. }
  apply (np_sum_floor_pos 0.05); [lra| |].
  - intros E. pose proof (ok_len_baseline _ _ Hok) as Hl. rewrite E in Hl. cbn in Hl. lia.
  - intros t Ht. apply (ok_baseline_floor _ _ Hok).
    by rewrite <- (ok_len_baseline _ _ Hok).
Qed.

Lemma series_curtailment_share {G} `{Generator G} carbon (r : Run) hi s :
  simulate carbon = Ok r → run_series r !! hi = Some s →
  np_sum (shift_amount s) <= 0.7 * np_sum (baseline s).
Proof.
  intros Hrun Hs.
  destruct (simulate_series_ok carbon r hi s Hrun Hs) as [Hwf Hok].
  apply np_sum_pointwise_le.
  - by rewrite (ok_len_shift_amount _ _ Hok), (ok_len_baseline _ _ Hok).
  - intros t Ht. rewrite (ok_len_shift_amount _ _ Hok) in Ht.
    pose proof (ok_curtail_flex _ _ Hok t) as Hflex.
    pose proof (ok_baseline_floor _ _ Hok t Ht) as Hfloor.
    destruct (FLEX_PROFILE_bounds (nth t (slot_hod (run_index r)) 0%nat)) as [_ Hmax].
    eapply Qle_trans; [exact Hflex|]. rewrite Qmult_comm.
    apply Qmult_le_compat_r; lra.
Qed.

Lemma pct_demand_shifted_range {G} `{Generator G} carbon (r : Run) hi s :
  simulate carbon = Ok r →
  run_series r !! hi = Some s →
  0 < np_sum (baseline s)
  ∧ 0 <= pct_demand_shifted_of (at_ (hh_total_shifted_kwh (run_rewards r)) hi) (baseline s)
  ∧ pct_demand_shifted_of (at_ (hh_total_shifted_kwh (run_rewards r)) hi) (baseline s)
    <= 70.
Proof.
  intros Hrun Hs.
  pose proof (series_baseline_pos carbon r hi s Hrun Hs) as Hpos.
  pose proof (series_curtailment_share carbon r hi s Hrun Hs) as Hshare.
  pose proof (total_shifted_kwh_sum carbon r hi s Hrun Hs) as Htot.
  destruct (simulate_series_ok carbon r hi s Hrun Hs) as [_ Hok].
  assert (0 <= np_sum (shift_amount s)) as Hnn.
  { rewrite <- (sum_at_seq_all (shift_amount s)).
    apply sum_at_nonneg, (ok_curtail_nonneg _ _ Hok). }
  split; [done|]. unfold pct_demand_shifted_of.
  replace (Qltb 0 (np_sum (baseline s))) with true by (symmetry; by apply Qltb_lt).
  set (total := at_ (hh_total_shifted_kwh (run_rewards r)) hi) in *.
  set (D := np_sum (baseline s) * 0.5).
  assert (0 < D) as HD by (unfold D; lra).
  assert (0 <= total / D) as Hlo by (apply Qle_shift_div_l; lra).
  assert (total / D <= 0.7) as Hhi by (apply Qle_shift_div_r; unfold D; lra).
  split.
  - apply py_round_nonneg. lra.
  - change 70 with (inject_Z 70). apply py_round_le_int. change (inject_Z 70) with 70. lra.
Qed.

(** X15.  The percentage of demand shifted that is written for a household
    lies between 0 and 70: the household's weekly baseline is positive, so
    the guard of line 385 never takes its zero branch, and no slot gives up
    more than its flexible share. *)
Theorem pct_demand_shifted_bounds {G} `{Generator G} carbon (r : Run) hi s :
  simulate carbon = Ok r →
  run_series r !! hi = Some s →
  0 < np_sum (baseline s)
  ∧ 0 <= pct_demand_shifted_of (at_ (hh_total_shifted_kwh (run_rewards r)) hi) (baseline s)
  ∧ pct_demand_shifted_of (at_ (hh_total_shifted_kwh (run_rewards r)) hi) (baseline s)
    <= 70.
Proof. apply pct_demand_shifted_range. Qed.

Lemma pct_demand_shifted_bounds_witness :
  @simulate (list Q) (TapeGen demo_tape) demo_carbon = Ok demo_run
  ∧ run_series demo_run !! 0%nat = Some demo_series
  ∧ 0 < np_sum (baseline demo_series)
  ∧ 0 <= pct_demand_shifted_of (at_ (hh_total_shifted_kwh (run_rewards demo_run)) 0)
                               (baseline demo_series)
  ∧ pct_demand_shifted_of (at_ (hh_total_shifted_kwh (run_rewards demo_run)) 0)
                          (baseline demo_series) <= 70.
Proof.
  split; [exact demo_run_ok|]. split; [exact demo_series_lookup|].
  exact (pct_demand_shifted_bounds demo_carbon demo_run 0%nat demo_series
           demo_run_ok demo_series_lookup).
Defined.

Lemma py_max_ge_init_fold (l : list Q) (a : Q) : a <= fold_left py_max l a.
Proof.
  revert a. induction l as [|x l IH]; intros a; simpl; [lra|].
  eapply Qle_trans; [apply py_max_ge_l|apply IH].
Qed.

Lemma np_sum_map_floor {A} (f : A → Q) (c : Q) (l : list A) :
  (∀ x, x ∈ l → c <= f x) → c * inject_Z (Z.of_nat (length l)) <= np_sum (map f l).
Proof.
  induction l as [|x l IH]; intros Hall.
  { change (c * 0 <= 0). lra. }
  cbn [map length]. rewrite np_sum_cons, Nat2Z.inj_succ.
  unfold Z.succ. rewrite inject_Z_plus.
  pose proof (Hall x (list_elem_of_here _ _)) as Hx.
  assert (c * inject_Z (Z.of_nat (length l)) <= np_sum (map f l)) as Hl
    by (apply IH; intros y Hy; apply Hall; by apply list_elem_of_further).
  change (inject_Z 1) with 1. lra.
Qed.

(** The community total at the first slot is a lower bound of the peak. *)
Lemma np_max_sum_axis0_floor (n : nat) (rows : list (list Q)) (c : Q) :
  (0 < n)%nat → (∀ row, row ∈ rows → c <= at_ row 0) →
  c * inject_Z (Z.of_nat (length rows)) <= np_max (sum_axis0 n rows).
Proof.
  intros Hn Hrows. destruct n as [|n]; [lia|].
  unfold sum_axis0. cbn [seq map np_max].
  eapply Qle_trans; [|apply py_max_ge_init_fold].
  by apply np_sum_map_floor.
Qed.

Lemma run_summary {G} `{Generator G} carbon ix :
  summary (flex_output (run_simulation carbon ix))
  = summary_of ix (run_series (run_simulation carbon ix))
               (run_rewards (run_simulation carbon ix))
               (events (flex_output (run_simulation carbon ix))).
Proof.
  unfold run_simulation. destruct (gen_households _) as [hhs g1].
  by destruct (all_series ix hhs g1).
Qed.

Lemma run_peaks_floor {G} `{Generator G} carbon (r : Run) :
  simulate carbon = Ok r →
  1.25 <= np_max (sum_axis0 (n_slots (run_index r)) (map baseline (run_series r)))
  ∧ 1.25 <= np_max (sum_axis0 (n_slots (run_index r)) (map shifted (run_series r))).
Proof.
  intros Hrun. apply simulate_with_Ok in Hrun as (ix & Hix & ->).
  pose proof (build_index_Ok _ _ _ Hix) as Hwf.
  rewrite run_simulation_index.
  pose proof (run_simulation_series carbon ix (ix_len_hod _ _ Hwf)) as Hall.
  rewrite Forall_forall in Hall.
  assert (0 < n_slots ix)%nat as Hn.
  { rewrite (ix_n_slots _ _ Hwf). pose proof (ix_nonempty _ _ Hwf) as Hne.
    destruct carbon; [done|cbn; lia]. }
  assert (1.25 == 0.05 * inject_Z (Z.of_nat N_HOUSEHOLDS)) as E by reflexivity.
  split; rewrite E, <- (proj2 (run_simulation_sizes carbon ix)).
  - rewrite <- (length_map baseline). apply np_max_sum_axis0_floor; [done|].
    intros row Hrow. apply list_elem_of_fmap in Hrow as (s & -> & Hs).
    by apply (ok_baseline_floor _ _ (Hall s Hs)).
  - rewrite <- (length_map shifted). apply np_max_sum_axis0_floor; [done|].
    intros row Hrow. apply list_elem_of_fmap in Hrow as (s & -> & Hs).
    by apply (ok_shifted_floor _ _ (Hall s Hs)).
Qed.

Lemma peak_reduction_guard {G} `{Generator G} carbon (r : Run) :
  simulate carbon = Ok r →
  1.25 <= np_max (sum_axis0 (n_slots (run_index r)) (map baseline (run_series r)))
  ∧ peak_demand_reduction_pct (summary (flex_output r))
    = py_round ((1 - np_max (sum_axis0 (n_slots (run_index r)) (map shifted (run_series r)))
                     / np_max (sum_axis0 (n_slots (run_index r)) (map baseline (run_series r))))
                * 100) 1
  ∧ peak_demand_reduction_pct (summary (flex_output r)) <= 100.
Proof.
  intros Hrun. destruct (run_peaks_floor carbon r Hrun) as [Hb Hs].
  apply simulate_with_Ok in Hrun as (ix & Hix & ->).
  rewrite run_simulation_index in *. rewrite run_summary.
  unfold summary_of. cbn [peak_demand_reduction_pct]. unfold peak_reduction_pct_of.
  set (pb := np_max (sum_axis0 (n_slots ix)
                       (map baseline (run_series (run_simulation carbon ix))))) in *.
  set (ps := np_max (sum_axis0 (n_slots ix)
                       (map shifted (run_series (run_simulation carbon ix))))) in *.
  replace (Qltb 0 pb) with true by (symmetry; apply Qltb_lt; lra).
  split; [done|]. split; [done|].
  assert (0 <= ps / pb) as Hq by (apply Qle_shift_div_l; lra).
  change 100 with (inject_Z 100) at 2. apply py_round_le_int.
  change (inject_Z 100) with 100. lra.
Qed.

(** X16.  In every run that returns, the community baseline peak is at least
    1.25 kW (25 households, each at or above the 0.05 kW floor), so the guard
    [peak_baseline > 0] of line 320 always holds: the reported reduction is
    the rounded percentage, never the fallback 0 of the [else] branch, and it
    is at most 100. *)
Theorem peak_reduction_never_falls_back {G} `{Generator G} carbon (r : Run) :
  simulate carbon = Ok r →
  1.25 <= np_max (sum_axis0 (n_slots (run_index r)) (map baseline (run_series r)))
  ∧ peak_demand_reduction_pct (summary (flex_output r))
    = py_round ((1 - np_max (sum_axis0 (n_slots (run_index r)) (map shifted (run_series r)))
                     / np_max (sum_axis0 (n_slots (run_index r)) (map baseline (run_series r))))
                * 100) 1
  ∧ peak_demand_reduction_pct (summary (flex_output r)) <= 100.
Proof. apply peak_reduction_guard. Qed.

Lemma peak_reduction_never_falls_back_witness :
  @simulate (list Q) (TapeGen demo_tape) demo_carbon = Ok demo_run
  ∧ 1.25 <= np_max (sum_axis0 (n_slots (run_index demo_run))
                              (map baseline (run_series demo_run)))
  ∧ peak_demand_reduction_pct (summary (flex_output demo_run))
    = py_round ((1 - np_max (sum_axis0 (n_slots (run_index demo_run))
                                       (map shifted (run_series demo_run)))
                     / np_max (sum_axis0 (n_slots (run_index demo_run))
                                         (map baseline (run_series demo_run))))
                * 100) 1
  ∧ peak_demand_reduction_pct (summary (flex_output demo_run)) <= 100.
Proof.
  split; [exact demo_run_ok|].
  exact (peak_reduction_never_falls_back demo_carbon demo_run demo_run_ok).
Defined.

(* ------------------------------------------------------------------------- *)
(** ** aggregates.csv against the event list                                 *)
(* ------------------------------------------------------------------------- *)

Lemma at_sum_axis0 (n : nat) (rows : list (list Q)) (t : nat) :
  (t < n)%nat → at_ (sum_axis0 n rows) t = np_sum (map (λ row, at_ row t) rows).
Proof.
  intros Ht. unfold at_ at 1, sum_axis0.
  by rewrite nth_lookup, list_lookup_fmap, lookup_seq_lt.
Qed.

Lemma np_sum_map_zero {A} (f : A → Q) (l : list A) :
  (∀ x, x ∈ l → f x == 0) → np_sum (map f l) == 0.
Proof.
  induction l as [|x l IH]; intros Hall; [reflexivity|].
  cbn [map]. rewrite np_sum_cons.
  pose proof (Hall x (list_elem_of_here _ _)) as Hx.
  assert (np_sum (map f l) == 0) as Hl
    by (apply IH; intros y Hy; apply Hall; by apply list_elem_of_further).
  lra.
Qed.

Lemma py_round_of_zero (x : Q) (nd : nat) : x == 0 → py_round x nd == 0.
Proof.
  intros Hx. apply Qle_antisym.
  - change 0 with (inject_Z 0). apply py_round_le_int. change (inject_Z 0) with 0. lra.
  - apply py_round_nonneg. lra.
Qed.

Lemma csv_row_event {G} `{Generator G} carbon (r : Run) t row :
  simulate carbon = Ok r →
  aggregates_csv r !! t = Some row →
  ∃ e, events (flex_output r) !! t = Some e
       ∧ csv_timestamp row = ev_from e
       ∧ csv_intensity_gCO2 row = intensity_actual e
       ∧ (csv_is_high_carbon row = 1%Z ↔ flex_requested e = true)
       ∧ (csv_is_high_carbon row = 0%Z ↔ flex_requested e = false)
       ∧ (csv_is_high_carbon row = 0%Z → csv_curtailed_kw row == 0 ∧ participants e = []).
Proof.
  intros Hrun Hrow. apply simulate_with_Ok in Hrun as (ix & Hix & ->).
  pose proof (build_index_Ok _ _ _ Hix) as Hwf.
  unfold aggregates_csv in Hrow. rewrite run_simulation_index in Hrow.
  apply list_lookup_fmap_Some in Hrow as (u & -> & Hu).
  apply lookup_seq in Hu as [-> Ht]. cbn [Nat.add] in *.
  eexists. split; [by apply run_events_lookup|].
  rewrite slot_event_flex_requested, slot_event_intensity_actual.
  unfold aggregate_row.
  cbn [csv_timestamp csv_intensity_gCO2 csv_is_high_carbon csv_curtailed_kw].
  assert (Qleb HIGH_THRESHOLD (at_ (intensities ix) t)
          = (150 <=? py_int (at_ (intensities ix) t))%Z) as Eflag.
  { destruct (150 <=? _)%Z eqn:E.
    - apply Qleb_le. by apply py_int_threshold.
    - destruct (Qleb _ _) eqn:E'; [|done].
      apply Qleb_le, py_int_threshold in E'. congruence. }
  rewrite Eflag. split; [|split; [done|]].
  { unfold slot_event.
    assert (timestamps ix = map from_ carbon) as ->.
    { clear -Hix. unfold build_index in Hix.
      destruct (omapM parse_slot carbon) as [rows|]; [|done].
      simpl in Hix. destruct carbon as [|c carbon]; [done|].
      destruct (all_finite (map snd rows)) as [ints|]; [|done].
      by injection Hix as <-. }
    set (d := {| from_ := ""; to_ := "";
                 intensity := {| forecast := Absent; actual := Absent |} |}).
    change ""%string with (from_ d). rewrite map_nth.
    destruct (150 <=? _)%Z; [|done]. by destruct (slot_participants _ _ t). }
  destruct (150 <=? py_int (at_ (intensities ix) t))%Z eqn:E.
  - repeat split; try done.
  - repeat split; try done.
    + apply py_round_of_zero. unfold agg_shift_amount_of.
      rewrite at_sum_axis0 by done. rewrite map_map.
      apply np_sum_map_zero. intros s Hs.
      pose proof (run_simulation_series carbon ix (ix_len_hod _ _ Hwf)) as Hall.
      rewrite Forall_forall in Hall.
      rewrite (ok_curtail_high _ _ (Hall s Hs) t); [reflexivity|].
      apply Qltb_lt. destruct (Qlt_le_dec (at_ (intensities ix) t) HIGH_THRESHOLD) as [|Hge];
        [done|]. apply py_int_threshold in Hge. congruence.
    + unfold slot_event. by rewrite E.
Qed.

(** X17.  Row [t] of aggregates.csv and record [t] of the event list describe
    the same slot the same way: same timestamp, same integer intensity, and
    [is_high_carbon] is 1 exactly when [flex_requested] is true, although the
    first tests the float intensity and the second its truncation.  A row
    flagged 0 reports no curtailment, and its event has no participants. *)
Theorem csv_rows_agree_with_events {G} `{Generator G} carbon (r : Run) t row :
  simulate carbon = Ok r →
  aggregates_csv r !! t = Some row →
  ∃ e, events (flex_output r) !! t = Some e
       ∧ csv_timestamp row = ev_from e
       ∧ csv_intensity_gCO2 row = intensity_actual e
       ∧ (csv_is_high_carbon row = 1%Z ↔ flex_requested e = true)
       ∧ (csv_is_high_carbon row = 0%Z ↔ flex_requested e = false)
       ∧ (csv_is_high_carbon row = 0%Z → csv_curtailed_kw row == 0 ∧ participants e = []).
Proof. apply csv_row_event. Qed.

Lemma demo_row_lookup : aggregates_csv demo_run !! 1%nat = Some demo_row.
Proof.
  unfold aggregates_csv. rewrite list_lookup_fmap, lookup_seq_lt; [done|].
  rewrite demo_run_index. vm_compute. lia.
Qed.

Lemma csv_rows_agree_with_events_witness :
  @simulate (list Q) (TapeGen demo_tape) demo_carbon = Ok demo_run
  ∧ aggregates_csv demo_run !! 1%nat = Some demo_row
  ∧ ∃ e, events (flex_output demo_run) !! 1%nat = Some e
         ∧ csv_timestamp demo_row = ev_from e
         ∧ csv_intensity_gCO2 demo_row = intensity_actual e
         ∧ (csv_is_high_carbon demo_row = 1%Z ↔ flex_requested e = true)
         ∧ (csv_is_high_carbon demo_row = 0%Z ↔ flex_requested e = false)
         ∧ (csv_is_high_carbon demo_row = 0%Z
            → csv_curtailed_kw demo_row == 0 ∧ participants e = []).
Proof.
  split; [exact demo_run_ok|]. split; [exact demo_row_lookup|].
  exact (csv_rows_agree_with_events demo_carbon demo_run 1%nat demo_row
           demo_run_ok demo_row_lookup).
Defined.

(* ------------------------------------------------------------------------- *)
(** ** Community aggregates                                                  *)
(* ------------------------------------------------------------------------- *)

Lemma np_sum_map_plus {A} (f g : A → Q) (l : list A) :
  np_sum (map (λ x, f x + g x) l) == np_sum (map f l) + np_sum (map g l).
Proof.
  induction l as [|x l IH]; [reflexivity|].
  cbn [map]. rewrite !np_sum_cons, IH. ring.
Qed.

(** Summing the community array over a set of slots is summing every
    household over that set. *)
Lemma sum_at_sum_axis0 (n : nat) (rows : list (list Q)) (S : list nat) :
  (∀ t, t ∈ S → (t < n)%nat) →
  sum_at (sum_axis0 n rows) S == np_sum (map (λ row, sum_at row S) rows).
Proof.
  induction S as [|t S IH]; intros HS.
  - unfold sum_at. cbn [map]. symmetry. by apply np_sum_map_zero.
  - assert (sum_at (sum_axis0 n rows) S == np_sum (map (λ row, sum_at row S) rows)) as E
      by (apply IH; intros u Hu; apply HS; by apply list_elem_of_further).
    unfold sum_at in *. cbn [map]. rewrite np_sum_cons, E.
    rewrite at_sum_axis0 by apply HS, list_elem_of_here.
    rewrite <- np_sum_map_plus. apply np_sum_map_ext. intros row _.
    by rewrite np_sum_cons.
Qed.

Lemma community_day_conserved {G} `{Generator G} carbon (r : Run) day :
  simulate carbon = Ok r →
  (day < n_days (run_index r))%nat →
  sum_at (agg_shifted_of (run_index r) (run_series r)) (day_slots_of (run_index r) day)
  == sum_at (agg_baseline_of (run_index r) (run_series r)) (day_slots_of (run_index r) day).
Proof.
  intros Hrun Hday. apply simulate_with_Ok in Hrun as (ix & Hix & ->).
  pose proof (build_index_Ok _ _ _ Hix) as Hwf.
  rewrite run_simulation_index in *.
  pose proof (run_simulation_series carbon ix (ix_len_hod _ _ Hwf)) as Hall.
  rewrite Forall_forall in Hall.
  unfold agg_shifted_of, agg_baseline_of.
  rewrite !sum_at_sum_axis0 by (intros t Ht; by apply elem_of_day_slots in Ht as [? _]).
  rewrite !map_map. apply np_sum_map_ext. intros s Hs.
  apply (ok_conserved _ _ (Hall s Hs) day Hday).
Qed.

(** X18.  The community as a whole neither gains nor loses energy within a
    day: over the slots of any day the aggregate shifted demand (line 257)
    sums to the aggregate baseline demand (line 256). *)
Theorem community_energy_conserved_per_day {G} `{Generator G} carbon (r : Run) day :
  simulate carbon = Ok r →
  (day < n_days (run_index r))%nat →
  sum_at (agg_shifted_of (run_index r) (run_series r)) (day_slots_of (run_index r) day)
  == sum_at (agg_baseline_of (run_index r) (run_series r)) (day_slots_of (run_index r) day).
Proof. apply community_day_conserved. Qed.

Lemma community_energy_conserved_per_day_witness :
  @simulate (list Q) (TapeGen demo_tape) demo_carbon = Ok demo_run
  ∧ (0 < n_days (run_index demo_run))%nat
  ∧ sum_at (agg_shifted_of (run_index demo_run) (run_series demo_run))
           (day_slots_of (run_index demo_run) 0)
    == sum_at (agg_baseline_of (run_index demo_run) (run_series demo_run))
              (day_slots_of (run_index demo_run) 0).
Proof.
  assert (0 < n_days (run_index demo_run))%nat as Hd
    by (rewrite demo_run_index; vm_compute; lia).
  split; [exact demo_run_ok|]. split; [exact Hd|].
  exact (community_energy_conserved_per_day demo_carbon demo_run 0%nat demo_run_ok Hd).
Defined.

(* ------------------------------------------------------------------------- *)
(** ** The household records                                                 *)
(* ------------------------------------------------------------------------- *)

Lemma rmapM_Forall2 {G A B} (f : A → Rand G B) (R : A → B → Prop) (l : list A) (g : G) :
  (∀ x g, R x (f x g).1) → Forall2 R l (rmapM f l g).1.
Proof.
  intros Hf. revert g. induction l as [|x l IH]; intros g; simpl; [constructor|].
  unfold rbind. specialize (Hf x g). destruct (f x g) as [y g1].
  specialize (IH g1). destruct (rmapM f l g1) as [ys g2]. simpl in *.
  by constructor.
Qed.

Lemma gen_household_spec {G} `{Generator G} (i : nat) (g : G) :
  hh_id (gen_household i g).1 = household_id i
  ∧ 0.8 <= peak_demand_kw (gen_household i g).1.
Proof.
  unfold gen_household, rbind, rret.
  destruct (gen_normal 1.8 0.4 g) as [pk g1].
  destruct (gen_uniform 0.20 0.40 g1) as [msf g2].
  destruct (gen_uniform 2.0 4.0 g2) as [msh g3].
  destruct (gen_uniform 0.5 0.95 g3) as [pr g4].
  destruct (gen_choice (length FLEX_ASSETS) g4) as [c g5].
  cbn [fst hh_id peak_demand_kw]. split; [done|apply py_max_ge_l].
Qed.

Lemma run_households_eq {G} `{Generator G} carbon ix :
  run_households (run_simulation carbon ix) = (gen_households (default_rng SEED)).1.
Proof.
  unfold run_simulation. destruct (gen_households _) as [hhs g1].
  by destruct (all_series ix hhs g1).
Qed.

Lemma household_id_inj (i j : nat) :
  (i < N_HOUSEHOLDS)%nat → (j < N_HOUSEHOLDS)%nat →
  household_id i = household_id j → i = j.
Proof.
  intros Hi Hj E.
  assert (forallb (λ a, forallb (λ b, (a =? b)%nat
                                      || negb (String.eqb (household_id a) (household_id b)))
                                (seq 0 N_HOUSEHOLDS))
                  (seq 0 N_HOUSEHOLDS) = true) as Hall by (vm_compute; reflexivity).
  rewrite forallb_forall in Hall.
  specialize (Hall i ltac:(apply in_seq; lia)). rewrite forallb_forall in Hall.
  specialize (Hall j ltac:(apply in_seq; lia)).
  apply orb_true_iff in Hall as [Hij|Hne]; [by apply Nat.eqb_eq|].
  apply negb_true_iff, String.eqb_neq in Hne. done.
Qed.

Lemma run_households_spec {G} `{Generator G} carbon (r : Run) i hh :
  simulate carbon = Ok r →
  run_households r !! i = Some hh →
  length (run_households r) = N_HOUSEHOLDS
  ∧ hh_id hh = household_id i
  ∧ 0.8 <= peak_demand_kw hh
  ∧ ∀ j hh', run_households r !! j = Some hh' → hh_id hh' = hh_id hh → j = i.
Proof.
  intros Hrun Hh. apply simulate_with_Ok in Hrun as (ix & _ & ->).
  pose proof (proj1 (run_simulation_sizes carbon ix)) as Hlen.
  rewrite run_households_eq in *. unfold gen_households in *.
  pose proof (rmapM_Forall2 gen_household
                (λ k h, hh_id h = household_id k ∧ 0.8 <= peak_demand_kw h)
                (seq 0 N_HOUSEHOLDS) (default_rng SEED)
                (λ k g, gen_household_spec k g)) as Hall.
  assert (∀ k h, (rmapM gen_household (seq 0 N_HOUSEHOLDS) (default_rng SEED)).1 !! k
                 = Some h →
                 (k < N_HOUSEHOLDS)%nat ∧ hh_id h = household_id k
                 ∧ 0.8 <= peak_demand_kw h) as Hat.
  { intros k h Hk. pose proof (lookup_lt_Some _ _ _ Hk) as Hlt. rewrite Hlen in Hlt.
    split; [done|].
    eapply (Forall2_lookup_lr _ _ _ k k h Hall); [|exact Hk].
    by apply lookup_seq_lt. }
  destruct (Hat i hh Hh) as (Hi & Hid & Hpk).
  split; [done|]. split; [done|]. split; [done|].
  intros j hh' Hj E. destruct (Hat j hh' Hj) as (Hjlt & Hid' & _).
  apply household_id_inj; [done..|]. congruence.
Qed.

(** X19.  Whatever the generator draws, the run has 25 household records;
    record [i] carries the identifier ["HH-%03d" % (i+1)], no two records
    share an identifier, and every peak demand is at least the 0.8 kW
    floor. *)
Theorem households_well_formed {G} `{Generator G} carbon (r : Run) i hh :
  simulate carbon = Ok r →
  run_households r !! i = Some hh →
  length (run_households r) = N_HOUSEHOLDS
  ∧ hh_id hh = household_id i
  ∧ 0.8 <= peak_demand_kw hh
  ∧ ∀ j hh', run_households r !! j = Some hh' → hh_id hh' = hh_id hh → j = i.
Proof. apply run_households_spec. Qed.

Lemma households_well_formed_witness :
  @simulate (list Q) (TapeGen demo_tape) demo_carbon = Ok demo_run
  ∧ run_households demo_run !! 0%nat = Some demo_household
  ∧ length (run_households demo_run) = N_HOUSEHOLDS
  ∧ hh_id demo_household = household_id 0
  ∧ 0.8 <= peak_demand_kw demo_household
  ∧ ∀ j hh', run_households demo_run !! j = Some hh' →
             hh_id hh' = hh_id demo_household → j = 0%nat.
Proof.
  split; [exact demo_run_ok|]. split; [exact demo_household_lookup|].
  exact (households_well_formed demo_carbon demo_run 0%nat demo_household
           demo_run_ok demo_household_lookup).
Defined.

(* ------------------------------------------------------------------------- *)
(** ** fetch_carbon_week                                                     *)
(* ------------------------------------------------------------------------- *)

Lemma normalise_entry_inr {V} (entry rec : gmap string V) :
  normalise_entry entry = inr rec →
  dom rec = ({["from"; "to"; "intensity"]} : gset string)
  ∧ is_Some (rec !! "from"%string)
  ∧ rec !! "from"%string = entry !! "from"%string
  ∧ rec !! "to"%string = entry !! "to"%string
  ∧ rec !! "intensity"%string = entry !! "intensity"%string
  ∧ normalise_entry rec = inr rec.
Proof.
  unfold normalise_entry at 1.
  destruct (entry !! "from"%string) as [f|] eqn:Ef; [|done].
  destruct (entry !! "to"%string) as [t|] eqn:Et; [|done].
  destruct (entry !! "intensity"%string) as [i|] eqn:Ei; [|done].
  intros [= <-].
  assert ((<["from"%string := f]>
             (<["to"%string := t]> (<["intensity"%string := i]> (∅ : gmap string V))))
            !! "from"%string = Some f) as Lf by apply lookup_insert_eq.
  assert ((<["from"%string := f]>
             (<["to"%string := t]> (<["intensity"%string := i]> (∅ : gmap string V))))
            !! "to"%string = Some t) as Lt.
  { rewrite lookup_insert_ne by done. apply lookup_insert_eq. }
  assert ((<["from"%string := f]>
             (<["to"%string := t]> (<["intensity"%string := i]> (∅ : gmap string V))))
            !! "intensity"%string = Some i) as Li.
  { rewrite !lookup_insert_ne by done. apply lookup_insert_eq. }
  split; [rewrite !dom_insert_L, dom_empty_L; set_solver|].
  split; [by rewrite Lf|]. split; [done|]. split; [done|]. split; [done|].
  unfold normalise_entry. by rewrite Lf, Lt, Li.
Qed.

Lemma normalise_inr {V} (data records : list (gmap string V)) :
  normalise data = inr records →
  Forall2 (λ entry rec, normalise_entry entry = inr rec) data records.
Proof.
  revert records. induction data as [|entry data IH]; intros records; simpl.
  - intros [= <-]. constructor.
  - destruct (normalise_entry entry) as [k|rec] eqn:E; [done|].
    destruct (normalise data) as [k|recs]; [done|].
    intros [= <-]. constructor; [done|by apply IH].
Qed.

Lemma normalise_fixed {V} (data records : list (gmap string V)) :
  Forall2 (λ entry rec, normalise_entry entry = inr rec) data records →
  normalise records = inr records.
Proof.
  induction 1 as [|entry rec data records Hrec _ IH]; [done|]. simpl.
  destruct (normalise_entry_inr entry rec Hrec) as (_ & _ & _ & _ & _ & ->).
  by rewrite IH.
Qed.

Lemma fetch_returned_online {V} (data : list (gmap string V)) (fs fs' : Files V) records :
  data ≠ [] →
  fetch_carbon_week (ApiData data) fs = (Returned records, fs') →
  normalise data = inr records
  ∧ fs' = {| out_file := Some records; fallback_file := Some records |}.
Proof.
  intros Hne. destruct data as [|e es]; [done|]. unfold fetch_carbon_week.
  destruct (normalise (e :: es)) as [k|recs]; [done|]. by intros [= <- <-].
Qed.

Lemma fetched_records_spec {V} (data : list (gmap string V)) (fs fs' : Files V) records :
  data ≠ [] →
  fetch_carbon_week (ApiData data) fs = (Returned records, fs') →
  out_file fs' = Some records
  ∧ length records = length data
  ∧ normalise records = inr records
  ∧ ∀ i rec, records !! i = Some rec →
      ∃ entry, data !! i = Some entry
               ∧ dom rec = ({["from"; "to"; "intensity"]} : gset string)
               ∧ is_Some (rec !! "from"%string)
               ∧ rec !! "from"%string = entry !! "from"%string
               ∧ rec !! "to"%string = entry !! "to"%string
               ∧ rec !! "intensity"%string = entry !! "intensity"%string.
Proof.
  intros Hne Hrun. destruct (fetch_returned_online data fs fs' records Hne Hrun) as [Hn ->].
  pose proof (normalise_inr data records Hn) as Hall.
  split; [done|]. split; [symmetry; by eapply Forall2_length|].
  split; [by eapply normalise_fixed|].
  intros i rec Hi.
  destruct (Forall2_lookup_r _ _ _ i rec Hall Hi) as (entry & He & Hrec).
  exists entry. split; [done|].
  destruct (normalise_entry_inr entry rec Hrec) as (? & ? & ? & ? & ? & _). done.
Qed.

(** X20.  The records a successful fetch writes to carbon_week.json have
    exactly the keys ["from"], ["to"] and ["intensity"], each with the value
    of the API entry at the same position, whatever else the entry carried;
    there is one record per entry, and normalising the written records again
    changes nothing.  These are the keys simulate.py subscripts in every
    slot (lines 120, 124, 291, 292), so they are always present in a file
    fetch_carbon.py wrote from the API. *)
Theorem fetched_records_keep_three_keys {V} (data : list (gmap string V))
    (fs fs' : Files V) records :
  data ≠ [] →
  fetch_carbon_week (ApiData data) fs = (Returned records, fs') →
  out_file fs' = Some records
  ∧ length records = length data
  ∧ normalise records = inr records
  ∧ ∀ i rec, records !! i = Some rec →
      ∃ entry, data !! i = Some entry
               ∧ dom rec = ({["from"; "to"; "intensity"]} : gset string)
               ∧ is_Some (rec !! "from"%string)
               ∧ rec !! "from"%string = entry !! "from"%string
               ∧ rec !! "to"%string = entry !! "to"%string
               ∧ rec !! "intensity"%string = entry !! "intensity"%string.
Proof. apply fetched_records_spec. Qed.

Lemma demo_fetch :
  fetch_carbon_week (ApiData [demo_entry]) no_files = (Returned [demo_record], fetched_files).
Proof.
  unfold fetch_carbon_week, normalise, normalise_entry, demo_entry.
  rewrite lookup_insert_eq.
  rewrite (lookup_insert_ne _ "from"%string "to"%string) by done.
  rewrite lookup_insert_eq.
  rewrite (lookup_insert_ne _ "from"%string "intensity"%string) by done.
  rewrite (lookup_insert_ne _ "to"%string "intensity"%string) by done.
  rewrite lookup_insert_eq. reflexivity.
Qed.

Lemma fetched_records_keep_three_keys_witness :
  [demo_entry] ≠ []
  ∧ fetch_carbon_week (ApiData [demo_entry]) no_files
    = (Returned [demo_record], fetched_files)
  ∧ out_file fetched_files = Some [demo_record]
  ∧ length [demo_record] = length [demo_entry]
  ∧ normalise [demo_record] = inr [demo_record]
  ∧ ∀ i rec, [demo_record] !! i = Some rec →
      ∃ entry, [demo_entry] !! i = Some entry
               ∧ dom rec = ({["from"; "to"; "intensity"]} : gset string)
               ∧ is_Some (rec !! "from"%string)
               ∧ rec !! "from"%string = entry !! "from"%string
               ∧ rec !! "to"%string = entry !! "to"%string
               ∧ rec !! "intensity"%string = entry !! "intensity"%string.
Proof.
  assert ([demo_entry] ≠ []) as Hne by discriminate.
  split; [exact Hne|]. split; [exact demo_fetch|].
  exact (fetched_records_keep_three_keys [demo_entry] no_files fetched_files
           [demo_record] Hne demo_fetch).
Defined.

Lemma fetch_offline {V} (api : ApiResult V) (fs : Files V) :
  api = ApiRaised ∨ api = ApiData [] →
  fetch_carbon_week api fs = fetch_fallback fs.
Proof. by intros [-> | ->]. Qed.

Lemma fetch_replay {V} (data : list (gmap string V)) (fs fs' : Files V) records
    (api : ApiResult V) :
  data ≠ [] →
  fetch_carbon_week (ApiData data) fs = (Returned records, fs') →
  api = ApiRaised ∨ api = ApiData [] →
  fetch_carbon_week api fs' = (Returned records, fs').
Proof.
  intros Hne Hrun Hapi.
  destruct (fetch_returned_online data fs fs' records Hne Hrun) as [_ ->].
  by rewrite (fetch_offline api _ Hapi).
Qed.

(** X21.  After a fetch that reached the API, a later fetch whose request
    fails or comes back empty returns the very records of the earlier one
    and leaves both files as they were: the copy saved for offline use is
    what the fallback reads. *)
Theorem offline_fetch_replays_last_fetch {V} (data : list (gmap string V))
    (fs fs' : Files V) records (api : ApiResult V) :
  data ≠ [] →
  fetch_carbon_week (ApiData data) fs = (Returned records, fs') →
  api = ApiRaised ∨ api = ApiData [] →
  fetch_carbon_week api fs' = (Returned records, fs').
Proof. apply fetch_replay. Qed.

Lemma offline_fetch_replays_last_fetch_witness :
  [demo_entry] ≠ []
  ∧ fetch_carbon_week (ApiData [demo_entry]) no_files
    = (Returned [demo_record], fetched_files)
  ∧ (@ApiRaised string = ApiRaised ∨ @ApiRaised string = ApiData [])
  ∧ fetch_carbon_week ApiRaised fetched_files = (Returned [demo_record], fetched_files).
Proof.
  assert ([demo_entry] ≠ []) as Hne by discriminate.
  assert (@ApiRaised string = ApiRaised ∨ @ApiRaised string = ApiData []) as Hapi
    by (left; reflexivity).
  split; [exact Hne|]. split; [exact demo_fetch|]. split; [exact Hapi|].
  exact (offline_fetch_replays_last_fetch [demo_entry] no_files fetched_files
           [demo_record] ApiRaised Hne demo_fetch Hapi).
Defined.

Lemma fetch_files_cases {V} (api : ApiResult V) (fs : Files V) :
  match (fetch_carbon_week api fs).1 with
  | Returned records =>
      out_file (fetch_carbon_week api fs).2 = Some records
      ∧ fallback_file (fetch_carbon_week api fs).2 = Some records
  | SysExit code =>
      code = 1%Z ∧ fallback_file fs = None ∧ (fetch_carbon_week api fs).2 = fs
  | KeyError k =>
      (k = "from" ∨ k = "to" ∨ k = "intensity")%string
      ∧ (fetch_carbon_week api fs).2 = fs
      ∧ ∃ data entry, api = ApiData data ∧ entry ∈ data ∧ entry !! k = None
  end.
Proof.
  assert (match (fetch_fallback fs).1 with
          | Returned records =>
              out_file (fetch_fallback fs).2 = Some records
              ∧ fallback_file (fetch_fallback fs).2 = Some records
          | SysExit code => code = 1%Z ∧ fallback_file fs = None ∧ (fetch_fallback fs).2 = fs
          | KeyError k => False
          end) as Hfb.
  { unfold fetch_fallback. destruct (fallback_file fs) eqn:E; simpl; auto. }
  destruct api as [|[|e es]]; cbn [fetch_carbon_week].
  - destruct (fetch_fallback fs) as [[rs|c|k] fs1]; simpl in *; tauto.
  - destruct (fetch_fallback fs) as [[rs|c|k] fs1]; simpl in *; tauto.
  - destruct (normalise (e :: es)) as [k|recs] eqn:E; simpl; [|done].
    assert (∀ (data : list (gmap string V)) k, normalise data = inl k →
              (k = "from" ∨ k = "to" ∨ k = "intensity")%string
              ∧ ∃ entry, entry ∈ data ∧ entry !! k = None) as Hkey.
    { clear. induction data as [|entry data IH]; intros k; simpl; [done|].
      destruct (normalise_entry entry) as [k'|rec] eqn:E.
      - intros [= ->]. unfold normalise_entry in E.
        destruct (entry !! "from"%string) eqn:Ef;
          [|injection E as <-; split; [auto|exists entry; split; [left|done]]].
        destruct (entry !! "to"%string) eqn:Et;
          [|injection E as <-; split; [auto|exists entry; split; [left|done]]].
        destruct (entry !! "intensity"%string) eqn:Ei;
          [done|injection E as <-; split; [auto|exists entry; split; [left|done]]].
      - destruct (normalise data) as [k'|recs]; [|done].
        intros [= ->]. destruct (IH k eq_refl) as (Hk & entry' & Hin & Hnone).
        split; [done|]. exists entry'. split; [by right|done]. }
    destruct (Hkey _ _ E) as (Hk & entry & Hin & Hnone).
    split; [done|]. split; [done|]. by exists (e :: es), entry.
Qed.

(** X22.  However a call of fetch_carbon_week ends, the two files are
    consistent with it.  If it returns, carbon_week.json and the fallback
    file both hold exactly the returned data.  If it leaves through
    [sys.exit], the code is 1, there was no fallback file and no file was
    touched.  If a [KeyError] escapes, it names ["from"], ["to"] or
    ["intensity"], an API entry lacks that key, and no file was touched. *)
Theorem fetch_leaves_files_consistent {V} (api : ApiResult V) (fs : Files V) :
  match (fetch_carbon_week api fs).1 with
  | Returned records =>
      out_file (fetch_carbon_week api fs).2 = Some records
      ∧ fallback_file (fetch_carbon_week api fs).2 = Some records
  | SysExit code =>
      code = 1%Z ∧ fallback_file fs = None ∧ (fetch_carbon_week api fs).2 = fs
  | KeyError k =>
      (k = "from" ∨ k = "to" ∨ k = "intensity")%string
      ∧ (fetch_carbon_week api fs).2 = fs
      ∧ ∃ data entry, api = ApiData data ∧ entry ∈ data ∧ entry !! k = None
  end.
Proof. apply fetch_files_cases. Qed.
